(** * thermostat_controller: a shallow embedding of [controller.py] and
    [oath2_honeywell.py], and the properties of its specification.

    The two Python modules are embedded function by function.  Python
    objects that the code handles dynamically (the JSON documents of the
    vendor API, the [changeableValues] dictionary) stay dynamically typed:
    they are values of [json], and every subscript, comparison and
    conversion can raise the exception Python raises.  Calls that leave the
    process (the vendor endpoints, the clock) are answered by an
    environment that sees the history of the run. *)

From Stdlib Require Import ZArith Lia Bool String Ascii List DecimalString.
From Stdlib.Floats Require Import SpecFloat.
From stdpp Require Import gmap strings list fin_maps.

Local Open Scope string_scope.
Local Open Scope list_scope.
Local Open Scope Z_scope.

Set Warnings "-register-all".

(* ===================================================================== *)
(** ** Python exceptions and results *)
(* ===================================================================== *)

Module Py.

(** The exception classes that the modelled code can raise.  All of them
    derive from [Exception].  [RequestException] stands for whatever the
    HTTP client raises (connection errors, a body that is not JSON). *)
Inductive exn :=
  | KeyError
  | TypeError
  | ValueError
  | OverflowError
  | ZeroDivisionError
  | IndexError
  | RequestException.

(** A computation either returns or raises. *)
Inductive result (A : Type) :=
  | Ok (a : A)
  | Err (e : exn).
Global Arguments Ok {A} a.
Global Arguments Err {A} e.

Global Instance result_ret : MRet result := fun A a => Ok a.
Global Instance result_bind : MBind result := fun A B f m =>
  match m with
  | Ok a => f a
  | Err e => Err e
  end.
Global Instance result_fmap : FMap result := fun A B f m =>
  match m with
  | Ok a => Ok (f a)
  | Err e => Err e
  end.

Definition is_ok {A} (r : result A) : bool :=
  match r with Ok _ => true | Err _ => false end.

Global Instance exn_eq_dec : EqDecision exn.
Proof. solve_decision. Defined.

End Py.
Import Py.

(* ===================================================================== *)
(** ** Python numbers: [int] and [float] *)
(* ===================================================================== *)

Module Num.

(** A Python [float] is an IEEE 754 binary64 value; [spec_float] with
    precision 53 and maximal exponent 1024 is the Standard Library's
    executable specification of it. *)
Definition prec := 53.
Definition emax := 1024.

Inductive pynum :=
  | PyInt (z : Z)
  | PyFloat (f : spec_float).

Definition is_nan (n : pynum) : bool :=
  match n with PyFloat S754_nan => true | _ => false end.

(** [float(z)]: the nearest binary64, ties to even; an [int] beyond the
    range of a double raises [OverflowError]. *)
Definition float_of_int (z : Z) : result spec_float :=
  match binary_normalize prec emax z 0 false with
  | S754_infinity _ => Err OverflowError
  | f => Ok f
  end.

Definition to_float (n : pynum) : result spec_float :=
  match n with
  | PyInt z => float_of_int z
  | PyFloat f => Ok f
  end.

(** The integer [z] taken as an exact (unnormalised) dyadic, the operand
    of the correctly rounded [int / int]. *)
Definition exact_of_int (z : Z) : spec_float :=
  match z with
  | Z0 => S754_zero false
  | Zpos p => S754_finite false p 0
  | Zneg p => S754_finite true p 0
  end.

Definition is_zero (n : pynum) : bool :=
  match n with
  | PyInt z => z =? 0
  | PyFloat (S754_zero _) => true
  | PyFloat _ => false
  end.

(** [a * b], [a + b], [a - b]: exact on two ints, binary64 otherwise. *)
Definition py_arith (fz : Z -> Z -> Z)
    (ff : spec_float -> spec_float -> spec_float)
    (a b : pynum) : result pynum :=
  match a, b with
  | PyInt x, PyInt y => Ok (PyInt (fz x y))
  | _, _ =>
      x ← to_float a; y ← to_float b; Ok (PyFloat (ff x y))
  end.

Definition py_mul := py_arith Z.mul (SFmul prec emax).
Definition py_add := py_arith Z.add (SFadd prec emax).
Definition py_sub := py_arith Z.sub (SFsub prec emax).

(** [a / b] is true division: always a float, [ZeroDivisionError] on a
    zero divisor.  On two ints the quotient is rounded once from the
    exact value (and raises [OverflowError] when it does not fit). *)
Definition py_truediv (a b : pynum) : result pynum :=
  if is_zero b then Err ZeroDivisionError
  else match a, b with
       | PyInt x, PyInt y =>
           match SFdiv prec emax (exact_of_int x) (exact_of_int y) with
           | S754_infinity _ => Err OverflowError
           | q => Ok (PyFloat q)
           end
       | _, _ =>
           x ← to_float a; y ← to_float b; Ok (PyFloat (SFdiv prec emax x y))
       end.

(** Round the positive dyadic [m * 2^e] to the nearest integer, ties to
    the even one. *)
Definition round_half_even (m e : Z) : Z :=
  if 0 <=? e then m * 2 ^ e
  else
    let d := 2 ^ (- e) in
    let q := m / d in
    let r := m mod d in
    match 2 * r ?= d with
    | Lt => q
    | Gt => q + 1
    | Eq => if Z.even q then q else q + 1
    end.

(** [round(x)] with one argument: an [int]; [ValueError] on NaN and
    [OverflowError] on an infinity. *)
Definition py_round (x : pynum) : result Z :=
  match x with
  | PyInt z => Ok z
  | PyFloat S754_nan => Err ValueError
  | PyFloat (S754_infinity _) => Err OverflowError
  | PyFloat (S754_zero _) => Ok 0
  | PyFloat (S754_finite s m e) =>
      Ok (cond_Zopp s (round_half_even (Zpos m) e))
  end.

(** The mathematical value of a number, for the comparisons, which
    Python performs exactly also between an [int] and a [float]. *)
Inductive xval :=
  | XNaN
  | XInf (neg : bool)
  | XFin (m e : Z).   (* m * 2^e *)

Definition value (n : pynum) : xval :=
  match n with
  | PyInt z => XFin z 0
  | PyFloat S754_nan => XNaN
  | PyFloat (S754_infinity s) => XInf s
  | PyFloat (S754_zero _) => XFin 0 0
  | PyFloat (S754_finite s m e) => XFin (cond_Zopp s (Zpos m)) e
  end.

Definition dyadic_compare (m1 e1 m2 e2 : Z) : comparison :=
  let e := Z.min e1 e2 in
  (m1 * 2 ^ (e1 - e)) ?= (m2 * 2 ^ (e2 - e)).

(** [None] when an operand is NaN: every ordering test is then false. *)
Definition num_compare (a b : pynum) : option comparison :=
  match value a, value b with
  | XNaN, _ | _, XNaN => None
  | XInf s1, XInf s2 =>
      Some (match s1, s2 with
            | true, false => Lt
            | false, true => Gt
            | _, _ => Eq
            end)
  | XInf s, XFin _ _ => Some (if s then Lt else Gt)
  | XFin _ _, XInf s => Some (if s then Gt else Lt)
  | XFin m1 e1, XFin m2 e2 => Some (dyadic_compare m1 e1 m2 e2)
  end.

Definition num_eq (a b : pynum) : bool :=
  match num_compare a b with Some Eq => true | _ => false end.
Definition num_lt (a b : pynum) : bool :=
  match num_compare a b with Some Lt => true | _ => false end.
Definition num_gt (a b : pynum) : bool :=
  match num_compare a b with Some Gt => true | _ => false end.

End Num.
Import Num.

(* ===================================================================== *)
(** ** JSON documents as Python sees them *)
(* ===================================================================== *)

Module Json.

(** What [json.load] and [response.json()] return: [None], [bool], numbers,
    [str], [list] and [dict] with [str] keys.  A [str] is held as the
    UTF-8 bytes of its characters. *)
Inductive json :=
  | JNull
  | JBool (b : bool)
  | JNum (n : pynum)
  | JStr (s : string)
  | JList (l : list json)
  | JObj (m : gmap string json).

(** [d[k]] on a dictionary. *)
Definition dict_get {A} (d : gmap string A) (k : string) : result A :=
  match d !! k with
  | Some x => Ok x
  | None => Err KeyError
  end.

(** [v[k]] with a [str] subscript [k]: only a [dict] admits it. *)
Definition getitem (v : json) (k : string) : result json :=
  match v with
  | JObj m => dict_get m k
  | _ => Err TypeError
  end.

(** [d[k]] and [k in d] where the key [k] is itself a JSON value: a [list]
    or [dict] key is unhashable, any other key that is not a [str] is
    simply not there. *)
Definition dict_get_json {A} (d : gmap string A) (k : json) : result A :=
  match k with
  | JStr s => dict_get d s
  | JList _ | JObj _ => Err TypeError
  | _ => Err KeyError
  end.

(** A [bool] is an [int] in every comparison. *)
Definition as_num (v : json) : option pynum :=
  match v with
  | JNum n => Some n
  | JBool b => Some (PyInt (if b then 1 else 0))
  | _ => None
  end.

(** [v == s] for a [str] [s], and [v == n] for a number [n]. *)
Definition eq_str (v : json) (s : string) : bool :=
  match v with
  | JStr t => String.eqb t s
  | _ => false
  end.

Definition eq_num (v : json) (n : pynum) : bool :=
  match as_num v with
  | Some x => num_eq x n
  | None => false
  end.

(** [v < n] and [v > n] for a number [n]: [TypeError] unless [v] is a
    number too. *)
Definition lt_num (v : json) (n : pynum) : result bool :=
  match as_num v with
  | Some x => Ok (num_lt x n)
  | None => Err TypeError
  end.

Definition gt_num (v : json) (n : pynum) : result bool :=
  match as_num v with
  | Some x => Ok (num_gt x n)
  | None => Err TypeError
  end.

(** The bytes of a [str]: a character is a leading byte with the
    continuation bytes (10xxxxxx) that follow it. *)
Definition byte (c : ascii) : Z := Z.of_N (N_of_ascii c).

Definition continuation (c : ascii) : bool := (128 <=? byte c) && (byte c <? 192).

Definition inside (s : string) : bool :=
  match s with
  | String d _ => continuation d
  | EmptyString => false
  end.

Fixpoint characters (s : string) : list string :=
  match s with
  | EmptyString => []
  | String c r =>
      match characters r with
      | first :: rest =>
          if inside r then String c first :: rest
          else String c EmptyString :: first :: rest
      | [] => [String c EmptyString]
      end
  end.

(** [for x in v]: a [list] yields its items, a [str] its characters and a
    [dict] its keys (all of them [str]; the loops below fail on the first
    [str] they meet, so the order of the keys is immaterial). *)
Definition chars (s : string) : list json := JStr <$> characters s.

Definition iter (v : json) : result (list json) :=
  match v with
  | JList l => Ok l
  | JStr s => Ok (chars s)
  | JObj m => Ok (JStr <$> (map_to_list m).*1)
  | _ => Err TypeError
  end.

End Json.
Import Json.

(* ===================================================================== *)
(** ** [datetime]: naive timestamps, durations, parsing and printing *)
(* ===================================================================== *)

Module Time.

(** A naive [datetime.datetime].  The calendar date is kept as its
    proleptic Gregorian ordinal ([date.toordinal()]): 1 is 0001-01-01 and
    [MAXORDINAL] is 9999-12-31, the last date the type can hold.  The code
    never reads year, month or day; it only compares dates and adds days. *)
Record datetime := mk_datetime {
  ordinal : Z;
  hour : Z;
  minute : Z;
  second : Z;
  microsecond : Z
}.

Definition MAXORDINAL : Z := 3652059.

(** The invariant every [datetime] object satisfies. *)
Definition valid (dt : datetime) : Prop :=
  1 <= ordinal dt <= MAXORDINAL /\ 0 <= hour dt < 24 /\
  0 <= minute dt < 60 /\ 0 <= second dt < 60 /\
  0 <= microsecond dt < 1000000.

(** A [datetime.time] (microseconds are always 0 after [strptime] with
    this format, the field is kept for [combine]). *)
Record time := mk_time {
  t_hour : Z;
  t_minute : Z;
  t_second : Z;
  t_microsecond : Z
}.

(** A normalised [datetime.timedelta]. *)
Record timedelta := mk_timedelta {
  days : Z;
  seconds : Z;
  microseconds : Z
}.

Definition us_per_second : Z := 1000000.
Definition us_per_day : Z := 86400 * us_per_second.

(** The constructor normalises its arguments and refuses more than
    999999999 days in either direction. *)
Definition timedelta_of_us (us : Z) : result timedelta :=
  let d := us / us_per_day in
  if (-999999999 <=? d) && (d <=? 999999999) then
    Ok {| days := d;
          seconds := (us mod us_per_day) / us_per_second;
          microseconds := us mod us_per_second |}
  else Err OverflowError.

(** [timedelta(minutes=m)] and [timedelta(days=d)]. *)
Definition timedelta_minutes (m : Z) : result timedelta :=
  timedelta_of_us (m * 60 * us_per_second).
Definition timedelta_days (d : Z) : result timedelta :=
  timedelta_of_us (d * us_per_day).

Definition total_us (td : timedelta) : Z :=
  (days td * 86400 + seconds td) * us_per_second + microseconds td.

(** Microseconds since the (virtual) midnight of ordinal 0. *)
Definition timestamp (dt : datetime) : Z :=
  (ordinal dt * 86400 + hour dt * 3600 + minute dt * 60 + second dt)
    * us_per_second + microsecond dt.

(** [dt + td]: the fields are recomputed from the sum; a date outside
    0001-01-01 .. 9999-12-31 raises [OverflowError]. *)
Definition add (dt : datetime) (td : timedelta) : result datetime :=
  let total := timestamp dt + total_us td in
  let d := total / us_per_day in
  let s := (total mod us_per_day) / us_per_second in
  if (0 <? d) && (d <=? MAXORDINAL) then
    Ok {| ordinal := d;
          hour := s / 3600;
          minute := (s mod 3600) / 60;
          second := s mod 60;
          microsecond := total mod us_per_second |}
  else Err OverflowError.

(** Comparison is field by field, most significant first. *)
Definition lex (c : comparison) (rest : comparison) : comparison :=
  match c with Eq => rest | _ => c end.

Definition compare (a b : datetime) : comparison :=
  lex (ordinal a ?= ordinal b)
    (lex (hour a ?= hour b)
       (lex (minute a ?= minute b)
          (lex (second a ?= second b)
             (microsecond a ?= microsecond b)))).

Definition gt (a b : datetime) : bool :=
  match compare a b with Gt => true | _ => false end.
Definition lt (a b : datetime) : bool :=
  match compare a b with Lt => true | _ => false end.
Definition le (a b : datetime) : bool := negb (gt a b).

(** [datetime.combine(date, time)]. *)
Definition combine (date : Z) (t : time) : datetime :=
  {| ordinal := date; hour := t_hour t; minute := t_minute t;
     second := t_second t; microsecond := t_microsecond t |}.

(** *** [strptime(s, "%H:%M:%S")] *)

(** The first character of a [str]: its code point, decoded from UTF-8,
    and the rest of the string. *)
Definition trail (c : ascii) : option Z :=
  if continuation c then Some (byte c - 128) else None.

Definition code_point (s : string) : option (Z * string) :=
  match s with
  | EmptyString => None
  | String a r =>
      let n := byte a in
      if n <? 128 then Some (n, r)
      else if (194 <=? n) && (n <? 224) then
        match r with
        | String b r => x ← trail b; Some ((n - 192) * 64 + x, r)
        | _ => None
        end
      else if (224 <=? n) && (n <? 240) then
        match r with
        | String b (String c r) =>
            x ← trail b; y ← trail c;
            let cp := ((n - 224) * 64 + x) * 64 + y in
            if 2048 <=? cp then Some (cp, r) else None
        | _ => None
        end
      else if (240 <=? n) && (n <? 245) then
        match r with
        | String b (String c (String d r)) =>
            x ← trail b; y ← trail c; z ← trail d;
            let cp := (((n - 240) * 64 + x) * 64 + y) * 64 + z in
            if (65536 <=? cp) && (cp <? 1114112) then Some (cp, r) else None
        | _ => None
        end
      else None
  end.

(** The decimal digits of Unicode (category Nd) are what [\d] matches in
    a [str] pattern and what [int] reads.  Every script has its ten
    digits in a row; the table lists the code point of each zero, from
    the ASCII digits and the Arabic-Indic ones to the segmented digits.
    It is the table of Unicode 15, the database of CPython 3.12 and 3.13
    (the nested quotes in the f-strings of [main] need 3.12). *)
Definition zeros : list Z :=
  [ 0x30; 0x660; 0x6F0; 0x7C0; 0x966; 0x9E6; 0xA66; 0xAE6; 0xB66; 0xBE6;
    0xC66; 0xCE6; 0xD66; 0xDE6; 0xE50; 0xED0; 0xF20; 0x1040; 0x1090;
    0x17E0; 0x1810; 0x1946; 0x19D0; 0x1A80; 0x1A90; 0x1B50; 0x1BB0;
    0x1C40; 0x1C50; 0xA620; 0xA8D0; 0xA900; 0xA9D0; 0xA9F0; 0xAA50;
    0xABF0; 0xFF10; 0x104A0; 0x10D30; 0x11066; 0x110F0; 0x11136; 0x111D0;
    0x112F0; 0x11450; 0x114D0; 0x11650; 0x116C0; 0x11730; 0x118E0;
    0x11950; 0x11C50; 0x11D50; 0x11DA0; 0x11F50; 0x16A60; 0x16AC0;
    0x16B50; 0x1D7CE; 0x1D7D8; 0x1D7E2; 0x1D7EC; 0x1D7F6; 0x1E140;
    0x1E2F0; 0x1E4F0; 0x1E950; 0x1FBF0 ].

Definition decimal (cp : Z) : option Z :=
  zero ← find (fun zero => (zero <=? cp) && (cp <=? zero + 9)) zeros;
  Some (cp - zero).

(** The pieces of the patterns, each read at the head of a string and
    giving the value of the digit with the rest of the string: [\d], and
    an ASCII class such as [[0-5]] (a literal [2] is the class [[2-2]]). *)
Definition digit (s : string) : option (Z * string) :=
  first ← code_point s; d ← decimal (fst first); Some (d, snd first).

Definition digit_between (lo hi : Z) (s : string) : option (Z * string) :=
  match s with
  | String a r =>
      if (48 + lo <=? byte a) && (byte a <=? 48 + hi) then Some (byte a - 48, r)
      else None
  | EmptyString => None
  end.

(** Two pieces in a row, or one piece, that take the whole of [s]; the
    value is what [int] makes of the characters they matched. *)
Definition two (first second : string -> option (Z * string)) (s : string)
  : option Z :=
  match first s with
  | Some (x, r) =>
      match second r with
      | Some (y, EmptyString) => Some (10 * x + y)
      | _ => None
      end
  | None => None
  end.

Definition one (piece : string -> option (Z * string)) (s : string) : option Z :=
  match piece s with
  | Some (x, EmptyString) => Some x
  | _ => None
  end.

(** [a|b]: the first alternative that matches. *)
Definition orelse (a b : option Z) : option Z :=
  match a with
  | Some _ => a
  | None => b
  end.

(** The three directives: [%H] is [2[0-3]|[0-1]\d|\d], [%M] is
    [[0-5]\d|\d] and [%S] is [6[0-1]|[0-5]\d|\d].  No alternative matches
    a colon and the whole string must be consumed, so each directive has
    to match all of the text between two colons. *)
Definition directive_H (s : string) : option Z :=
  orelse (two (digit_between 2 2) (digit_between 0 3) s)
    (orelse (two (digit_between 0 1) digit s) (one digit s)).

Definition directive_M (s : string) : option Z :=
  orelse (two (digit_between 0 5) digit s) (one digit s).

Definition directive_S (s : string) : option Z :=
  orelse (two (digit_between 6 6) (digit_between 0 1) s)
    (orelse (two (digit_between 0 5) digit s) (one digit s)).

Fixpoint split_colon (s : string) : list string :=
  match s with
  | EmptyString => [EmptyString]
  | String c r =>
      if Ascii.eqb c ":"%char then EmptyString :: split_colon r
      else match split_colon r with
           | h :: t => String c h :: t
           | [] => [String c EmptyString]
           end
  end.

(** The whole string must match the three directives with a colon
    between them.  The pattern lets seconds 60 and 61 through, which
    [datetime] then refuses.  Every failure is a [ValueError]. *)
Definition parse_HMS (s : string) : result time :=
  match split_colon s with
  | [h; m; sec] =>
      match directive_H h, directive_M m, directive_S sec with
      | Some hh, Some mm, Some ss =>
          if ss <=? 59 then Ok (mk_time hh mm ss 0) else Err ValueError
      | _, _, _ => Err ValueError
      end
  | _ => Err ValueError
  end.

(** [strptime] wants a [str]. *)
Definition strptime_HMS (v : json) : result time :=
  match v with
  | JStr s => parse_HMS s
  | _ => Err TypeError
  end.

(** *** [strftime("%H:%M:%S")] *)

Definition digit_char (d : Z) : ascii := ascii_of_N (Z.to_N (48 + d)).

Definition pad2 (n : Z) : string :=
  String (digit_char (n / 10)) (String (digit_char (n mod 10)) EmptyString).

Definition strftime_HMS (dt : datetime) : string :=
  String.append (pad2 (hour dt))
    (String ":" (String.append (pad2 (minute dt))
       (String ":" (pad2 (second dt))))).

End Time.
Import Time.

(* ===================================================================== *)
(** ** Code that mutates one object: state and exceptions *)
(* ===================================================================== *)

Module St.

(** A computation over a mutable state [S] that returns or raises; the
    state it leaves behind is kept in both cases, as the mutations made
    before an exception stay made. *)
Definition stateful (S A : Type) : Type := S -> S * result A.

Definition ret {S A} (a : A) : stateful S A := fun s => (s, Ok a).

Definition bind {S A B} (m : stateful S A) (f : A -> stateful S B)
  : stateful S B :=
  fun s => match m s with
           | (s', Ok a) => f a s'
           | (s', Err e) => (s', Err e)
           end.

(** A computation that does not touch the state. *)
Definition pure {S A} (r : result A) : stateful S A := fun s => (s, r).

Definition get {S} : stateful S S := fun s => (s, Ok s).
Definition modify {S} (f : S -> S) : stateful S unit := fun s => (f s, Ok tt).

End St.

Declare Scope stateful_scope.
Delimit Scope stateful_scope with st.
Notation "x <- m ;; k" := (St.bind m (fun x => k))
  (at level 100, m at next level, right associativity) : stateful_scope.
Notation "m ;; k" := (St.bind m (fun _ => k))
  (at level 100, right associativity) : stateful_scope.

(* ===================================================================== *)
(** ** The world outside the process *)
(* ===================================================================== *)

Module World.

(** The two grants of the vendor token endpoint. *)
Inductive grant :=
  | AuthorizationCode (code redirect_uri : string)
  | RefreshToken (refresh_token : string).

(** The HTTP requests the program sends.  [PostToken] carries the client
    id and secret of its Basic authorization header, the other two the
    bearer token of theirs. *)
Inductive request :=
  | PostToken (token_url client_id client_secret : string) (g : grant)
  | GetLocations (client_id access_token : string)
  | PostDeviceSettings (client_id access_token location_id : string)
      (device_id : json) (settings : json).

(** What comes back: a response with its status code and what
    [response.json()] gives on it, or an exception of the HTTP client. *)
Inductive reply :=
  | Response (status_code : Z) (body : result json)
  | Raised (e : exn).

(** What a run leaves behind: the requests it sent with their replies,
    and the writes to the credential file. *)
Inductive event :=
  | Called (rq : request) (rp : reply)
  | Saved (fpath : string) (access_token refresh_token expiration_time : option string).

(** The environment answers a request knowing everything that happened
    before; [clock] is [datetime.datetime.now()]; [repr] is Python's
    [str] on floats, lists and dictionaries, which is left open. *)
Record environment := {
  api : list event -> request -> reply;
  clock : list event -> datetime;
  repr : json -> string
}.

(** Send a request, record it, and hand back the response or raise. *)
Definition send (w : environment) (rq : request)
  : St.stateful (list event) (Z * result json) :=
  fun h =>
    let rp := api w h rq in
    (h ++ [Called rq rp],
     match rp with
     | Response st body => Ok (st, body)
     | Raised e => Err e
     end).

End World.
Import World.

(* ===================================================================== *)
(** ** oath2_honeywell.py *)
(* ===================================================================== *)

Module Oath2Honeywell.

Definition default_token_url : string :=
  "https://api.honeywellhome.com/oauth2/token".

(** The common tail of the three endpoint functions:
    [success = (response.status_code == 200); return success, response.json()]. *)
Definition success_and_json (w : environment) (rq : request)
  : St.stateful (list event) (bool * json) :=
  (response <- send w rq;;
   body <- St.pure (snd response);;
   St.ret (fst response =? 200, body))%st.

(** [refresh_access_token(client_id, client_secret, refresh_token)]. *)
Definition refresh_access_token (w : environment)
    (client_id client_secret refresh_token : string) :=
  success_and_json w
    (PostToken default_token_url client_id client_secret
       (RefreshToken refresh_token)).

(** [get_locations_and_devices(client_id, access_token)]. *)
Definition get_locations_and_devices (w : environment)
    (client_id access_token : string) :=
  success_and_json w (GetLocations client_id access_token).

(** [post_device_settings(client_id, access_token, location_id,
    device_id, settings)]. *)
Definition post_device_settings (w : environment)
    (client_id access_token location_id : string) (device_id settings : json) :=
  success_and_json w
    (PostDeviceSettings client_id access_token location_id device_id settings).

(** [update_credentials(fpath, access_token, refresh_token,
    expiration_time)]: the write to the credential file. *)
Definition update_credentials (fpath : string)
    (access_token refresh_token expiration_time : option string)
  : St.stateful (list event) unit :=
  St.modify (fun h => h ++ [Saved fpath access_token refresh_token expiration_time]).

(** *** The redirect listener of [get_oath2_token] *)

(** What the handler and the waiting caller share: the requests sent so
    far, the queue the caller blocks on, and the responses written to the
    browser (status code and body). *)
Record server := mk_server {
  log : list event;
  token_queue : list json;
  sent : list (Z * string)
}.

Definition post (w : environment) (rq : request)
  : St.stateful server (Z * result json) :=
  fun s =>
    let '(h, r) := send w rq (log s) in
    (mk_server h (token_queue s) (sent s), r).

Definition put (token : json) : St.stateful server unit :=
  St.modify (fun s => mk_server (log s) (token_queue s ++ [token]) (sent s)).

Definition send_response (code : Z) (body : string) : St.stateful server unit :=
  St.modify (fun s => mk_server (log s) (token_queue s) (sent s ++ [(code, body)])).

(** [query_params.get(k, [None])[0]] on the dictionary [parse_qs]
    returns. *)
Definition first_value (query_params : gmap string (list string)) (k : string)
  : result (option string) :=
  match query_params !! k with
  | None => Ok None
  | Some (v :: _) => Ok (Some v)
  | Some [] => Err IndexError
  end.

(** Truth value of [code]: [None] and the empty string are false. *)
Definition truthy (code : option string) : bool :=
  match code with
  | Some (String _ _) => true
  | _ => false
  end.

(** [OAuthHandler.do_GET], on the query parameters of the request path. *)
Definition do_GET (w : environment)
    (client_id client_secret redirect_uri token_url auth_state : string)
    (query_params : gmap string (list string))
  : St.stateful server unit :=
  (code <- St.pure (first_value query_params "code");;
   received_state <- St.pure (first_value query_params "state");;
   if truthy code && bool_decide (received_state = Some auth_state) then
     response <- post w (PostToken token_url client_id client_secret
                           (AuthorizationCode (default EmptyString code) redirect_uri));;
     if fst response =? 200 then
       token <- St.pure (snd response);;
       put token;;
       send_response 200 "You can close this window now."
     else
       send_response 500 "Failed to get token."
   else
     send_response 400 "Invalid request.")%st.

(** The caller of [get_oath2_token] gets the first token put in the
    queue; [None] while it is still blocked on [token_queue.get()]. *)
Definition delivered (s : server) : option json := head (token_queue s).

End Oath2Honeywell.
Import Oath2Honeywell.

(* ===================================================================== *)
(** ** controller.py: the setpoint scheduler *)
(* ===================================================================== *)

Module Controller.

(** [is_x_minutes_in_future(time_str, minutes_in_future, now)].  The
    optional [now] is always supplied by the caller in this program. *)
Definition is_x_minutes_in_future
    (time_str : json) (minutes_in_future : Z) (now : datetime)
  : result bool :=
  given_time ← strptime_HMS time_str;
  let given_datetime := combine (ordinal now) given_time in
  delta ← timedelta_minutes minutes_in_future;
  limit ← Time.add now delta;
  Ok (Time.gt given_datetime limit).

(** [round_up_to_quarter_hour(dt)]. *)
Definition round_up_to_quarter_hour (dt : datetime) : result datetime :=
  if (second dt =? 0) && (microsecond dt =? 0) && (minute dt mod 15 =? 0)
  then Ok dt
  else
    let next_minute := ((minute dt / 15) + 1) * 15 mod 60 in
    if next_minute =? 0 then
      let next_hour := hour dt + 1 in
      if next_hour =? 24 then
        one_day ← timedelta_days 1;
        dt' ← Time.add dt one_day;
        Ok {| ordinal := ordinal dt'; hour := 0; minute := 0;
              second := 0; microsecond := 0 |}
      else
        Ok {| ordinal := ordinal dt; hour := next_hour; minute := 0;
              second := 0; microsecond := 0 |}
    else
      Ok {| ordinal := ordinal dt; hour := hour dt; minute := next_minute;
            second := 0; microsecond := 0 |}.

(** The operations of the body of [update_values] on its argument
    [values], the dictionary it mutates. *)
Definition load (k : string) : St.stateful (gmap string json) json :=
  fun values => (values, dict_get values k).
Definition store (k : string) (v : json) : St.stateful (gmap string json) unit :=
  St.modify (fun values => <[k := v]> values).
Definition has (k : string) : St.stateful (gmap string json) bool :=
  fun values => (values, Ok (bool_decide (is_Some (values !! k)))).

(** [temperatures["preferred"][device_units]]. *)
Definition preferred (temperatures : gmap string (gmap string pynum))
    (device_units : json) : result pynum :=
  t ← dict_get temperatures "preferred"; dict_get_json t device_units.

(** [update_values(values, temperatures, device_units, mode, setpoint)],
    as a computation on the dictionary [values].  It answers [true] where
    the code executes [return values] and [false] where it ends in
    [return None]; [now] is what [datetime.datetime.now()] returns. *)
Definition update_values
    (temperatures : gmap string (gmap string pynum)) (device_units : json)
    (mode setpoint : string) (now : datetime)
  : St.stateful (gmap string json) bool :=
  (cur <- load "mode";;
   changed1 <- (if negb (eq_str cur mode)
                then store "mode" (JStr mode);; St.ret true
                else St.ret false);;
   present <- has "heatCoolMode";;
   changed2 <- (if present then
                  hc <- load "heatCoolMode";;
                  if negb (eq_str hc mode)
                  then store "heatCoolMode" (JStr mode);; St.ret true
                  else St.ret changed1
                else St.ret changed1);;
   old <- load setpoint;;
   target <- St.pure (preferred temperatures device_units);;
   values_changed <- (if negb (eq_num old target)
                      then store setpoint (JNum target);; St.ret true
                      else St.ret changed2);;
   if values_changed then
     status <- load "thermostatSetpointStatus";;
     reschedule <- (if negb (eq_str status "HoldUntil") then St.ret true
                    else
                      next <- load "nextPeriodTime";;
                      ahead <- St.pure (is_x_minutes_in_future next 15 now);;
                      St.ret (negb ahead));;
     if reschedule then
       store "thermostatSetpointStatus" (JStr "HoldUntil");;
       t <- St.pure (delta ← timedelta_minutes 15;
                     later ← Time.add now delta;
                     round_up_to_quarter_hour later);;
       store "nextPeriodTime" (JStr (strftime_HMS t));;
       St.ret true
     else St.ret false
   else St.ret false)%st.

Definition update_heat_values temperatures device_units now :=
  update_values temperatures device_units "Heat" "heatSetpoint" now.

Definition update_cool_values temperatures device_units now :=
  update_values temperatures device_units "Cool" "coolSetpoint" now.

(** [update_values] as the caller sees it: [values] is a reference to a
    dictionary object in the store, the call works on that object, and
    what it returns is that reference or [None]. *)
Definition call_update_values
    (temperatures : gmap string (gmap string pynum)) (device_units : json)
    (mode setpoint : string) (now : datetime) (values : positive)
  : St.stateful (gmap positive (gmap string json)) (option positive) :=
  fun heap =>
    match heap !! values with
    | Some d =>
        let '(d', r) := update_values temperatures device_units mode setpoint now d in
        (<[values := d']> heap, (fun b : bool => if b then Some values else None) <$> r)
    | None => (heap, Err TypeError)
    end.

(** *** The configuration *)

(** The preferences of one device: [temperatures] maps "lowest",
    "preferred" and "highest" to a dictionary from unit to number. *)
Record device_prefs := mk_device_prefs {
  temperatures : gmap string (gmap string pynum)
}.

(** The configuration file after [load_config]; [location_prefs] keeps
    the order of the file, in which the loops walk it. *)
Record config := mk_config {
  redirect_port : Z;
  client_id : string;
  client_secret : string;
  credentials_fpath : string;
  location_prefs : list (string * list (string * device_prefs))
}.

(** The credential file after [load_credentials]. *)
Record credentials := mk_credentials {
  access_token : string;
  refresh_token : string
}.

(** [d.get(k)] on a dictionary kept in file order. *)
Fixpoint assoc {A} (k : string) (d : list (string * A)) : option A :=
  match d with
  | [] => None
  | (k', v) :: r => if String.eqb k' k then Some v else assoc k r
  end.

(** Lookup with a JSON value as key ([dev_id in location_prefs[loc_id]]):
    a [list] or [dict] is unhashable. *)
Definition assoc_json {A} (k : json) (d : list (string * A)) : result (option A) :=
  match k with
  | JStr s => Ok (assoc s d)
  | JList _ | JObj _ => Err TypeError
  | _ => Ok None
  end.

(** The two conversions of [add_missing_temperature_units]. *)
Definition fahrenheit_of (celsius : pynum) : result pynum :=
  x ← py_mul celsius (PyInt 9);
  y ← py_truediv x (PyInt 5);
  fahrenheit ← py_add y (PyInt 32);
  r ← py_round fahrenheit;
  Ok (PyInt r).

Definition celsius_of (fahrenheit : pynum) : result pynum :=
  x ← py_sub fahrenheit (PyInt 32);
  y ← py_mul x (PyInt 5);
  celsius ← py_truediv y (PyInt 9);
  d ← py_mul (PyInt 2) celsius;
  r ← py_round d;
  py_truediv (PyInt r) (PyInt 2).

(** The body of the innermost loop, on one setting. *)
Definition fill_setting (s : gmap string pynum) : result (gmap string pynum) :=
  s1 ← (if bool_decide (is_Some (s !! "Fahrenheit")) then Ok s
        else
          celsius ← dict_get s "Celsius";
          fahrenheit ← fahrenheit_of celsius;
          Ok (<["Fahrenheit" := fahrenheit]> s));
  (if bool_decide (is_Some (s1 !! "Celsius")) then Ok s1
   else
     fahrenheit ← dict_get s1 "Fahrenheit";
     celsius ← celsius_of fahrenheit;
     Ok (<["Celsius" := celsius]> s1)).

Fixpoint fill_settings (settings : list string)
    (t : gmap string (gmap string pynum))
  : result (gmap string (gmap string pynum)) :=
  match settings with
  | [] => Ok t
  | setting :: rest =>
      s ← dict_get t setting;
      s' ← fill_setting s;
      fill_settings rest (<[setting := s']> t)
  end.

Definition fill_device (device : device_prefs) : result device_prefs :=
  t ← fill_settings ["lowest"; "preferred"; "highest"] (temperatures device);
  Ok (mk_device_prefs t).

Definition fill_location (loc : list (string * device_prefs))
  : result (list (string * device_prefs)) :=
  mapM (fun entry => device ← fill_device (snd entry); Ok (fst entry, device)) loc.

(** [add_missing_temperature_units(config)]. *)
Definition add_missing_temperature_units (cfg : config) : result config :=
  prefs ← mapM (fun entry => loc ← fill_location (snd entry); Ok (fst entry, loc))
               (location_prefs cfg);
  Ok (mk_config (redirect_port cfg) (client_id cfg) (client_secret cfg)
        (credentials_fpath cfg) prefs).

(** *** [main] *)

(** How a piece of [main] ends: it falls through to the next statement,
    or executes [return code]. *)
Inductive flow :=
  | Next
  | Return (code : Z).

(** A [for] loop whose body may return from the function or raise. *)
Fixpoint for_each {S A} (body : A -> St.stateful S flow) (items : list A)
  : St.stateful S flow :=
  match items with
  | [] => St.ret Next
  | x :: rest =>
      (f <- body x;;
       match f with
       | Next => for_each body rest
       | Return code => St.ret (Return code)
       end)%st
  end.

(** [str(v)]. *)
Definition str (w : environment) (v : json) : string :=
  match v with
  | JStr s => s
  | JNum (PyInt z) => NilZero.string_of_int (Z.to_int z)
  | JBool true => "True"
  | JBool false => "False"
  | JNull => "None"
  | _ => repr w v
  end.

(** The two closures of [main]; both read [creds["access_token"]]. *)
Definition get_locs_and_devs (w : environment) (cfg : config) (creds : credentials) :=
  get_locations_and_devices w (client_id cfg) (access_token creds).

Definition post_dev_settings (w : environment) (cfg : config) (creds : credentials)
    (loc_id : string) (dev_id values : json) :=
  post_device_settings w (client_id cfg) (access_token creds) loc_id dev_id values.

(** Lines 152-168: fetch the locations, refreshing the token and trying
    once more when the first attempt fails.  [inl code] is an early
    [return code], [inr] the location response. *)
Definition fetch (w : environment) (cfg : config) (creds : credentials)
  : St.stateful (list event) (Z + json) :=
  (r <- get_locs_and_devs w cfg creds;;
   if negb (fst r) then
     r2 <- refresh_access_token w (client_id cfg) (client_secret cfg)
             (refresh_token creds);;
     if negb (fst r2) then St.ret (inl 1)
     else
       r3 <- get_locs_and_devs w cfg creds;;
       if negb (fst r3) then St.ret (inl 2)
       else St.ret (inr (snd r3))
   else St.ret (inr (snd r)))%st.

(** Lines 200-227: push the new values, with the same policy. *)
Definition push (w : environment) (cfg : config) (creds : credentials)
    (loc_id : string) (dev_id values : json)
  : St.stateful (list event) flow :=
  (r <- post_dev_settings w cfg creds loc_id dev_id values;;
   if negb (fst r) then
     r2 <- refresh_access_token w (client_id cfg) (client_secret cfg)
             (refresh_token creds);;
     if negb (fst r2) then St.ret (Return 3)
     else
       r3 <- post_dev_settings w cfg creds loc_id dev_id values;;
       if negb (fst r3) then St.ret (Return 4)
       else St.ret Next
   else St.ret Next)%st.

(** A call [update_..._values(values, ...)] from [main], where [values]
    is whatever [device["changeableValues"]] holds: the first subscript
    of [update_values] raises [TypeError] unless it is a dictionary.  The
    result is the new binding of [values]. *)
Definition updated (update : St.stateful (gmap string json) bool) (values : json)
  : result (option json) :=
  match values with
  | JObj d =>
      match update d with
      | (d', Ok true) => Ok (Some (JObj d'))
      | (_, Ok false) => Ok None
      | (_, Err e) => Err e
      end
  | _ => Err TypeError
  end.

(** Lines 185-198: the new binding of [values] for one device. *)
Definition new_values (now : datetime) (device : json) (prefs : device_prefs)
  : result (option json) :=
  values ← getitem device "changeableValues";
  units ← getitem device "units";
  indoor ← getitem device "indoorTemperature";
  lowest ← (t ← dict_get (temperatures prefs) "lowest"; dict_get_json t units);
  below ← lt_num indoor lowest;
  if below : bool then
    updated (update_heat_values (temperatures prefs) units now) values
  else
    indoor ← getitem device "indoorTemperature";
    highest ← (t ← dict_get (temperatures prefs) "highest"; dict_get_json t units);
    above ← gt_num indoor highest;
    if above : bool then
      updated (update_cool_values (temperatures prefs) units now) values
    else Ok None.

(** Lines 178-227: the body of the loop over the devices of a location. *)
Definition process_device (w : environment) (cfg : config) (creds : credentials)
    (loc_id : string) (loc_prefs : list (string * device_prefs)) (device : json)
  : St.stateful (list event) flow :=
  (dev_id <- St.pure (getitem device "deviceID");;
   found <- St.pure (assoc_json dev_id loc_prefs);;
   match found with
   | None => St.ret Next
   | Some prefs =>
       h <- St.get;;
       values <- St.pure (new_values (clock w h) device prefs);;
       match values with
       | None => St.ret Next
       | Some v => push w cfg creds loc_id dev_id v
       end
   end)%st.

(** Lines 171-227: the body of the loop over the locations. *)
Definition process_location (w : environment) (cfg : config) (creds : credentials)
    (location : json)
  : St.stateful (list event) flow :=
  (id <- St.pure (getitem location "locationID");;
   let loc_id := str w id in
   match assoc loc_id (location_prefs cfg) with
   | None => St.ret Next
   | Some loc_prefs =>
       devices <- St.pure (d ← getitem location "devices"; iter d);;
       for_each (process_device w cfg creds loc_id loc_prefs) devices
   end)%st.

(** Lines 170-227: what stands inside [try]. *)
Definition try_body (w : environment) (cfg : config) (creds : credentials)
    (location_response : json)
  : St.stateful (list event) flow :=
  (locations <- St.pure (iter location_response);;
   for_each (process_location w cfg creds) locations)%st.

(** [main], from the loaded configuration and credentials on.  The
    result is the exit code, or the exception that leaves [main]. *)
Definition main (w : environment) (cfg0 : config) (creds : credentials)
  : St.stateful (list event) Z :=
  fun h0 =>
    match add_missing_temperature_units cfg0 with
    | Err e => (h0, Err e)
    | Ok cfg =>
        match fetch w cfg creds h0 with
        | (h1, Err e) => (h1, Err e)
        | (h1, Ok (inl code)) => (h1, Ok code)
        | (h1, Ok (inr location_response)) =>
            match try_body w cfg creds location_response h1 with
            | (h2, Ok (Return code)) => (h2, Ok code)
            | (h2, Ok Next) => (h2, Ok 0)
            | (h2, Err e) => (h2, Ok 0)
            end
        end
    end.

End Controller.
Import Controller.

(* ===================================================================== *)
(** ** The vocabulary of the specification *)
(* ===================================================================== *)

Module Spec.

(** *** Quarter hours *)

(** A timestamp on :00, :15, :30 or :45 with no seconds and no
    microseconds. *)
Definition aligned (dt : datetime) : Prop :=
  minute dt mod 15 = 0 /\ second dt = 0 /\ microsecond dt = 0.

(** A quarter of an hour in microseconds. *)
Definition quarter : Z := 900 * us_per_second.

(** There is a quarter hour after [dt] that a [datetime] can hold: [dt]
    is not within the last quarter hour of 9999-12-31. *)
Definition has_next_quarter (dt : datetime) : Prop :=
  ordinal dt < MAXORDINAL \/ hour dt < 23 \/ minute dt < 45.

(** *** The setpoint fields *)

(** No field is dirty: [mode], [heatCoolMode] when present, and the
    setpoint already have their target values. *)
Definition settled (temperatures : gmap string (gmap string pynum))
    (device_units : json) (mode setpoint : string) (values : gmap string json)
  : Prop :=
  (exists cur, values !! "mode" = Some cur /\ eq_str cur mode = true) /\
  (forall hc, values !! "heatCoolMode" = Some hc -> eq_str hc mode = true) /\
  (exists old target, values !! setpoint = Some old /\
     preferred temperatures device_units = Ok target /\
     eq_num old target = true).

(** The two setpoint fields of [changeableValues]. *)
Definition is_setpoint_field (setpoint : string) : Prop :=
  setpoint = "heatSetpoint" \/ setpoint = "coolSetpoint".

(** *** Temperature units *)

Definition settings : list string := ["lowest"; "preferred"; "highest"].

(** What normalisation makes of one setting [s]: the unit that is missing
    is computed from the one that is there, Fahrenheit rounded to an
    [int], Celsius to a [float] out of a division by two; a setting that
    has both units is left alone. *)
Definition backfilled (s s' : gmap string pynum) : Prop :=
  match s !! "Fahrenheit", s !! "Celsius" with
  | None, Some c =>
      exists n, (x ← py_mul c (PyInt 9); y ← py_truediv x (PyInt 5);
                 z ← py_add y (PyInt 32); py_round z) = Ok n /\
                s' = <["Fahrenheit" := PyInt n]> s
  | Some f, None =>
      exists r, (x ← py_sub f (PyInt 32); y ← py_mul x (PyInt 5);
                 z ← py_truediv y (PyInt 9); d ← py_mul (PyInt 2) z;
                 py_round d) = Ok r /\
                exists h, py_truediv (PyInt r) (PyInt 2) = Ok (PyFloat h) /\
                          s' = <["Celsius" := PyFloat h]> s
  | Some _, Some _ => s' = s
  | None, None => False
  end.






(** The [n] integers from [lo] on. *)
Definition range (lo : Z) (n : nat) : list Z :=
  map (fun i => lo + Z.of_nat i) (seq 0 n).

(** The floats 20.0 and 21.0. *)
Definition twenty : spec_float := S754_finite false 5629499534213120 (-48).
Definition twenty_one : spec_float := S754_finite false 5910974510923776 (-48).

(** *** The redirect listener *)



End Spec.
Import Spec.

(* ===================================================================== *)
(** ** The retry policy *)
(* ===================================================================== *)

Module Policy.

(** The specification reads a reply by its status alone: any status
    other than 200 is a failure of the operation. *)
Definition refused (rp : reply) : Prop :=
  match rp with
  | Response st _ => st <> 200
  | Raised _ => False
  end.

(** The endpoint functions evaluate [response.json()] on every reply,
    whatever its status.  So the amended policy reads a reply as they do:
    with a body that is JSON the call has succeeded on status 200 and
    failed on any other status; a reply whose body is not JSON breaks the
    call like an exception of the HTTP client, whatever its status. *)
Inductive verdict :=
  | Succeeded (body : json)
  | Failed
  | Broke (e : exn).

Definition judge (rp : reply) : verdict :=
  match rp with
  | Response st (Ok body) => if st =? 200 then Succeeded body else Failed
  | Response _ (Err e) => Broke e
  | Raised e => Broke e
  end.


(** How one operation ends under the policy. *)
Inductive ending :=
  | Done (body : json)
  | RefreshFailed
  | RetryFailed
  | Aborted (e : exn).

(** The calls one operation [op] may leave behind: the operation; or the
    operation, one refresh, and nothing more when the refresh fails; or
    the operation, one refresh and the operation once more.  A call that
    breaks ends the operation on the spot. *)
Inductive attempt (op refresh : request) : list event -> ending -> Prop :=
  | attempt_first rp body :
      judge rp = Succeeded body ->
      attempt op refresh [Called op rp] (Done body)
  | attempt_refresh_failed rp1 rp2 :
      judge rp1 = Failed -> judge rp2 = Failed ->
      attempt op refresh [Called op rp1; Called refresh rp2] RefreshFailed
  | attempt_retry_failed rp1 rp2 rp3 token :
      judge rp1 = Failed -> judge rp2 = Succeeded token -> judge rp3 = Failed ->
      attempt op refresh [Called op rp1; Called refresh rp2; Called op rp3] RetryFailed
  | attempt_retry rp1 rp2 rp3 token body :
      judge rp1 = Failed -> judge rp2 = Succeeded token ->
      judge rp3 = Succeeded body ->
      attempt op refresh [Called op rp1; Called refresh rp2; Called op rp3] (Done body)
  | attempt_broke rp e :
      judge rp = Broke e ->
      attempt op refresh [Called op rp] (Aborted e)
  | attempt_refresh_broke rp1 rp2 e :
      judge rp1 = Failed -> judge rp2 = Broke e ->
      attempt op refresh [Called op rp1; Called refresh rp2] (Aborted e)
  | attempt_retry_broke rp1 rp2 rp3 token e :
      judge rp1 = Failed -> judge rp2 = Succeeded token -> judge rp3 = Broke e ->
      attempt op refresh [Called op rp1; Called refresh rp2; Called op rp3] (Aborted e).

(** The three requests of a run, for a configuration and the credentials
    loaded at its start. *)
Definition fetch_request (cfg : config) (creds : credentials) : request :=
  GetLocations (client_id cfg) (access_token creds).

Definition refresh_request (cfg : config) (creds : credentials) : request :=
  PostToken default_token_url (client_id cfg) (client_secret cfg)
    (RefreshToken (refresh_token creds)).

Definition is_push (cfg : config) (creds : credentials) (rq : request) : Prop :=
  exists loc_id dev_id values,
    rq = PostDeviceSettings (client_id cfg) (access_token creds) loc_id dev_id values.

(** How the walk over locations and devices ends. *)
Inductive loop_end :=
  | Completed
  | Stopped (code : Z)
  | Caught (e : exn).

(** The pushes of a run: each one an [attempt]; the walk goes on after a
    push that ends well, stops with 3 or 4 after one that does not, and
    ends where an exception is raised. *)
Inductive pushes (cfg : config) (creds : credentials)
  : list event -> loop_end -> Prop :=
  | pushes_done : pushes cfg creds [] Completed
  | pushes_raise e : pushes cfg creds [] (Caught e)
  | pushes_next rq t body t' o :
      is_push cfg creds rq ->
      attempt rq (refresh_request cfg creds) t (Done body) ->
      pushes cfg creds t' o ->
      pushes cfg creds (t ++ t') o
  | pushes_refresh_failed rq t :
      is_push cfg creds rq ->
      attempt rq (refresh_request cfg creds) t RefreshFailed ->
      pushes cfg creds t (Stopped 3)
  | pushes_retry_failed rq t :
      is_push cfg creds rq ->
      attempt rq (refresh_request cfg creds) t RetryFailed ->
      pushes cfg creds t (Stopped 4)
  | pushes_broke rq t e :
      is_push cfg creds rq ->
      attempt rq (refresh_request cfg creds) t (Aborted e) ->
      pushes cfg creds t (Caught e).

(** A whole run: the calls it makes and the exit code it returns, or the
    exception that leaves it when a call of the fetch breaks (the fetch
    stands outside [try]; what breaks in the walk is caught there, and the
    run returns 0). *)
Inductive run (cfg : config) (creds : credentials)
  : list event -> result Z -> Prop :=
  | run_fetch_refresh_failed t :
      attempt (fetch_request cfg creds) (refresh_request cfg creds) t RefreshFailed ->
      run cfg creds t (Ok 1)
  | run_fetch_retry_failed t :
      attempt (fetch_request cfg creds) (refresh_request cfg creds) t RetryFailed ->
      run cfg creds t (Ok 2)
  | run_fetch_broke t e :
      attempt (fetch_request cfg creds) (refresh_request cfg creds) t (Aborted e) ->
      run cfg creds t (Err e)
  | run_success t body t' :
      attempt (fetch_request cfg creds) (refresh_request cfg creds) t (Done body) ->
      pushes cfg creds t' Completed ->
      run cfg creds (t ++ t') (Ok 0)
  | run_push_failed t body t' code :
      attempt (fetch_request cfg creds) (refresh_request cfg creds) t (Done body) ->
      pushes cfg creds t' (Stopped code) ->
      run cfg creds (t ++ t') (Ok code)
  | run_caught t body t' e :
      attempt (fetch_request cfg creds) (refresh_request cfg creds) t (Done body) ->
      pushes cfg creds t' (Caught e) ->
      run cfg creds (t ++ t') (Ok 0).

(** The events [t] are what a run that starts after [h] records when it
    talks to [w]: calls only, each with the reply of the environment. *)
Fixpoint faithful (w : environment) (h : list event) (t : list event) : Prop :=
  match t with
  | [] => True
  | Called rq rp :: t' =>
      rp = api w h rq /\ faithful w (h ++ [Called rq rp]) t'
  | Saved _ _ _ _ :: _ => False
  end.

(** The event is a call, and a call to the API carries [token]. *)
Definition carries (token : string) (ev : event) : Prop :=
  match ev with
  | Called (GetLocations _ tok) _ => tok = token
  | Called (PostDeviceSettings _ tok _ _ _) _ => tok = token
  | Called (PostToken _ _ _ _) _ => True
  | Saved _ _ _ _ => False
  end.


(** What the code around an operation returns, by how the operation
    ends. *)
Definition finish {A} (k : json -> A) (k1 k2 : A) (e : ending) : result A :=
  match e with
  | Done body => Ok (k body)
  | RefreshFailed => Ok k1
  | RetryFailed => Ok k2
  | Aborted e => Err e
  end.

(** What a piece of the loop hands on, by how the walk ends there. *)
Definition flow_of (o : loop_end) : result flow :=
  match o with
  | Completed => Ok Next
  | Stopped code => Ok (Return code)
  | Caught e => Err e
  end.

(** A piece of the loop run after [h] leaves [p]: it recorded pushes
    that follow the policy. *)
Definition loop_spec (w : environment) (cfg : config) (creds : credentials)
    (h : list event) (p : list event * result flow) : Prop :=
  exists t o, p = (h ++ t, flow_of o) /\ faithful w h t /\ pushes cfg creds t o.

End Policy.
Import Policy.

(* ===================================================================== *)
(** ** [update_values] in two parts *)
(* ===================================================================== *)

Module Parts.

(** The two halves of [update_values]: lines 42-54 set the fields and
    tell whether one changed, lines 56-68 see to the hold. *)
Definition set_fields (temperatures : gmap string (gmap string pynum))
    (device_units : json) (mode setpoint : string)
  : St.stateful (gmap string json) bool :=
  (cur <- load "mode";;
   changed1 <- (if negb (eq_str cur mode)
                then store "mode" (JStr mode);; St.ret true
                else St.ret false);;
   present <- has "heatCoolMode";;
   changed2 <- (if present then
                  hc <- load "heatCoolMode";;
                  if negb (eq_str hc mode)
                  then store "heatCoolMode" (JStr mode);; St.ret true
                  else St.ret changed1
                else St.ret changed1);;
   old <- load setpoint;;
   target <- St.pure (preferred temperatures device_units);;
   if negb (eq_num old target)
   then store setpoint (JNum target);; St.ret true
   else St.ret changed2)%st.

Definition hold (now : datetime) (values_changed : bool)
  : St.stateful (gmap string json) bool :=
  (if values_changed then
     status <- load "thermostatSetpointStatus";;
     reschedule <- (if negb (eq_str status "HoldUntil") then St.ret true
                    else
                      next <- load "nextPeriodTime";;
                      ahead <- St.pure (is_x_minutes_in_future next 15 now);;
                      St.ret (negb ahead));;
     if reschedule then
       store "thermostatSetpointStatus" (JStr "HoldUntil");;
       t <- St.pure (delta ← timedelta_minutes 15;
                     later ← Time.add now delta;
                     round_up_to_quarter_hour later);;
       store "nextPeriodTime" (JStr (strftime_HMS t));;
       St.ret true
     else St.ret false
   else St.ret false)%st.

End Parts.
Import Parts.

(* ===================================================================== *)
(** ** Concrete devices, configurations and environments *)
(* ===================================================================== *)

Module Examples.

(** A time of day on some day (ordinal 739000 is in the year 2024). *)
Definition on_day (h m : Z) : datetime := mk_datetime 739000 h m 0 0.

(** 23:52:00 on the last day a [datetime] can hold. *)
Definition new_year_eve_9999 : datetime := mk_datetime MAXORDINAL 23 52 0 0.

(** Thresholds with a preferred temperature in Fahrenheit only. *)
Definition fahrenheit (n : pynum) : gmap string (gmap string pynum) :=
  {[ "preferred" := {[ "Fahrenheit" := n ]} ]}.

(** The [changeableValues] of a device. *)
Definition device_values (mode : string) (heat : Z) (status next : string)
  : gmap string json :=
  {[ "mode" := JStr mode;
     "heatSetpoint" := JNum (PyInt heat);
     "coolSetpoint" := JNum (PyInt 75);
     "thermostatSetpointStatus" := JStr status;
     "nextPeriodTime" := JStr next ]}.

(** The same with a heat setpoint that is not a number. *)
Definition nan_values : gmap string json :=
  <["heatSetpoint" := JNum (PyFloat S754_nan)]>
    (device_values "Heat" 60 "HoldUntil" "14:00:00").

(** A store with one dictionary object, at address 1. *)
Definition one_device (d : gmap string json) : gmap positive (gmap string json) :=
  {[ 1%positive := d ]}.

(** A setting given in one unit. *)
Definition only (unit : string) (n : Z) : gmap string pynum := {[ unit := PyInt n ]}.

Definition mixed_units : device_prefs :=
  mk_device_prefs
    {[ "lowest" := only "Celsius" 20;
       "preferred" := only "Fahrenheit" 68;
       "highest" := only "Fahrenheit" 70 ]}.

Definition example_config : config :=
  mk_config 8080 "id" "secret" "creds.json" [("1234", [("LCC-1", mixed_units)])].

Definition example_config_filled : config :=
  mk_config 8080 "id" "secret" "creds.json"
    [("1234", [("LCC-1", mk_device_prefs
        {[ "lowest" := <["Fahrenheit" := PyInt 68]> (only "Celsius" 20);
           "preferred" := <["Celsius" := PyFloat twenty]> (only "Fahrenheit" 68);
           "highest" := <["Celsius" := PyFloat twenty_one]> (only "Fahrenheit" 70) ]})])].

(** A configuration that has both units everywhere, for two devices. *)
Definition comfort : device_prefs :=
  mk_device_prefs
    {[ "lowest" := {[ "Fahrenheit" := PyInt 66; "Celsius" := PyInt 19 ]};
       "preferred" := {[ "Fahrenheit" := PyInt 68; "Celsius" := PyInt 20 ]};
       "highest" := {[ "Fahrenheit" := PyInt 75; "Celsius" := PyInt 24 ]} ]}.

Definition two_devices : config :=
  mk_config 8080 "id" "secret" "creds.json"
    [("1234", [("LCC-1", comfort); ("LCC-2", comfort)])].

(** What the token endpoint grants. *)
Definition token_set : json :=
  JObj {[ "access_token" := JStr "new-access"; "refresh_token" := JStr "new-refresh" ]}.

Definition unauthorized : reply := Response 401 (Ok (JObj ∅)).

(** The credentials a run starts with. *)
Definition stale : credentials := mk_credentials "old-access" "old-refresh".

(** An environment whose token endpoint grants every request. *)
Definition granting : environment :=
  {| api := fun _ _ => Response 200 (Ok token_set);
     clock := fun _ => on_day 13 40;
     repr := fun _ => EmptyString |}.

(** The access token "old-access" has expired; the token endpoint grants
    "new-access", which the API accepts. *)
Definition expired : environment :=
  {| api := fun _ rq =>
       match rq with
       | PostToken _ _ _ _ => Response 200 (Ok token_set)
       | GetLocations _ tok =>
           if String.eqb tok "new-access" then Response 200 (Ok (JList []))
           else unauthorized
       | PostDeviceSettings _ tok _ _ _ =>
           if String.eqb tok "new-access" then Response 200 (Ok (JObj ∅))
           else unauthorized
       end;
     clock := fun _ => on_day 13 40;
     repr := fun _ => EmptyString |}.

(** A device that is colder than every configuration above allows. *)
Definition cold_device (id : string) : json :=
  JObj {[ "deviceID" := JStr id;
          "units" := JStr "Fahrenheit";
          "indoorTemperature" := JNum (PyInt 60);
          "changeableValues" := JObj (device_values "Cool" 60 "NoHold" "00:00:00") ]}.

Definition home : json :=
  JObj {[ "locationID" := JNum (PyInt 1234);
          "devices" := JList [cold_device "LCC-1"; cold_device "LCC-2"] ]}.

(** The API lists one location with two cold devices and refuses the
    push; the token endpoint cannot be reached. *)
Definition flaky : environment :=
  {| api := fun _ rq =>
       match rq with
       | PostToken _ _ _ _ => Raised RequestException
       | GetLocations _ _ => Response 200 (Ok (JList [home]))
       | PostDeviceSettings _ _ _ _ _ => unauthorized
       end;
     clock := fun _ => on_day 13 40;
     repr := fun _ => EmptyString |}.

Definition flaky_history : list event :=
  [ Called (GetLocations "id" "old-access") (Response 200 (Ok (JList [home])));
    Called (PostDeviceSettings "id" "old-access" "1234" (JStr "LCC-1")
              (JObj (device_values "Heat" 68 "HoldUntil" "14:00:00")))
           unauthorized;
    Called (PostToken default_token_url "id" "secret" (RefreshToken "old-refresh"))
           (Raised RequestException) ].












End Examples.
Import Examples.

(* ===================================================================== *)
(** ** The credential file *)
(* ===================================================================== *)

Module CredentialFile.

(** What the functions that work on files raise: an exception of the
    kinds above, a failed [assert], or [FileNotFoundError] from [open]. *)
Inductive failure :=
  | Raises (e : exn)
  | AssertionError (message : string)
  | FileNotFoundError (fpath : string).

Inductive outcome (A : Type) :=
  | Returns (a : A)
  | Fails (f : failure).
Global Arguments Returns {A} a.
Global Arguments Fails {A} f.

Global Instance outcome_ret : MRet outcome := fun A a => Returns a.
Global Instance outcome_bind : MBind outcome := fun A B f m =>
  match m with
  | Returns a => f a
  | Fails x => Fails x
  end.

(** The files that hold a JSON document, by path.  [json.dump] writes a
    document and [json.load] reads it back as it was; a path that is not
    there is a file that does not exist. *)
Definition io (A : Type) : Type := gmap string json -> gmap string json * outcome A.

(** [k in v] for a [str] [k]: a key of a [dict], an item of a [list], a
    substring of a [str]; nothing else can be searched. *)
Definition contains (v : json) (k : string) : outcome bool :=
  match v with
  | JObj m => Returns (bool_decide (is_Some (m !! k)))
  | JList l => Returns (existsb (fun x => eq_str x k) l)
  | JStr s => Returns (match String.index 0 k s with Some _ => true | None => false end)
  | _ => Fails (Raises TypeError)
  end.

(** [assert k in v, message]. *)
Definition assert_in (k : string) (v : json) (message : string) : outcome unit :=
  found ← contains v k;
  if found : bool then Returns tt else Fails (AssertionError message).

(** [v[k] = x] for a [str] [k]: only a [dict] takes it. *)
Definition setitem (v : json) (k : string) (x : json) : outcome json :=
  match v with
  | JObj m => Returns (JObj (<[k := x]> m))
  | _ => Fails (Raises TypeError)
  end.

(** [create_empty_credentials(fpath)]. *)
Definition empty_fields : gmap string json :=
  {[ "access_token" := JStr EmptyString;
     "refresh_token" := JStr EmptyString;
     "expiration_time" := JStr EmptyString ]}.

Definition empty_credentials : json := JObj empty_fields.

Definition create_empty_credentials (fpath : string) : io unit :=
  fun files => (<[fpath := empty_credentials]> files, Returns tt).

(** [load_credentials(fpath, check_well_formed)]. *)
Definition load_credentials (fpath : string) (check_well_formed : bool) : io json :=
  fun files =>
    match files !! fpath with
    | None => (files, Fails (FileNotFoundError fpath))
    | Some creds =>
        (files,
         if check_well_formed then
           _ ← assert_in "access_token" creds "Missing access_token in credentials";
           _ ← assert_in "refresh_token" creds "Missing refresh_token in credentials";
           _ ← assert_in "expiration_time" creds "Missing expiration_time in credentials";
           Returns creds
         else Returns creds)
    end.

(** [if x is not None: creds[k] = x]. *)
Definition set_if_given (k : string) (x : json) (creds : json) : outcome json :=
  match x with
  | JNull => Returns creds
  | _ => setitem creds k x
  end.

(** [update_credentials(fpath, access_token, refresh_token,
    expiration_time, check_well_formed)]: an argument that is left out is
    [None], as one that is passed as [None]; the file is opened for
    writing only after the three assignments. *)
Definition update_credentials (fpath : string)
    (access_token refresh_token expiration_time : json)
    (check_well_formed : bool) : io unit :=
  fun files =>
    match load_credentials fpath check_well_formed files with
    | (files, Fails f) => (files, Fails f)
    | (files, Returns creds) =>
        match (creds ← set_if_given "access_token" access_token creds;
               creds ← set_if_given "refresh_token" refresh_token creds;
               set_if_given "expiration_time" expiration_time creds) with
        | Fails f => (files, Fails f)
        | Returns creds => (<[fpath := creds]> files, Returns tt)
        end
    end.

(** The same on the fields of a [dict]. *)
Definition assign (k : string) (x : json) (fields : gmap string json)
  : gmap string json :=
  match x with
  | JNull => fields
  | _ => <[k := x]> fields
  end.

(** The field [k] after an update that was given [x] for it. *)
Definition updated_field (x : json) (old : option json) : option json :=
  match x with
  | JNull => old
  | _ => Some x
  end.

(** What two updates in a row give for one argument: the later value
    unless it is [None]. *)
Definition later (second first : json) : json :=
  match second with
  | JNull => first
  | _ => second
  end.

End CredentialFile.

(* ===================================================================== *)
(** ** The configuration file *)
(* ===================================================================== *)

Module ConfigFile.
Import CredentialFile.

Definition lift {A} (r : result A) : outcome A :=
  match r with
  | Ok a => Returns a
  | Err e => Fails (Raises e)
  end.

(** [l[i]] on a sequence: a negative index counts from the end. *)
Definition index {A} (l : list A) (i : Z) : outcome A :=
  let n := Z.of_nat (length l) in
  let j := if i <? 0 then i + n else i in
  if (0 <=? j) && (j <? n) then
    match l !! Z.to_nat j with
    | Some x => Returns x
    | None => Fails (Raises IndexError)
    end
  else Fails (Raises IndexError).

(** [v[k]] where the subscript is itself a value: a key of a [dict], an
    [int] (or [bool]) position in a [list] or a [str]. *)
Definition subscript (v k : json) : outcome json :=
  match v with
  | JObj m => lift (dict_get_json m k)
  | JList l =>
      match k with
      | JNum (PyInt i) => index l i
      | JBool b => index l (if b then 1 else 0)
      | _ => Fails (Raises TypeError)
      end
  | JStr s =>
      match k with
      | JNum (PyInt i) => index (chars s) i
      | JBool b => index (chars s) (if b then 1 else 0)
      | _ => Fails (Raises TypeError)
      end
  | _ => Fails (Raises TypeError)
  end.

(** [isinstance(v, (int, float))]; a [bool] is an [int]. *)
Definition is_number (v : json) : bool :=
  match v with
  | JNum _ | JBool _ => true
  | _ => false
  end.

(** [assert cond, message]. *)
Definition assert_that (cond : bool) (message : string) : outcome unit :=
  if cond then Returns tt else Fails (AssertionError message).

(** A [for] loop of checks. *)
Fixpoint for_all {A} (body : A -> outcome unit) (items : list A) : outcome unit :=
  match items with
  | [] => Returns tt
  | x :: rest => _ ← body x; for_all body rest
  end.

(** [device["temperatures"][setting]]. *)
Definition setting_of (device : json) (setting : string) : outcome json :=
  lift (t ← getitem device "temperatures"; getitem t setting).

(** Lines 106-110, for one unit. *)
Definition check_unit (w : environment) (dev_id device : json) (setting name : string)
  : outcome unit :=
  s ← setting_of device setting;
  present ← contains s name;
  if present : bool then
    s ← setting_of device setting;
    x ← lift (getitem s name);
    assert_that (is_number x)
      (String.append "Invalid temperature value in device " (str w dev_id))
  else Returns tt.

(** Lines 103-110: the body of the loop over the three settings. *)
Definition check_setting (w : environment) (dev_id device : json) (setting : string)
  : outcome unit :=
  temps ← lift (getitem device "temperatures");
  found ← contains temps setting;
  _ ← assert_that found
        (String.append "Missing "
           (String.append setting
              (String.append " temperature in device " (str w dev_id))));
  s ← setting_of device setting;
  fahrenheit ← contains s "Fahrenheit";
  either ← (if fahrenheit : bool then Returns true
            else s ← setting_of device setting; contains s "Celsius");
  _ ← assert_that either
        (String.append "Missing temperature unit in device " (str w dev_id));
  _ ← check_unit w dev_id device setting "Fahrenheit";
  check_unit w dev_id device setting "Celsius".

(** Lines 99-110: the body of the loop over the devices of a location. *)
Definition check_device (w : environment) (loc dev_id : json) : outcome unit :=
  device ← subscript loc dev_id;
  found ← contains device "temperatures";
  _ ← assert_that found
        (String.append "Missing temperatures in device " (str w dev_id));
  for_all (check_setting w dev_id device) ["lowest"; "preferred"; "highest"].

(** Lines 96-110: the body of the loop over the locations. *)
Definition check_location (w : environment) (config loc_id : json) : outcome unit :=
  prefs ← lift (getitem config "location_prefs");
  loc ← subscript prefs loc_id;
  devices ← lift (iter loc);
  for_all (check_device w loc) devices.

(** Lines 88-110.  The loops walk a [dict] in the order of [iter]; with
    several faulty devices the order decides only which one is reported. *)
Definition check_config (w : environment) (config : json) : outcome unit :=
  _ ← assert_in "redirect_port" config "Missing redirect_port in config";
  _ ← assert_in "client_id" config "Missing client_id in config";
  _ ← assert_in "client_secret" config "Missing client_secret in config";
  _ ← assert_in "credentials_fpath" config "Missing credentials_fpath in config";
  _ ← assert_in "location_prefs" config "Missing location_prefs in config";
  prefs ← lift (getitem config "location_prefs");
  locations ← lift (iter prefs);
  for_all (check_location w config) locations.

(** [load_config(fpath, check_well_formed)]. *)
Definition load_config (w : environment) (fpath : string) (check_well_formed : bool)
  : io json :=
  fun files =>
    match files !! fpath with
    | None => (files, Fails (FileNotFoundError fpath))
    | Some config =>
        (files,
         if check_well_formed then _ ← check_config w config; Returns config
         else Returns config)
    end.

(** [create_empty_config(fpath)]. *)
Definition empty_config : json :=
  JObj {[ "redirect_port" := JNum (PyInt 8080);
          "client_id" := JStr EmptyString;
          "client_secret" := JStr EmptyString;
          "credentials_fpath" := JStr EmptyString;
          "location_prefs" := JObj ∅ ]}.

Definition create_empty_config (fpath : string) : io unit :=
  fun files => (<[fpath := empty_config]> files, Returns tt).

(** What the checks establish of one setting of a device. *)
Definition setting_checked (device : json) (setting : string) : Prop :=
  exists temps s,
    getitem device "temperatures" = Ok temps /\
    contains temps setting = Returns true /\
    getitem temps setting = Ok s /\
    (contains s "Fahrenheit" = Returns true \/ contains s "Celsius" = Returns true) /\
    (forall name, name = "Fahrenheit" \/ name = "Celsius" ->
       contains s name = Returns true ->
       exists x, getitem s name = Ok x /\ is_number x = true).

End ConfigFile.

(* ===================================================================== *)
(** ** More vocabulary: configurations, devices, endpoints *)
(* ===================================================================== *)

Module Shapes.

(** What [load_config] asserts of a device: each of the three settings
    is there, in Fahrenheit or in Celsius (or both). *)
Definition has_unit (s : gmap string pynum) : Prop :=
  is_Some (s !! "Fahrenheit") \/ is_Some (s !! "Celsius").

Definition device_ok (device : device_prefs) : Prop :=
  forall setting, In setting settings ->
    exists s, temperatures device !! setting = Some s /\ has_unit s.

Definition config_ok (cfg : config) : Prop :=
  Forall (fun loc => Forall (fun dev => device_ok (snd dev)) (snd loc))
    (location_prefs cfg).

(** Two configurations list the same locations, devices and settings,
    in the same order. *)
Definition same_shape (cfg cfg' : config) : Prop :=
  Forall2 (fun loc loc' =>
             fst loc' = fst loc /\
             Forall2 (fun dev dev' =>
                        fst dev' = fst dev /\
                        dom (temperatures (snd dev')) = dom (temperatures (snd dev)))
               (snd loc) (snd loc'))
    (location_prefs cfg) (location_prefs cfg').

(** The indoor temperature of a device is neither below the lowest nor
    above the highest temperature of its preferences, in its own unit. *)
Definition within_range (prefs : device_prefs) (device : json) : Prop :=
  exists values units indoor lowest highest,
    getitem device "changeableValues" = Ok values /\
    getitem device "units" = Ok units /\
    getitem device "indoorTemperature" = Ok indoor /\
    (t ← dict_get (temperatures prefs) "lowest"; dict_get_json t units) = Ok lowest /\
    (t ← dict_get (temperatures prefs) "highest"; dict_get_json t units) = Ok highest /\
    lt_num indoor lowest = Ok false /\
    gt_num indoor highest = Ok false.

(** A device that needs nothing: it is not in the preferences of its
    location, or its temperature is within range. *)
Definition calm_device (loc_prefs : list (string * device_prefs)) (device : json)
  : Prop :=
  exists dev_id,
    getitem device "deviceID" = Ok dev_id /\
    (assoc_json dev_id loc_prefs = Ok None \/
     exists prefs, assoc_json dev_id loc_prefs = Ok (Some prefs) /\
                   within_range prefs device).

(** A location that is not configured, or whose devices are all calm. *)
Definition calm_location (w : environment) (cfg : config) (location : json) : Prop :=
  exists id,
    getitem location "locationID" = Ok id /\
    (assoc (str w id) (location_prefs cfg) = None \/
     exists loc_prefs devices,
       assoc (str w id) (location_prefs cfg) = Some loc_prefs /\
       (d ← getitem location "devices"; iter d) = Ok devices /\
       Forall (calm_device loc_prefs) devices).

(** An endpoint function with its arguments, and the request it sends. *)
Inductive endpoint (w : environment)
  : St.stateful (list event) (bool * json) -> request -> Prop :=
  | endpoint_refresh client_id client_secret refresh_token :
      endpoint w (refresh_access_token w client_id client_secret refresh_token)
        (PostToken default_token_url client_id client_secret
           (RefreshToken refresh_token))
  | endpoint_locations client_id access_token :
      endpoint w (get_locations_and_devices w client_id access_token)
        (GetLocations client_id access_token)
  | endpoint_settings client_id access_token location_id device_id settings :
      endpoint w
        (post_device_settings w client_id access_token location_id device_id settings)
        (PostDeviceSettings client_id access_token location_id device_id settings).

End Shapes.
Import Shapes.

(* ===================================================================== *)
(** ** More concrete configurations, devices and files *)
(* ===================================================================== *)

Module MoreExamples.

(** A device whose preferred temperature is given in Celsius, as NaN. *)
Definition nan_config : config :=
  mk_config 8080 "id" "secret" "creds.json"
    [("1234", [("LCC-1", mk_device_prefs
        {[ "lowest" := only "Celsius" 19;
           "preferred" := {[ "Celsius" := PyFloat S754_nan ]};
           "highest" := only "Celsius" 24 ]})])].

Definition warm_device (id : string) : json :=
  JObj {[ "deviceID" := JStr id;
          "units" := JStr "Fahrenheit";
          "indoorTemperature" := JNum (PyInt 70);
          "changeableValues" := JObj (device_values "Heat" 68 "NoHold" "00:00:00") ]}.

Definition warm_home : json :=
  JObj {[ "locationID" := JNum (PyInt 1234);
          "devices" := JList [warm_device "LCC-1"; warm_device "LCC-9"] ]}.

(** The API lists a warm home and a location that is not configured. *)
Definition settled_world : environment :=
  {| api := fun _ rq =>
       match rq with
       | GetLocations _ _ =>
           Response 200 (Ok (JList [warm_home; JObj {[ "locationID" := JNum (PyInt 77) ]}]))
       | _ => unauthorized
       end;
     clock := fun _ => on_day 13 40;
     repr := fun _ => EmptyString |}.

(** A file system with the credential file as [create_empty_credentials]
    leaves it. *)
Definition fresh_files : gmap string json :=
  {[ "creds.json" := CredentialFile.empty_credentials ]}.

(** A configuration document for one location with one device. *)
Definition device_document : json :=
  JObj {[ "temperatures" :=
            JObj {[ "lowest" := JObj {[ "Celsius" := JNum (PyInt 20) ]};
                    "preferred" := JObj {[ "Fahrenheit" := JNum (PyInt 68) ]};
                    "highest" := JObj {[ "Fahrenheit" := JNum (PyInt 70) ]} ]} ]}.

Definition location_documents : gmap string json :=
  {[ "1234" := JObj {[ "LCC-1" := device_document ]} ]}.

Definition config_fields : gmap string json :=
  {[ "redirect_port" := JNum (PyInt 8080);
     "client_id" := JStr "id";
     "client_secret" := JStr "secret";
     "credentials_fpath" := JStr "creds.json";
     "location_prefs" := JObj location_documents ]}.

Definition config_files : gmap string json :=
  {[ "config.json" := JObj config_fields ]}.

End MoreExamples.
Import MoreExamples.

(* ===================================================================== *)
(** ** Timestamps and quarter hours *)
(* ===================================================================== *)

Module TimeFacts.

Ltac unfold_time :=
  unfold Time.valid, timestamp, total_us in *;
  change us_per_day with 86400000000 in *;
  change us_per_second with 1000000 in *;
  change MAXORDINAL with 3652059 in *;
  cbn [ordinal hour minute second microsecond days seconds microseconds] in *.

(** On valid timestamps the field-by-field order is the order of the
    microsecond counts. *)
Lemma compare_timestamp a b :
  Time.valid a -> Time.valid b ->
  Time.compare a b = (timestamp a ?= timestamp b).
Proof.
  intros Ha Hb. unfold Time.compare, lex.
  destruct a as [o1 h1 m1 s1 u1], b as [o2 h2 m2 s2 u2]. unfold_time.
  symmetry.
  destruct (Z.compare_spec o1 o2); [subst|apply Z.compare_lt_iff; lia|apply Z.compare_gt_iff; lia].
  destruct (Z.compare_spec h1 h2); [subst|apply Z.compare_lt_iff; lia|apply Z.compare_gt_iff; lia].
  destruct (Z.compare_spec m1 m2); [subst|apply Z.compare_lt_iff; lia|apply Z.compare_gt_iff; lia].
  destruct (Z.compare_spec s1 s2); [subst|apply Z.compare_lt_iff; lia|apply Z.compare_gt_iff; lia].
  destruct (Z.compare_spec u1 u2); [subst|apply Z.compare_lt_iff; lia|apply Z.compare_gt_iff; lia].
  apply Z.compare_eq_iff. lia.
Qed.

Lemma lt_timestamp a b :
  Time.valid a -> Time.valid b -> Time.lt a b = true <-> timestamp a < timestamp b.
Proof.
  intros Ha Hb. unfold Time.lt. rewrite compare_timestamp by assumption.
  destruct (Z.compare_spec (timestamp a) (timestamp b)); split; intros; try lia; try discriminate; reflexivity.
Qed.

Lemma gt_timestamp a b :
  Time.valid a -> Time.valid b -> Time.gt a b = true <-> timestamp b < timestamp a.
Proof.
  intros Ha Hb. unfold Time.gt. rewrite compare_timestamp by assumption.
  destruct (Z.compare_spec (timestamp a) (timestamp b)); split; intros; try lia; try discriminate; reflexivity.
Qed.

Lemma le_timestamp a b :
  Time.valid a -> Time.valid b -> Time.le a b = true <-> timestamp a <= timestamp b.
Proof.
  intros Ha Hb. unfold Time.le, Time.gt. rewrite compare_timestamp by assumption.
  destruct (Z.compare_spec (timestamp a) (timestamp b)); simpl; split; intros;
    try lia; try discriminate; reflexivity.
Qed.

(** Two valid timestamps with the same count are the same. *)
Lemma timestamp_inj a b :
  Time.valid a -> Time.valid b -> timestamp a = timestamp b -> a = b.
Proof.
  destruct a as [o1 h1 m1 s1 u1], b as [o2 h2 m2 s2 u2]. unfold_time.
  intros Ha Hb H.
  assert (o1 = o2) by lia. subst.
  assert (h1 = h2) by lia. subst.
  assert (m1 = m2) by lia. subst.
  assert (s1 = s2) by lia. subst.
  assert (u1 = u2) by lia. subst. reflexivity.
Qed.

Lemma aligned_timestamp dt :
  Time.valid dt -> aligned dt <-> timestamp dt mod quarter = 0.
Proof.
  destruct dt as [o h m s u]. unfold aligned, quarter. unfold_time.
  intros Hv. split.
  - intros (Hm & -> & ->). Z.div_mod_to_equations. lia.
  - intros H. Z.div_mod_to_equations. lia.
Qed.

Lemma aligned_bool dt :
  ((second dt =? 0) && (microsecond dt =? 0) && (minute dt mod 15 =? 0)) = true
  <-> aligned dt.
Proof.
  unfold aligned. rewrite !andb_true_iff, !Z.eqb_eq. tauto.
Qed.

Lemma round_up_aligned dt : aligned dt -> round_up_to_quarter_hour dt = Ok dt.
Proof.
  intros H. unfold round_up_to_quarter_hour.
  apply aligned_bool in H. rewrite H. reflexivity.
Qed.

(** Adding one day to a valid timestamp moves the date and nothing else,
    unless the date is the last one. *)
Lemma add_one_day dt :
  Time.valid dt ->
  Time.add dt (mk_timedelta 1 0 0) =
    if ordinal dt <? MAXORDINAL
    then Ok (mk_datetime (ordinal dt + 1) (hour dt) (minute dt) (second dt) (microsecond dt))
    else Err OverflowError.
Proof.
  destruct dt as [o h m s u]. intros Hv. unfold Time.add. unfold_time.
  match goal with |- context [?x / 86400000000] => set (t := x) end.
  assert (Hd : t / 86400000000 = o + 1) by (subst t; Z.div_mod_to_equations; lia).
  assert (Hs : t mod 86400000000 / 1000000 = h * 3600 + m * 60 + s)
    by (subst t; Z.div_mod_to_equations; lia).
  assert (Hu : t mod 1000000 = u) by (subst t; Z.div_mod_to_equations; lia).
  rewrite Hd, Hs, Hu.
  replace (0 <? o + 1) with true by (symmetry; apply Z.ltb_lt; lia).
  replace (o + 1 <=? 3652059) with (o <? 3652059)
    by (destruct (Z.ltb_spec o 3652059), (Z.leb_spec (o + 1) 3652059); lia || reflexivity).
  simpl. destruct (o <? 3652059); [|reflexivity].
  f_equal. f_equal; Z.div_mod_to_equations; lia.
Qed.

Lemma round_up_unaligned dt :
  Time.valid dt -> ~ aligned dt ->
  ordinal dt < MAXORDINAL \/ hour dt < 23 \/ minute dt < 45 ->
  exists r, round_up_to_quarter_hour dt = Ok r /\ Time.valid r /\
            timestamp r = (timestamp dt / quarter + 1) * quarter.
Proof.
  intros Hv Hna Hroom. unfold round_up_to_quarter_hour.
  destruct ((second dt =? 0) && (microsecond dt =? 0) && (minute dt mod 15 =? 0)) eqn:Hb.
  { apply aligned_bool in Hb. contradiction. }
  clear Hb.
  assert (Hna' : timestamp dt mod quarter <> 0) by (rewrite <- aligned_timestamp; assumption).
  destruct dt as [o h m s u]. unfold quarter in *. unfold_time.
  destruct (Z.eqb_spec ((m / 15 + 1) * 15 mod 60) 0) as [Hm|Hm].
  - destruct (Z.eqb_spec (h + 1) 24) as [Hh|Hh].
    + change (timedelta_days 1) with (Ok (mk_timedelta 1 0 0)). simpl.
      rewrite add_one_day by (unfold_time; lia). simpl.
      replace (o <? MAXORDINAL) with true
        by (symmetry; apply Z.ltb_lt; unfold MAXORDINAL; Z.div_mod_to_equations; lia).
      simpl. eexists. split; [reflexivity|]. unfold_time. split.
      * Z.div_mod_to_equations. lia.
      * Z.div_mod_to_equations. lia.
    + eexists. split; [reflexivity|]. unfold_time. split.
      * Z.div_mod_to_equations. lia.
      * Z.div_mod_to_equations. lia.
  - eexists. split; [reflexivity|]. unfold_time. split.
    + Z.div_mod_to_equations. lia.
    + Z.div_mod_to_equations. lia.
Qed.

Lemma round_up_overflow dt :
  Time.valid dt -> ~ aligned dt ->
  ordinal dt = MAXORDINAL -> hour dt = 23 -> 45 <= minute dt ->
  round_up_to_quarter_hour dt = Err OverflowError.
Proof.
  intros Hv Hna Ho Hh Hm. unfold round_up_to_quarter_hour.
  destruct ((second dt =? 0) && (microsecond dt =? 0) && (minute dt mod 15 =? 0)) eqn:Hb.
  { apply aligned_bool in Hb. contradiction. }
  clear Hb.
  replace ((minute dt / 15 + 1) * 15 mod 60 =? 0) with true
    by (symmetry; apply Z.eqb_eq; unfold Time.valid in Hv; Z.div_mod_to_equations; lia).
  rewrite Hh. simpl.
  change (timedelta_days 1) with (Ok (mk_timedelta 1 0 0)). simpl.
  rewrite add_one_day by assumption. rewrite Ho. reflexivity.
Qed.

Lemma quarter_least t k :
  k mod quarter = 0 -> t < k -> (t / quarter + 1) * quarter <= k.
Proof.
  unfold quarter. change us_per_second with 1000000.
  intros Hk Hlt. Z.div_mod_to_equations. lia.
Qed.

Lemma quarter_next_aligned t : ((t / quarter + 1) * quarter) mod quarter = 0.
Proof. apply Z.mod_mul. unfold quarter. change us_per_second with 1000000. lia. Qed.

Lemma quarter_next_gt t : t < (t / quarter + 1) * quarter.
Proof.
  unfold quarter. change us_per_second with 1000000.
  Z.div_mod_to_equations. lia.
Qed.

(** C5 (as amended): on a valid timestamp, [round_up_to_quarter_hour]
    returns an aligned timestamp unchanged; any other timestamp that has
    a quarter hour after it goes to the least aligned timestamp strictly
    after it, which is unique, across hour and day boundaries (23:52 goes
    to 00:00 of the next day); within the last quarter hour of
    9999-12-31 the function raises [OverflowError]. *)
Theorem round_up_to_quarter_hour_spec dt :
  Time.valid dt ->
  (aligned dt -> round_up_to_quarter_hour dt = Ok dt) /\
  (~ aligned dt -> has_next_quarter dt ->
   exists r,
     round_up_to_quarter_hour dt = Ok r /\
     Time.valid r /\ aligned r /\ Time.lt dt r = true /\
     (forall r', Time.valid r' -> aligned r' -> Time.lt dt r' = true ->
                 Time.le r r' = true) /\
     (forall r', Time.valid r' -> aligned r' -> Time.lt dt r' = true ->
                 (forall r'', Time.valid r'' -> aligned r'' ->
                              Time.lt dt r'' = true -> Time.le r' r'' = true) ->
                 r' = r)) /\
  (~ aligned dt -> hour dt = 23 -> minute dt = 52 -> ordinal dt < MAXORDINAL ->
   round_up_to_quarter_hour dt =
     Ok (mk_datetime (ordinal dt + 1) 0 0 0 0)) /\
  (~ aligned dt -> ~ has_next_quarter dt ->
   round_up_to_quarter_hour dt = Err OverflowError).
Proof.
  intros Hv. split; [apply round_up_aligned|]. split; [|split].
  - intros Hna Hroom.
    destruct (round_up_unaligned dt Hv Hna Hroom) as (r & Hr & Hvr & Hts).
    assert (Har : aligned r).
    { apply aligned_timestamp; [assumption|]. rewrite Hts. apply quarter_next_aligned. }
    assert (Hleast : forall r', Time.valid r' -> aligned r' -> Time.lt dt r' = true ->
                                Time.le r r' = true).
    { intros r' Hv' Ha' Hlt'. apply le_timestamp; [assumption..|].
      rewrite Hts. apply quarter_least.
      - apply aligned_timestamp; assumption.
      - apply lt_timestamp; assumption. }
    assert (Hlt : Time.lt dt r = true).
    { apply lt_timestamp; [assumption..|]. rewrite Hts. apply quarter_next_gt. }
    exists r. do 5 (split; [assumption|]).
    intros r' Hv' Ha' Hlt' Hmin.
    apply timestamp_inj; [assumption..|].
    specialize (Hmin r Hvr Har Hlt). specialize (Hleast r' Hv' Ha' Hlt').
    apply le_timestamp in Hmin; [|assumption..].
    apply le_timestamp in Hleast; [|assumption..]. lia.
  - intros Hna Hh Hm Ho.
    destruct (round_up_unaligned dt Hv Hna (or_introl Ho)) as (r & Hr & Hvr & Hts).
    rewrite Hr. f_equal. apply timestamp_inj; [assumption| |].
    + unfold_time. lia.
    + rewrite Hts. destruct dt as [o h m s u]. unfold quarter. unfold_time. subst.
      Z.div_mod_to_equations. lia.
  - intros Hna Hroom. unfold has_next_quarter in Hroom.
    apply round_up_overflow; [assumption..| | |]; unfold Time.valid in Hv; lia.
Qed.

(** 9999-12-31 23:52:00 is a timestamp, it is not aligned, and the
    function returns nothing on it. *)
Lemma round_up_to_quarter_hour_last_day :
  Time.valid new_year_eve_9999 /\ ~ aligned new_year_eve_9999 /\
  ~ (exists r, round_up_to_quarter_hour new_year_eve_9999 = Ok r).
Proof.
  split; [|split].
  - unfold new_year_eve_9999. unfold_time. lia.
  - intros (H & _). vm_compute in H. discriminate.
  - intros (r & H). vm_compute in H. discriminate.
Qed.

Lemma round_up_to_quarter_hour_spec_witness :
  exists r, round_up_to_quarter_hour (mk_datetime 739000 10 7 30 0) = Ok r /\
            aligned r /\ Time.lt (mk_datetime 739000 10 7 30 0) r = true.
Proof.
  assert (Hv : Time.valid (mk_datetime 739000 10 7 30 0)) by (unfold_time; lia).
  destruct (round_up_to_quarter_hour_spec _ Hv) as (_ & H & _).
  destruct H as (r & Hr & _ & Ha & Hlt & _).
  - intros (Hm & _). vm_compute in Hm. discriminate.
  - left. unfold_time. lia.
  - exists r. auto.
Defined.

Lemma timedelta_of_us_total us td : timedelta_of_us us = Ok td -> total_us td = us.
Proof.
  unfold timedelta_of_us.
  destruct ((-999999999 <=? us / us_per_day) && (us / us_per_day <=? 999999999)); [|discriminate].
  intros [= <-]. unfold_time. Z.div_mod_to_equations. lia.
Qed.

Lemma add_timestamp dt td r :
  Time.valid dt -> 0 <= seconds td -> 0 <= microseconds td ->
  Time.add dt td = Ok r ->
  Time.valid r /\ timestamp r = timestamp dt + total_us td.
Proof.
  intros Hv Hs Hu. unfold Time.add.
  destruct ((0 <? (timestamp dt + total_us td) / us_per_day) &&
            ((timestamp dt + total_us td) / us_per_day <=? MAXORDINAL)) eqn:Hb; [|discriminate].
  intros [= <-]. apply andb_true_iff in Hb. destruct Hb as [H1 H2].
  apply Z.ltb_lt in H1. apply Z.leb_le in H2.
  destruct dt as [o h m s u], td as [d sec us]. unfold_time.
  split; Z.div_mod_to_equations; lia.
Qed.

Lemma decimal_range cp d : decimal cp = Some d -> 0 <= d <= 9.
Proof.
  unfold decimal.
  destruct (find (fun zero => (zero <=? cp) && (cp <=? zero + 9)) zeros)
    as [zero|] eqn:Hf; [|discriminate].
  intros [= <-]. apply find_some in Hf. destruct Hf as [_ Hb].
  apply andb_true_iff in Hb. destruct Hb as [H1 H2].
  apply Z.leb_le in H1. apply Z.leb_le in H2. lia.
Qed.

Lemma digit_range s d r : digit s = Some (d, r) -> 0 <= d <= 9.
Proof.
  unfold digit. destruct (code_point s) as [[cp r']|]; [|discriminate]. simpl.
  destruct (decimal cp) as [x|] eqn:Hd; [|discriminate]. simpl.
  intros [= <- _]. eapply decimal_range. eassumption.
Qed.

Lemma digit_between_range lo hi s d r :
  digit_between lo hi s = Some (d, r) -> lo <= d <= hi.
Proof.
  destruct s as [|a s]; [discriminate|]. unfold digit_between.
  destruct ((48 + lo <=? byte a) && (byte a <=? 48 + hi)) eqn:Hb; [|discriminate].
  intros [= <- _]. apply andb_true_iff in Hb. destruct Hb as [H1 H2].
  apply Z.leb_le in H1. apply Z.leb_le in H2. lia.
Qed.

Lemma two_range first second lo1 hi1 lo2 hi2 s n :
  (forall s d r, first s = Some (d, r) -> lo1 <= d <= hi1) ->
  (forall s d r, second s = Some (d, r) -> lo2 <= d <= hi2) ->
  two first second s = Some n -> 10 * lo1 + lo2 <= n <= 10 * hi1 + hi2.
Proof.
  intros H1 H2. unfold two.
  destruct (first s) as [[x r]|] eqn:Hx; [|discriminate].
  destruct (second r) as [[y [|? ?]]|] eqn:Hy; try discriminate.
  intros [= <-]. apply H1 in Hx. apply H2 in Hy. lia.
Qed.

Lemma one_digit_range s n : one digit s = Some n -> 0 <= n <= 9.
Proof.
  unfold one. destruct (digit s) as [[x [|? ?]]|] eqn:Hx; try discriminate.
  intros [= <-]. eapply digit_range. eassumption.
Qed.

Lemma directive_H_range s n : directive_H s = Some n -> 0 <= n <= 23.
Proof.
  unfold directive_H, orelse.
  destruct (two (digit_between 2 2) (digit_between 0 3) s) as [x|] eqn:H1.
  { intros [= <-].
    apply (two_range _ _ 2 2 0 3) in H1; [lia|apply digit_between_range..]. }
  destruct (two (digit_between 0 1) digit s) as [x|] eqn:H2.
  { intros [= <-].
    apply (two_range _ _ 0 1 0 9) in H2;
      [lia|apply digit_between_range|apply digit_range]. }
  intros H. apply one_digit_range in H. lia.
Qed.

Lemma directive_M_range s n : directive_M s = Some n -> 0 <= n <= 59.
Proof.
  unfold directive_M, orelse.
  destruct (two (digit_between 0 5) digit s) as [x|] eqn:H1.
  { intros [= <-].
    apply (two_range _ _ 0 5 0 9) in H1;
      [lia|apply digit_between_range|apply digit_range]. }
  intros H. apply one_digit_range in H. lia.
Qed.

Lemma directive_S_range s n : directive_S s = Some n -> 0 <= n <= 61.
Proof.
  unfold directive_S, orelse.
  destruct (two (digit_between 6 6) (digit_between 0 1) s) as [x|] eqn:H1.
  { intros [= <-].
    apply (two_range _ _ 6 6 0 1) in H1; [lia|apply digit_between_range..]. }
  destruct (two (digit_between 0 5) digit s) as [x|] eqn:H2.
  { intros [= <-].
    apply (two_range _ _ 0 5 0 9) in H2;
      [lia|apply digit_between_range|apply digit_range]. }
  intros H. apply one_digit_range in H. lia.
Qed.

(** What [strptime] accepts is a time of day. *)
Lemma parse_HMS_range s t :
  parse_HMS s = Ok t ->
  0 <= t_hour t < 24 /\ 0 <= t_minute t < 60 /\ 0 <= t_second t < 60 /\
  t_microsecond t = 0.
Proof.
  unfold parse_HMS.
  destruct (split_colon s) as [|h [|m [|sec [|]]]]; try discriminate.
  destruct (directive_H h) as [hh|] eqn:Hh; [|discriminate].
  destruct (directive_M m) as [mm|] eqn:Hm; [|discriminate].
  destruct (directive_S sec) as [ss|] eqn:Hs; [|discriminate].
  destruct (ss <=? 59) eqn:Hb; [|discriminate].
  intros [= <-]. simpl. apply Z.leb_le in Hb.
  apply directive_H_range in Hh. apply directive_M_range in Hm.
  apply directive_S_range in Hs. lia.
Qed.

(** The test the code performs is the strict one: the given time must be
    later than [now] plus the minutes. *)
Lemma is_x_minutes_in_future_strict s m now b :
  Time.valid now ->
  is_x_minutes_in_future (JStr s) m now = Ok b ->
  exists t, parse_HMS s = Ok t /\
    (b = true <->
     timestamp now + m * 60 * us_per_second < timestamp (combine (ordinal now) t)).
Proof.
  intros Hv. unfold is_x_minutes_in_future. simpl.
  destruct (parse_HMS s) as [t|] eqn:Ht; simpl; [|discriminate].
  destruct (timedelta_minutes m) as [delta|] eqn:Hd; simpl; [|discriminate].
  destruct (Time.add now delta) as [limit|] eqn:Hl; simpl; [|discriminate].
  intros [= <-]. exists t. split; [reflexivity|].
  pose proof (parse_HMS_range _ _ Ht) as (Hh & Hm & Hs & Hu).
  pose proof (timedelta_of_us_total _ _ Hd) as Htot.
  assert (Hnorm : 0 <= seconds delta /\ 0 <= microseconds delta).
  { unfold timedelta_minutes, timedelta_of_us in Hd.
    destruct (_ && _) in Hd; [|discriminate]. injection Hd as <-.
    unfold_time. split; Z.div_mod_to_equations; lia. }
  destruct (add_timestamp _ _ _ Hv (proj1 Hnorm) (proj2 Hnorm) Hl) as [Hvl Htl].
  assert (Hvg : Time.valid (combine (ordinal now) t)).
  { unfold combine. unfold Time.valid in *. simpl. lia. }
  rewrite gt_timestamp by assumption. rewrite Htl, Htot. reflexivity.
Qed.

(** C7 (the code at the failing input): with "14:00:00" and 15 minutes
    the function answers true at 13:44:00 and false at 13:46:00; at
    13:45:00 the given time is exactly 15 minutes ahead, at least 15
    minutes as the comment of the function has it, and the answer is
    false. *)
Theorem is_x_minutes_in_future_at_the_limit :
  is_x_minutes_in_future (JStr "14:00:00") 15 (on_day 13 44) = Ok true /\
  is_x_minutes_in_future (JStr "14:00:00") 15 (on_day 13 46) = Ok false /\
  timestamp (on_day 14 0) - timestamp (on_day 13 45) = 15 * 60 * us_per_second /\
  is_x_minutes_in_future (JStr "14:00:00") 15 (on_day 13 45) = Ok false.
Proof. repeat split; reflexivity. Qed.

End TimeFacts.
Import TimeFacts.

(* ===================================================================== *)
(** ** Stepping through code that mutates a dictionary *)
(* ===================================================================== *)

Module StFacts.

Section Steps.
Context {S A B : Type}.

Lemma bind_ret (a : A) (f : A -> St.stateful S B) s :
  St.bind (St.ret a) f s = f a s.
Proof. reflexivity. Qed.

Lemma bind_pure (r : result A) (f : A -> St.stateful S B) s :
  St.bind (St.pure r) f s = match r with Ok a => f a s | Err e => (s, Err e) end.
Proof. destruct r; reflexivity. Qed.

Lemma bind_modify (g : S -> S) (f : unit -> St.stateful S B) s :
  St.bind (St.modify g) f s = f tt (g s).
Proof. reflexivity. Qed.

Lemma bind_if (c : bool) (m1 m2 : St.stateful S A) (f : A -> St.stateful S B) s :
  St.bind (if c then m1 else m2) f s =
  if c then St.bind m1 f s else St.bind m2 f s.
Proof. destruct c; reflexivity. Qed.

Lemma bind_assoc {C} (m : St.stateful S A) (g : A -> St.stateful S B)
    (f : B -> St.stateful S C) s :
  St.bind (St.bind m g) f s = St.bind m (fun a => St.bind (g a) f) s.
Proof. unfold St.bind. destruct (m s) as [s' [a|e]]; reflexivity. Qed.

End Steps.

Lemma bind_load {B} k (f : json -> St.stateful (gmap string json) B) d :
  St.bind (load k) f d =
  match d !! k with Some v => f v d | None => (d, Err KeyError) end.
Proof. unfold St.bind, load, dict_get. destruct (d !! k); reflexivity. Qed.

Lemma bind_store {B} k v (f : unit -> St.stateful (gmap string json) B) d :
  St.bind (store k v) f d = f tt (<[k := v]> d).
Proof. reflexivity. Qed.

Lemma bind_has {B} k (f : bool -> St.stateful (gmap string json) B) d :
  St.bind (has k) f d = f (bool_decide (is_Some (d !! k))) d.
Proof. reflexivity. Qed.

End StFacts.
Import StFacts.

(* ===================================================================== *)
(** ** [update_values] *)
(* ===================================================================== *)

Module UpdateFacts.

(** Case analysis on the innermost test of a piece of straight-line
    code. *)
Ltac plain x :=
  lazymatch x with
  | context [if _ then _ else _] => fail
  | context [match _ with _ => _ end] => fail
  | _ => idtac
  end.

Ltac cases :=
  repeat (cbv beta iota;
          match goal with
          | |- context [if ?x then _ else _] => plain x; destruct x eqn:?
          | |- context [match ?x with _ => _ end] => plain x; destruct x eqn:?
          end).

Lemma eq_str_true v s : eq_str v s = true <-> v = JStr s.
Proof.
  destruct v; simpl; split; try discriminate; intros H.
  - apply String.eqb_eq in H. congruence.
  - injection H as ->. apply String.eqb_refl.
Qed.

(** When nothing is dirty the call answers [None] and leaves the
    dictionary alone. *)
Lemma update_values_settled temperatures device_units mode setpoint now d :
  settled temperatures device_units mode setpoint d ->
  update_values temperatures device_units mode setpoint now d = (d, Ok false).
Proof.
  intros ((cur & Hcur & Hm) & Hhc & (old & target & Hold & Htarget & Heq)).
  unfold update_values.
  rewrite bind_load, Hcur, Hm. cbn [negb].
  rewrite bind_ret, bind_has.
  destruct (d !! "heatCoolMode") as [hc|] eqn:Hh.
  - rewrite bool_decide_eq_true_2 by eauto.
    rewrite bind_assoc, bind_load, Hh, (Hhc hc eq_refl). cbn [negb].
    rewrite bind_ret, bind_load, Hold, bind_pure, Htarget, Heq. reflexivity.
  - rewrite bool_decide_eq_false_2 by (intros [? ?]; discriminate).
    rewrite bind_ret, bind_load, Hold, bind_pure, Htarget, Heq. reflexivity.
Qed.

Lemma update_values_halves temperatures device_units mode setpoint now d :
  update_values temperatures device_units mode setpoint now d =
  St.bind (set_fields temperatures device_units mode setpoint) (hold now) d.
Proof.
  unfold update_values, set_fields, hold, St.bind, St.ret, St.pure.
  repeat match goal with
         | |- context [match ?x with _ => _ end] => destruct x eqn:?
         | |- context [if ?x then _ else _] => destruct x eqn:?
         end; try reflexivity; congruence.
Qed.

Lemma dyadic_compare_refl m e : dyadic_compare m e m e = Eq.
Proof. unfold dyadic_compare. apply Z.compare_refl. Qed.

(** A number equals itself unless it is NaN. *)
Lemma num_eq_refl n : is_nan n = false -> num_eq n n = true.
Proof.
  unfold num_eq, num_compare.
  destruct n as [z|[s|s| |s m e]]; simpl; intros H;
    rewrite ?dyadic_compare_refl; try reflexivity; try discriminate.
  destruct s; reflexivity.
Qed.

Lemma num_eq_nan v n : is_nan n = true -> eq_num v n = false.
Proof.
  destruct n as [z|[s|s| |s m e]]; simpl; try discriminate. intros _.
  unfold eq_num. destruct (as_num v) as [x|]; [|reflexivity].
  unfold num_eq, num_compare. simpl. destruct (value x); reflexivity.
Qed.

Lemma set_fields_Ok temperatures device_units mode setpoint d d' vc :
  setpoint <> "mode" -> setpoint <> "heatCoolMode" ->
  set_fields temperatures device_units mode setpoint d = (d', Ok vc) ->
  exists target,
    preferred temperatures device_units = Ok target /\
    d' !! "mode" = Some (JStr mode) /\
    (forall hc, d' !! "heatCoolMode" = Some hc -> hc = JStr mode) /\
    (exists old, d' !! setpoint = Some old /\
                 (is_nan target = false -> eq_num old target = true)).
Proof.
  intros Hsm Hsh. unfold set_fields.
  rewrite bind_load. destruct (d !! "mode") as [cur|] eqn:Hcur; [|discriminate].
  (* after the first field *)
  assert (Hone : forall (K : bool -> St.stateful (gmap string json) bool),
            (forall c d1, d1 !! "mode" = Some (JStr mode) -> K c d1 = (d', Ok vc) ->
               exists target,
                 preferred temperatures device_units = Ok target /\
                 d' !! "mode" = Some (JStr mode) /\
                 (forall hc, d' !! "heatCoolMode" = Some hc -> hc = JStr mode) /\
                 (exists old, d' !! setpoint = Some old /\
                              (is_nan target = false -> eq_num old target = true))) ->
            St.bind (if negb (eq_str cur mode)
                     then St.bind (store "mode" (JStr mode)) (fun _ => St.ret true)
                     else St.ret false) K d = (d', Ok vc) ->
            exists target,
                 preferred temperatures device_units = Ok target /\
                 d' !! "mode" = Some (JStr mode) /\
                 (forall hc, d' !! "heatCoolMode" = Some hc -> hc = JStr mode) /\
                 (exists old, d' !! setpoint = Some old /\
                              (is_nan target = false -> eq_num old target = true))).
  { intros K HK. rewrite bind_if.
    destruct (eq_str cur mode) eqn:Heq; cbn [negb].
    - rewrite bind_ret. apply HK. apply eq_str_true in Heq. congruence.
    - rewrite bind_assoc, bind_store, bind_ret. apply HK. apply lookup_insert_eq. }
  apply Hone. clear Hone. intros changed1 d1 Hmode1.
  rewrite bind_has.
  (* after the second field *)
  assert (Htwo : forall changed2 d2,
            d2 !! "mode" = Some (JStr mode) ->
            (forall hc, d2 !! "heatCoolMode" = Some hc -> hc = JStr mode) ->
            St.bind (load setpoint)
              (fun old => St.bind (St.pure (preferred temperatures device_units))
                 (fun target =>
                    if negb (eq_num old target)
                    then St.bind (store setpoint (JNum target)) (fun _ => St.ret true)
                    else St.ret changed2)) d2 = (d', Ok vc) ->
            exists target,
                 preferred temperatures device_units = Ok target /\
                 d' !! "mode" = Some (JStr mode) /\
                 (forall hc, d' !! "heatCoolMode" = Some hc -> hc = JStr mode) /\
                 (exists old, d' !! setpoint = Some old /\
                              (is_nan target = false -> eq_num old target = true))).
  { intros changed2 d2 Hm2 Hh2. rewrite bind_load.
    destruct (d2 !! setpoint) as [old|] eqn:Hold; [|discriminate].
    rewrite bind_pure.
    destruct (preferred temperatures device_units) as [target|]; [|discriminate].
    destruct (eq_num old target) eqn:Heq; cbn [negb].
    - intros [= <- <-]. exists target. eauto 10.
    - rewrite bind_store. intros [= <- <-]. exists target.
      split; [reflexivity|]. split; [|split].
      + rewrite lookup_insert_ne by congruence. assumption.
      + intros hc. rewrite lookup_insert_ne by congruence. apply Hh2.
      + exists (JNum target). split; [apply lookup_insert_eq|].
        intros Hn. unfold eq_num. simpl. apply num_eq_refl. assumption. }
  destruct (d1 !! "heatCoolMode") as [hc|] eqn:Hh.
  - rewrite bool_decide_eq_true_2 by eauto.
    rewrite bind_assoc, bind_load, Hh, bind_if.
    destruct (eq_str hc mode) eqn:Heq; cbn [negb].
    + rewrite bind_ret. apply Htwo; [assumption|].
      intros hc' Hhc'. apply eq_str_true in Heq. congruence.
    + rewrite bind_assoc, bind_store, bind_ret. apply Htwo.
      * rewrite lookup_insert_ne by discriminate. assumption.
      * intros hc'. rewrite lookup_insert_eq. congruence.
  - rewrite bool_decide_eq_false_2 by (intros [? ?]; discriminate).
    rewrite bind_ret. apply Htwo; [assumption|].
    intros hc'. rewrite Hh. discriminate.
Qed.

(** The second half writes the two hold fields only. *)
Lemma hold_frame now vc d d1 r k :
  k <> "thermostatSetpointStatus" -> k <> "nextPeriodTime" ->
  hold now vc d = (d1, r) -> d1 !! k = d !! k.
Proof.
  intros Hk1 Hk2. unfold hold. destruct vc; [|intros [= <- <-]; reflexivity].
  rewrite bind_load.
  destruct (d !! "thermostatSetpointStatus") as [status|]; [|intros [= <- <-]; reflexivity].
  assert (Hre : forall reschedule,
            (if reschedule : bool then
               St.bind (store "thermostatSetpointStatus" (JStr "HoldUntil"))
                 (fun _ => St.bind
                    (St.pure (delta ← timedelta_minutes 15;
                              later ← Time.add now delta;
                              round_up_to_quarter_hour later))
                    (fun t => St.bind (store "nextPeriodTime" (JStr (strftime_HMS t)))
                                (fun _ => St.ret true)))
             else St.ret false) d = (d1, r) -> d1 !! k = d !! k).
  { intros [|]; [|intros [= <- <-]; reflexivity].
    rewrite bind_store, bind_pure.
    destruct (delta ← timedelta_minutes 15; later ← Time.add now delta;
              round_up_to_quarter_hour later) as [t|e].
    - rewrite bind_store. intros [= <- <-].
      rewrite !lookup_insert_ne by congruence. reflexivity.
    - intros [= <- <-]. rewrite lookup_insert_ne by congruence. reflexivity. }
  rewrite bind_if. destruct (negb (eq_str status "HoldUntil")).
  - rewrite bind_ret. apply (Hre true).
  - rewrite bind_assoc, bind_load.
    destruct (d !! "nextPeriodTime") as [next|]; [|intros [= <- <-]; reflexivity].
    rewrite bind_assoc, bind_pure.
    destruct (is_x_minutes_in_future next 15 now) as [ahead|e];
      [|intros [= <- <-]; reflexivity].
    rewrite bind_ret. apply (Hre (negb ahead)).
Qed.

Lemma update_values_Ok_settled temperatures device_units mode setpoint now d d1 b :
  is_setpoint_field setpoint ->
  (forall target, preferred temperatures device_units = Ok target ->
                  is_nan target = false) ->
  update_values temperatures device_units mode setpoint now d = (d1, Ok b) ->
  settled temperatures device_units mode setpoint d1.
Proof.
  intros Hsp Hnan. rewrite update_values_halves. unfold St.bind.
  destruct (set_fields temperatures device_units mode setpoint d) as [d' [vc|e]] eqn:Hset;
    [|discriminate].
  intros Hhold.
  assert (Hne : setpoint <> "mode" /\ setpoint <> "heatCoolMode" /\
                setpoint <> "thermostatSetpointStatus" /\ setpoint <> "nextPeriodTime").
  { destruct Hsp as [-> | ->]; repeat split; discriminate. }
  destruct Hne as (N1 & N2 & N3 & N4).
  destruct (set_fields_Ok _ _ _ _ _ _ _ N1 N2 Hset)
    as (target & Ht & Hm & Hhc & old & Hold & Heq).
  assert (F : forall k, k <> "thermostatSetpointStatus" -> k <> "nextPeriodTime" ->
                        d1 !! k = d' !! k).
  { intros k K1 K2. eapply hold_frame; eassumption. }
  split; [|split].
  - exists (JStr mode). split.
    + rewrite F by discriminate. assumption.
    + apply eq_str_true. reflexivity.
  - intros hc. rewrite F by discriminate. intros H. apply eq_str_true. auto.
  - exists old, target. rewrite F by assumption. auto.
Qed.

(** C8 (as amended): call [update_values] twice in a row with the same
    thresholds, unit, mode and setpoint field (one of the two setpoint
    fields), each call with whatever the clock then says.  If the
    preferred temperature is not NaN and the first call returns, the
    second call returns [None] and leaves the dictionary as the first
    call left it: no field is dirty any more. *)
Theorem update_values_second_call_returns_None
    temperatures device_units mode setpoint now1 now2 d d1 b :
  is_setpoint_field setpoint ->
  (forall target, preferred temperatures device_units = Ok target ->
                  is_nan target = false) ->
  update_values temperatures device_units mode setpoint now1 d = (d1, Ok b) ->
  update_values temperatures device_units mode setpoint now2 d1 = (d1, Ok false).
Proof.
  intros Hsp Hnan H1. apply update_values_settled.
  eapply update_values_Ok_settled; eassumption.
Qed.

(** With a preferred temperature that is NaN (which [json.load] reads
    and [load_config] lets through) the setpoint is dirty on every call:
    at 13:45 the first call returns the payload, and so does the second. *)
Lemma update_values_second_call_nan :
  update_heat_values (fahrenheit (PyFloat S754_nan)) (JStr "Fahrenheit")
    (on_day 13 45) (device_values "Heat" 60 "NoHold" "00:00:00")
  = (nan_values, Ok true) /\
  update_heat_values (fahrenheit (PyFloat S754_nan)) (JStr "Fahrenheit")
    (on_day 13 45) nan_values
  = (nan_values, Ok true).
Proof. split; reflexivity. Qed.

Lemma update_values_second_call_returns_None_witness :
  update_heat_values (fahrenheit (PyInt 68)) (JStr "Fahrenheit") (on_day 13 45)
    (device_values "Heat" 68 "HoldUntil" "14:00:00")
  = (device_values "Heat" 68 "HoldUntil" "14:00:00", Ok false).
Proof.
  apply (update_values_second_call_returns_None (fahrenheit (PyInt 68))
           (JStr "Fahrenheit") "Heat" "heatSetpoint" (on_day 13 45) (on_day 13 45)
           (device_values "Cool" 60 "NoHold" "00:00:00")
           (device_values "Heat" 68 "HoldUntil" "14:00:00") true).
  - left. reflexivity.
  - intros target H. vm_compute in H. injection H as <-. reflexivity.
  - reflexivity.
Defined.

(** A dirty call under a hold that is still good for more than 15
    minutes sets the fields and then falls through to [return None]. *)
Lemma update_values_under_hold temperatures device_units mode setpoint now d d' next :
  set_fields temperatures device_units mode setpoint d = (d', Ok true) ->
  d' !! "thermostatSetpointStatus" = Some (JStr "HoldUntil") ->
  d' !! "nextPeriodTime" = Some next ->
  is_x_minutes_in_future next 15 now = Ok true ->
  update_values temperatures device_units mode setpoint now d = (d', Ok false).
Proof.
  intros Hset Hstatus Hnext Hahead. rewrite update_values_halves.
  unfold St.bind at 1. rewrite Hset. unfold hold.
  rewrite bind_load, Hstatus. cbn [eq_str String.eqb Ascii.eqb Bool.eqb negb].
  rewrite bind_assoc, bind_load, Hnext, bind_assoc, bind_pure, Hahead.
  reflexivity.
Qed.

(** C2 (the code at the failing input): a device in mode Cool with heat
    setpoint 60 holds until 14:00:00; at 13:40 that is more than 15
    minutes ahead.  [update_heat_values] towards 68 degrees sets the mode
    and the setpoint in the dictionary, leaves the hold alone, and
    returns [None], not the dictionary. *)
Theorem update_values_drops_changes_under_hold :
  is_x_minutes_in_future (JStr "14:00:00") 15 (on_day 13 40) = Ok true /\
  update_heat_values (fahrenheit (PyInt 68)) (JStr "Fahrenheit") (on_day 13 40)
    (device_values "Cool" 60 "HoldUntil" "14:00:00")
  = (device_values "Heat" 68 "HoldUntil" "14:00:00", Ok false) /\
  device_values "Heat" 68 "HoldUntil" "14:00:00"
  <> device_values "Cool" 60 "HoldUntil" "14:00:00".
Proof.
  split; [|split]; try reflexivity.
  intros H. apply (f_equal (fun d => d !! "mode")) in H. vm_compute in H. discriminate.
Qed.

(** When the first half finds nothing to change it changes nothing. *)
Lemma set_fields_clean temperatures device_units mode setpoint d d1 :
  set_fields temperatures device_units mode setpoint d = (d1, Ok false) -> d1 = d.
Proof.
  unfold set_fields, St.bind, St.ret, St.pure, load, store, has, St.modify, dict_get.
  cases; intros H; try discriminate; injection H as <-; reflexivity.
Qed.

(** The second half answers [None] without a write, and after a change
    only under a hold that is good for more than 15 minutes. *)
Lemma hold_false now vc d d1 :
  hold now vc d = (d1, Ok false) ->
  d1 = d /\
  (vc = true ->
   exists next,
     d !! "thermostatSetpointStatus" = Some (JStr "HoldUntil") /\
     d !! "nextPeriodTime" = Some next /\
     is_x_minutes_in_future next 15 now = Ok true).
Proof.
  unfold hold, St.bind, St.ret, St.pure, load, store, St.modify, dict_get.
  cases; intros H; try discriminate; injection H as <-;
    (split; [reflexivity|]); intros Hvc; try discriminate.
  match goal with
  | H1 : negb (eq_str _ _) = false, H2 : negb ?a = false,
    H3 : is_x_minutes_in_future ?next _ _ = Ok ?a |- _ =>
      apply negb_false_iff in H1; apply negb_false_iff in H2;
      apply eq_str_true in H1; subst; exists next; auto
  end.
Qed.

(** C4 (the code at the failing input, and where else the claim
    stands): the caller hands [update_values] its dictionary object for a
    device in mode Cool with heat setpoint 60, under a hold until
    14:00:00.  At 13:40 the call towards 68 degrees returns [None], and
    the caller's object now says Heat and 68: it was changed in place
    although no update is reported.  This is the only way for it to
    happen: whenever a call returns [None], either the store is exactly
    as it was, or the fields of the object have been set and it stands
    under a hold that is good for more than 15 minutes, which is the
    branch that lacks the [return values]. *)
Theorem update_values_None_after_a_change :
  call_update_values (fahrenheit (PyInt 68)) (JStr "Fahrenheit")
    "Heat" "heatSetpoint" (on_day 13 40) 1%positive
    (one_device (device_values "Cool" 60 "HoldUntil" "14:00:00"))
  = (one_device (device_values "Heat" 68 "HoldUntil" "14:00:00"), Ok None) /\
  one_device (device_values "Heat" 68 "HoldUntil" "14:00:00")
  <> one_device (device_values "Cool" 60 "HoldUntil" "14:00:00") /\
  (forall temperatures device_units mode setpoint now values heap heap',
     call_update_values temperatures device_units mode setpoint now values heap
     = (heap', Ok None) ->
     heap' = heap \/
     exists d d' next,
       heap !! values = Some d /\ heap' = <[values := d']> heap /\
       d' !! "thermostatSetpointStatus" = Some (JStr "HoldUntil") /\
       d' !! "nextPeriodTime" = Some next /\
       is_x_minutes_in_future next 15 now = Ok true).
Proof.
  split; [reflexivity|]. split.
  { intros H.
    apply (f_equal (fun heap => heap !! 1%positive ≫= (.!! "mode"))) in H.
    vm_compute in H. discriminate. }
  intros temperatures device_units mode setpoint now values heap heap'.
  unfold call_update_values.
  destruct (heap !! values) as [d|] eqn:Hd; [|discriminate].
  destruct (update_values temperatures device_units mode setpoint now d)
    as [d' r] eqn:Hu.
  intros [= <- Hr]. destruct r as [[|]|e]; try discriminate.
  rewrite update_values_halves in Hu. unfold St.bind in Hu.
  destruct (set_fields temperatures device_units mode setpoint d)
    as [d1 [vc|e]] eqn:Hs; [|discriminate].
  destruct (hold_false _ _ _ _ Hu) as [-> Hvc].
  destruct vc.
  - right. destruct (Hvc eq_refl) as (next & H1 & H2 & H3).
    exists d, d1, next. auto 10.
  - left. apply set_fields_clean in Hs. subst d1. apply insert_id. assumption.
Qed.

End UpdateFacts.
Import UpdateFacts.

(* ===================================================================== *)
(** ** [add_missing_temperature_units] *)
(* ===================================================================== *)

Module UnitFacts.

Lemma fill_setting_celsius s c :
  s !! "Celsius" = Some c -> s !! "Fahrenheit" = None ->
  fill_setting s = (f ← fahrenheit_of c; Ok (<["Fahrenheit" := f]> s)).
Proof.
  intros Hc Hf. unfold fill_setting.
  rewrite bool_decide_eq_false_2 by (rewrite Hf; intros [? ?]; discriminate).
  unfold dict_get. rewrite Hc. simpl.
  destruct (fahrenheit_of c) as [f|e]; simpl; [|reflexivity].
  rewrite bool_decide_eq_true_2; [reflexivity|].
  rewrite lookup_insert_ne by discriminate. eauto.
Qed.

Lemma fill_setting_fahrenheit s f :
  s !! "Fahrenheit" = Some f -> s !! "Celsius" = None ->
  fill_setting s = (c ← celsius_of f; Ok (<["Celsius" := c]> s)).
Proof.
  intros Hf Hc. unfold fill_setting.
  rewrite bool_decide_eq_true_2 by eauto. simpl.
  rewrite bool_decide_eq_false_2 by (rewrite Hc; intros [? ?]; discriminate).
  unfold dict_get. rewrite Hf. reflexivity.
Qed.

Lemma fill_setting_both s :
  is_Some (s !! "Fahrenheit") -> is_Some (s !! "Celsius") -> fill_setting s = Ok s.
Proof.
  intros Hf Hc. unfold fill_setting.
  rewrite bool_decide_eq_true_2 by assumption. simpl.
  rewrite bool_decide_eq_true_2 by assumption. reflexivity.
Qed.




Lemma truediv_float a b q : py_truediv a b = Ok q -> exists h, q = PyFloat h.
Proof.
  unfold py_truediv. destruct (is_zero b); [discriminate|].
  destruct a as [x|x], b as [y|y]; simpl.
  - destruct (SFdiv prec emax (exact_of_int x) (exact_of_int y)); intros [= <-]; eauto.
  - destruct (float_of_int x); simpl; [|discriminate]. intros [= <-]. eauto.
  - destruct (float_of_int y); simpl; [|discriminate]. intros [= <-]. eauto.
  - intros [= <-]. eauto.
Qed.

Lemma fill_setting_backfilled s s' : fill_setting s = Ok s' -> backfilled s s'.
Proof.
  unfold backfilled.
  destruct (s !! "Fahrenheit") as [f|] eqn:Hf, (s !! "Celsius") as [c|] eqn:Hc.
  - rewrite fill_setting_both by eauto. congruence.
  - rewrite (fill_setting_fahrenheit _ _ Hf Hc). unfold celsius_of.
    destruct (py_sub f (PyInt 32)) as [x|]; cbn [mbind result_bind]; [|discriminate].
    destruct (py_mul x (PyInt 5)) as [y|]; cbn [mbind result_bind]; [|discriminate].
    destruct (py_truediv y (PyInt 9)) as [z|]; cbn [mbind result_bind]; [|discriminate].
    destruct (py_mul (PyInt 2) z) as [d|]; cbn [mbind result_bind]; [|discriminate].
    destruct (py_round d) as [r|]; cbn [mbind result_bind]; [|discriminate].
    destruct (py_truediv (PyInt r) (PyInt 2)) as [q|] eqn:Hq;
      cbn [mbind result_bind]; [|discriminate].
    intros [= <-]. destruct (truediv_float _ _ _ Hq) as [h ->]. eauto.
  - rewrite (fill_setting_celsius _ _ Hc Hf). unfold fahrenheit_of.
    destruct (py_mul c (PyInt 9)) as [x|]; cbn [mbind result_bind]; [|discriminate].
    destruct (py_truediv x (PyInt 5)) as [y|]; cbn [mbind result_bind]; [|discriminate].
    destruct (py_add y (PyInt 32)) as [z|]; cbn [mbind result_bind]; [|discriminate].
    destruct (py_round z) as [n|]; cbn [mbind result_bind]; [|discriminate].
    intros [= <-]. eauto.
  - unfold fill_setting.
    rewrite bool_decide_eq_false_2 by (rewrite Hf; intros [? ?]; discriminate).
    unfold dict_get. rewrite Hc. cbn [mbind result_bind]. discriminate.
Qed.



End UnitFacts.
Import UnitFacts.

(* ===================================================================== *)
(** ** The redirect listener *)
(* ===================================================================== *)

Module HandlerFacts.

Section Handler.
Variable w : environment.
Variables client_id client_secret redirect_uri token_url auth_state : string.
Variable query_params : gmap string (list string).



End Handler.



End HandlerFacts.
Import HandlerFacts.

(* ===================================================================== *)
(** ** [main] *)
(* ===================================================================== *)

Module MainFacts.

Lemma success_and_json_eq w rq h :
  success_and_json w rq h =
  (h ++ [Called rq (api w h rq)],
   match api w h rq with
   | Response st (Ok body) => Ok (st =? 200, body)
   | Response _ (Err e) => Err e
   | Raised e => Err e
   end).
Proof.
  unfold success_and_json, St.bind, send, St.pure, St.ret.
  destruct (api w h rq) as [st [body|e]|e]; reflexivity.
Qed.

Lemma faithful_app w h t1 t2 :
  faithful w h t1 -> faithful w (h ++ t1) t2 -> faithful w h (t1 ++ t2).
Proof.
  revert h. induction t1 as [|ev t1 IH]; intros h; simpl.
  - rewrite app_nil_r. auto.
  - destruct ev as [rq rp|]; [|contradiction].
    intros [Hrp H1] H2. split; [assumption|]. apply IH; [assumption|].
    rewrite <- app_assoc. exact H2.
Qed.

(** The shape shared by lines 154-168 and 210-224. *)
Lemma retry_shape {A} w op refresh (k : json -> A) (k1 k2 : A) h :
  exists t e,
    (r <- success_and_json w op;;
     if negb (fst r) then
       r2 <- success_and_json w refresh;;
       if negb (fst r2) then St.ret k1
       else
         r3 <- success_and_json w op;;
         if negb (fst r3) then St.ret k2
         else St.ret (k (snd r3))
     else St.ret (k (snd r)))%st h = (h ++ t, finish k k1 k2 e) /\
    faithful w h t /\ attempt op refresh t e.
Proof.
  unfold St.bind at 1. rewrite success_and_json_eq.
  destruct (api w h op) as [st1 [b1|e1]|e1] eqn:H1.
  2: { exists [Called op (Response st1 (Err e1))], (Aborted e1).
       split; [reflexivity|]. split; [simpl; auto|]. constructor. reflexivity. }
  2: { exists [Called op (Raised e1)], (Aborted e1).
       split; [reflexivity|]. split; [simpl; auto|]. constructor. reflexivity. }
  cbn [fst snd]. destruct (st1 =? 200) eqn:S1; cbn [negb].
  { exists [Called op (Response st1 (Ok b1))], (Done b1).
    split; [reflexivity|]. split; [simpl; auto|].
    constructor. simpl. rewrite S1. reflexivity. }
  set (h1 := h ++ [Called op (Response st1 (Ok b1))]).
  assert (J1 : judge (Response st1 (Ok b1)) = Failed) by (simpl; rewrite S1; reflexivity).
  unfold St.bind at 1. rewrite success_and_json_eq.
  destruct (api w h1 refresh) as [st2 [b2|e2]|e2] eqn:H2.
  2: { exists [Called op (Response st1 (Ok b1)); Called refresh (Response st2 (Err e2))],
         (Aborted e2).
       split; [unfold h1; rewrite <- app_assoc; reflexivity|].
       split; [simpl; auto|]. apply attempt_refresh_broke; [assumption|reflexivity]. }
  2: { exists [Called op (Response st1 (Ok b1)); Called refresh (Raised e2)], (Aborted e2).
       split; [unfold h1; rewrite <- app_assoc; reflexivity|].
       split; [simpl; auto|]. apply attempt_refresh_broke; [assumption|reflexivity]. }
  cbn [fst snd]. destruct (st2 =? 200) eqn:S2; cbn [negb].
  2: { exists [Called op (Response st1 (Ok b1)); Called refresh (Response st2 (Ok b2))],
         RefreshFailed.
       split; [unfold h1; rewrite <- app_assoc; reflexivity|].
       split; [simpl; auto|].
       apply attempt_refresh_failed; [assumption|simpl; rewrite S2; reflexivity]. }
  set (h2 := h1 ++ [Called refresh (Response st2 (Ok b2))]).
  assert (J2 : judge (Response st2 (Ok b2)) = Succeeded b2) by (simpl; rewrite S2; reflexivity).
  unfold St.bind at 1. rewrite success_and_json_eq.
  assert (E : forall rp, h2 ++ [Called op rp] =
                         h ++ [Called op (Response st1 (Ok b1));
                               Called refresh (Response st2 (Ok b2)); Called op rp]).
  { intros rp. unfold h2, h1. rewrite <- !app_assoc. reflexivity. }
  destruct (api w h2 op) as [st3 [b3|e3]|e3] eqn:H3.
  2: { eexists _, (Aborted e3). split; [rewrite E; reflexivity|].
       split; [simpl; auto|]. eapply attempt_retry_broke; [eassumption..|reflexivity]. }
  2: { eexists _, (Aborted e3). split; [rewrite E; reflexivity|].
       split; [simpl; auto|]. eapply attempt_retry_broke; [eassumption..|reflexivity]. }
  cbn [fst snd]. destruct (st3 =? 200) eqn:S3; cbn [negb].
  - eexists _, (Done b3). split; [unfold St.ret; rewrite E; reflexivity|].
    split; [simpl; auto|].
    eapply attempt_retry; [eassumption..|simpl; rewrite S3; reflexivity].
  - eexists _, RetryFailed. split; [unfold St.ret; rewrite E; reflexivity|].
    split; [simpl; auto|].
    eapply attempt_retry_failed; [eassumption..|simpl; rewrite S3; reflexivity].
Qed.

Lemma fetch_attempt w cfg creds h :
  exists t e,
    fetch w cfg creds h = (h ++ t, finish inr (inl 1) (inl 2) e) /\
    faithful w h t /\
    attempt (fetch_request cfg creds) (refresh_request cfg creds) t e.
Proof.
  exact (retry_shape w (fetch_request cfg creds) (refresh_request cfg creds)
           inr (inl 1) (inl 2) h).
Qed.

Lemma push_attempt w cfg creds loc_id dev_id values h :
  exists t e,
    push w cfg creds loc_id dev_id values h =
      (h ++ t, finish (fun _ => Next) (Return 3) (Return 4) e) /\
    faithful w h t /\
    attempt (PostDeviceSettings (client_id cfg) (access_token creds) loc_id dev_id values)
      (refresh_request cfg creds) t e.
Proof.
  exact (retry_shape w
           (PostDeviceSettings (client_id cfg) (access_token creds) loc_id dev_id values)
           (refresh_request cfg creds) (fun _ => Next) (Return 3) (Return 4) h).
Qed.

Lemma loop_spec_still w cfg creds h o :
  o = Completed \/ (exists e, o = Caught e) ->
  loop_spec w cfg creds h (h, flow_of o).
Proof.
  intros Ho. exists [], o. rewrite app_nil_r. split; [reflexivity|].
  split; [exact I|]. destruct Ho as [->|[e ->]]; constructor.
Qed.

Lemma pushes_app cfg creds t1 t2 o :
  pushes cfg creds t1 Completed -> pushes cfg creds t2 o ->
  pushes cfg creds (t1 ++ t2) o.
Proof.
  intros H1 H2. remember Completed as c eqn:Hc.
  induction H1; try discriminate.
  - exact H2.
  - rewrite <- app_assoc. eapply pushes_next; eauto.
Qed.

Lemma push_spec w cfg creds loc_id dev_id values h :
  loop_spec w cfg creds h (push w cfg creds loc_id dev_id values h).
Proof.
  destruct (push_attempt w cfg creds loc_id dev_id values h) as (t & e & Hp & Hf & Ha).
  assert (Hpush : is_push cfg creds
            (PostDeviceSettings (client_id cfg) (access_token creds) loc_id dev_id values))
    by (unfold is_push; eauto).
  rewrite Hp. destruct e as [body| | |e].
  - exists t, Completed. split; [reflexivity|]. split; [assumption|].
    rewrite <- (app_nil_r t). eapply pushes_next; [eassumption..|constructor].
  - exists t, (Stopped 3). split; [reflexivity|]. split; [assumption|].
    eapply pushes_refresh_failed; eassumption.
  - exists t, (Stopped 4). split; [reflexivity|]. split; [assumption|].
    eapply pushes_retry_failed; eassumption.
  - exists t, (Caught e). split; [reflexivity|]. split; [assumption|].
    eapply pushes_broke; eassumption.
Qed.

Lemma for_each_spec {A} w cfg creds (body : A -> St.stateful (list event) flow) items :
  (forall x h, loop_spec w cfg creds h (body x h)) ->
  forall h, loop_spec w cfg creds h (for_each body items h).
Proof.
  intros Hbody. induction items as [|x rest IH]; intros h; simpl.
  - apply (loop_spec_still w cfg creds h Completed). auto.
  - unfold St.bind.
    destruct (Hbody x h) as (t & o & Hx & Hf & Hp). rewrite Hx.
    destruct o as [|code|e]; simpl.
    + destruct (IH (h ++ t)) as (t' & o' & Hr & Hf' & Hp'). rewrite Hr.
      exists (t ++ t'), o'. rewrite app_assoc. split; [reflexivity|].
      split; [apply faithful_app; assumption|]. apply pushes_app; assumption.
    + exists t, (Stopped code). auto.
    + exists t, (Caught e). auto.
Qed.

Lemma process_device_spec w cfg creds loc_id loc_prefs device h :
  loop_spec w cfg creds h (process_device w cfg creds loc_id loc_prefs device h).
Proof.
  unfold process_device. rewrite bind_pure.
  destruct (getitem device "deviceID") as [dev_id|e];
    [|apply (loop_spec_still w cfg creds h (Caught e)); eauto].
  rewrite bind_pure.
  destruct (assoc_json dev_id loc_prefs) as [[prefs|]|e].
  - unfold St.bind at 1, St.get. rewrite bind_pure.
    destruct (new_values (clock w h) device prefs) as [[v|]|e].
    + apply push_spec.
    + apply (loop_spec_still w cfg creds h Completed). auto.
    + apply (loop_spec_still w cfg creds h (Caught e)). eauto.
  - apply (loop_spec_still w cfg creds h Completed). auto.
  - apply (loop_spec_still w cfg creds h (Caught e)). eauto.
Qed.

Lemma process_location_spec w cfg creds location h :
  loop_spec w cfg creds h (process_location w cfg creds location h).
Proof.
  unfold process_location. rewrite bind_pure.
  destruct (getitem location "locationID") as [id|e];
    [|apply (loop_spec_still w cfg creds h (Caught e)); eauto].
  destruct (assoc (str w id) (location_prefs cfg)) as [loc_prefs|].
  - rewrite bind_pure.
    destruct (d ← getitem location "devices"; iter d) as [devices|e].
    + apply for_each_spec. intros x h'. apply process_device_spec.
    + apply (loop_spec_still w cfg creds h (Caught e)). eauto.
  - apply (loop_spec_still w cfg creds h Completed). auto.
Qed.

Lemma try_body_spec w cfg creds location_response h :
  loop_spec w cfg creds h (try_body w cfg creds location_response h).
Proof.
  unfold try_body. rewrite bind_pure.
  destruct (iter location_response) as [locations|e].
  - apply for_each_spec. intros x h'. apply process_location_spec.
  - apply (loop_spec_still w cfg creds h (Caught e)). eauto.
Qed.

(** Every run of [main] follows the policy. *)
Lemma main_run w cfg0 cfg creds h0 :
  add_missing_temperature_units cfg0 = Ok cfg ->
  exists t r,
    main w cfg0 creds h0 = (h0 ++ t, r) /\ faithful w h0 t /\ run cfg creds t r.
Proof.
  intros Hcfg. unfold main. rewrite Hcfg.
  destruct (fetch_attempt w cfg creds h0) as (t & e & Hfetch & Hf & Ha).
  rewrite Hfetch. destruct e as [body| | |e]; simpl.
  - destruct (try_body_spec w cfg creds body (h0 ++ t)) as (t' & o & Hb & Hf' & Hp).
    rewrite Hb. rewrite <- app_assoc.
    destruct o as [|code|e]; simpl.
    + exists (t ++ t'), (Ok 0). split; [reflexivity|].
      split; [apply faithful_app; assumption|]. eapply run_success; eassumption.
    + exists (t ++ t'), (Ok code). split; [reflexivity|].
      split; [apply faithful_app; assumption|]. eapply run_push_failed; eassumption.
    + exists (t ++ t'), (Ok 0). split; [reflexivity|].
      split; [apply faithful_app; assumption|]. eapply run_caught; eassumption.
  - exists t, (Ok 1). split; [reflexivity|]. split; [assumption|]. constructor. assumption.
  - exists t, (Ok 2). split; [reflexivity|]. split; [assumption|].
    apply run_fetch_retry_failed. assumption.
  - exists t, (Err e). split; [reflexivity|]. split; [assumption|].
    apply run_fetch_broke. assumption.
Qed.

Lemma attempt_carries op refresh t e token :
  carries token (Called op unauthorized) ->
  carries token (Called refresh unauthorized) ->
  attempt op refresh t e -> Forall (carries token) t.
Proof.
  intros Hop Hre H.
  assert (O : forall rp, carries token (Called op rp)) by (intros rp; exact Hop).
  assert (R : forall rp, carries token (Called refresh rp)) by (intros rp; exact Hre).
  destruct H; repeat constructor; auto.
Qed.

Lemma fetch_carries cfg creds t e :
  attempt (fetch_request cfg creds) (refresh_request cfg creds) t e ->
  Forall (carries (access_token creds)) t.
Proof. apply attempt_carries; reflexivity. Qed.

Lemma pushes_carries cfg creds t o :
  pushes cfg creds t o -> Forall (carries (access_token creds)) t.
Proof.
  assert (P : forall rq t e, is_push cfg creds rq ->
                attempt rq (refresh_request cfg creds) t e ->
                Forall (carries (access_token creds)) t).
  { intros rq t0 e (loc & dev & v & ->). apply attempt_carries; reflexivity. }
  induction 1; eauto using Forall_nil.
  apply Forall_app. eauto.
Qed.

Lemma run_carries cfg creds t r :
  run cfg creds t r -> Forall (carries (access_token creds)) t.
Proof.
  destruct 1; eauto using fetch_carries;
    apply Forall_app; eauto using fetch_carries, pushes_carries.
Qed.



Lemma for_each_raise {S A} (body : A -> St.stateful S flow) before x after s s1 s2 e :
  for_each body before s = (s1, Ok Next) ->
  body x s1 = (s2, Err e) ->
  for_each body (before ++ x :: after) s = (s2, Err e).
Proof.
  revert s. induction before as [|y before IH]; intros s; simpl.
  - intros [= <-] Hx. unfold St.bind. rewrite Hx. reflexivity.
  - unfold St.bind. destruct (body y s) as [s' [[|code]|e']]; try discriminate.
    apply IH.
Qed.

(** With a body that is JSON the policy's failure is the one of the
    specification. *)
Lemma judge_refused st body :
  judge (Response st (Ok body)) = Failed <-> refused (Response st (Ok body)).
Proof.
  simpl. destruct (st =? 200) eqn:E.
  - apply Z.eqb_eq in E. split; [discriminate|]. intros H. contradiction.
  - apply Z.eqb_neq in E. split; auto.
Qed.






(** C1 (the code, in general and at the failing input): no run of
    [main] writes to the credential store, and every call it makes to the
    API carries the access token loaded at its start.  When that token
    has expired and the refresh grants a new one, which the API would
    accept, the fetch is retried with the old token, fails again, and
    [main] returns 2. *)
Theorem main_keeps_the_old_token :
  (forall w cfg0 creds h0,
     exists t, fst (main w cfg0 creds h0) = h0 ++ t /\
               Forall (carries (access_token creds)) t) /\
  main expired two_devices stale [] =
    ([ Called (GetLocations "id" "old-access") unauthorized;
       Called (PostToken default_token_url "id" "secret" (RefreshToken "old-refresh"))
              (Response 200 (Ok token_set));
       Called (GetLocations "id" "old-access") unauthorized ],
     Ok 2) /\
  api expired [] (GetLocations "id" "new-access") = Response 200 (Ok (JList [])).
Proof.
  split; [|split; reflexivity].
  intros w cfg0 creds h0.
  destruct (add_missing_temperature_units cfg0) as [cfg|e] eqn:Hcfg.
  - destruct (main_run w cfg0 cfg creds h0 Hcfg) as (t & r & Hm & Hf & Hr).
    exists t. rewrite Hm. split; [reflexivity|]. eapply run_carries. eassumption.
  - exists []. unfold main. rewrite Hcfg. rewrite app_nil_r. split; [reflexivity|constructor].
Qed.

(** C10: once the locations have been fetched, an exception raised in
    the walk over them makes [main] return 0, and the history ends where
    the exception was raised: whether the response cannot be iterated, or
    a location raises after others went through (the remaining ones are
    not looked at), a location raising in particular when one of its
    devices raises (the remaining devices are not looked at); a push that
    is refused and whose refresh then raises is such an exception, and
    pre-empts the exit codes 3 and 4. *)
Theorem main_catches_loop_exceptions w cfg0 cfg creds h0 h1 location_response :
  add_missing_temperature_units cfg0 = Ok cfg ->
  fetch w cfg creds h0 = (h1, Ok (inr location_response)) ->
  (forall e, iter location_response = Err e ->
             main w cfg0 creds h0 = (h1, Ok 0)) /\
  (forall before location after h2 h3 e,
     iter location_response = Ok (before ++ location :: after) ->
     for_each (process_location w cfg creds) before h1 = (h2, Ok Next) ->
     process_location w cfg creds location h2 = (h3, Err e) ->
     main w cfg0 creds h0 = (h3, Ok 0)) /\
  (forall location id loc_prefs before device after h2 h3 h4 e,
     getitem location "locationID" = Ok id ->
     assoc (str w id) (location_prefs cfg) = Some loc_prefs ->
     (d ← getitem location "devices"; iter d) = Ok (before ++ device :: after) ->
     for_each (process_device w cfg creds (str w id) loc_prefs) before h2
       = (h3, Ok Next) ->
     process_device w cfg creds (str w id) loc_prefs device h3 = (h4, Err e) ->
     process_location w cfg creds location h2 = (h4, Err e)) /\
  (forall loc_id dev_id values h body e,
     api w h (PostDeviceSettings (client_id cfg) (access_token creds)
                loc_id dev_id values) = Response 401 (Ok body) ->
     api w (h ++ [Called (PostDeviceSettings (client_id cfg) (access_token creds)
                            loc_id dev_id values) (Response 401 (Ok body))])
       (refresh_request cfg creds) = Raised e ->
     push w cfg creds loc_id dev_id values h =
       (h ++ [Called (PostDeviceSettings (client_id cfg) (access_token creds)
                        loc_id dev_id values) (Response 401 (Ok body));
              Called (refresh_request cfg creds) (Raised e)],
        Err e)).
Proof.
  intros Hcfg Hfetch. split; [|split; [|split]].
  - intros e Hiter. unfold main. rewrite Hcfg, Hfetch.
    unfold try_body. rewrite bind_pure, Hiter. reflexivity.
  - intros before location after h2 h3 e Hiter Hbefore Hloc.
    unfold main. rewrite Hcfg, Hfetch.
    unfold try_body. rewrite bind_pure, Hiter.
    rewrite (for_each_raise _ _ _ _ _ _ _ _ Hbefore Hloc). reflexivity.
  - intros location id loc_prefs before device after h2 h3 h4 e Hid Hprefs Hdevs
      Hbefore Hdev.
    unfold process_location. rewrite bind_pure, Hid, Hprefs, bind_pure, Hdevs.
    apply (for_each_raise _ _ _ _ _ _ _ _ Hbefore Hdev).
  - intros loc_id dev_id values h body e H1 H2.
    unfold push, post_dev_settings, post_device_settings, refresh_access_token.
    unfold St.bind at 1. rewrite success_and_json_eq, H1. cbn [fst snd negb Z.eqb Pos.eqb].
    unfold St.bind at 1. unfold refresh_request in H2.
    rewrite success_and_json_eq, H2. rewrite <- app_assoc. reflexivity.
Qed.

Lemma main_catches_loop_exceptions_witness :
  main flaky two_devices stale [] = (flaky_history, Ok 0).
Proof.
  assert (Hcfg : add_missing_temperature_units two_devices = Ok two_devices)
    by (reflexivity).
  assert (Hfetch : fetch flaky two_devices stale [] =
                   ([Called (GetLocations "id" "old-access")
                       (Response 200 (Ok (JList [home])))],
                    Ok (inr (JList [home]))))
    by (reflexivity).
  destruct (main_catches_loop_exceptions flaky two_devices two_devices stale [] _ _
              Hcfg Hfetch) as (_ & H & _).
  apply (H [] home []
           [Called (GetLocations "id" "old-access") (Response 200 (Ok (JList [home])))]
           flaky_history RequestException).
  - reflexivity.
  - reflexivity.
  - reflexivity.
Defined.

End MainFacts.
Import MainFacts.

(* ===================================================================== *)
(** ** More on timestamps and quarter hours *)
(* ===================================================================== *)

Module MoreTimeFacts.

Lemma aligned_dec dt : aligned dt \/ ~ aligned dt.
Proof.
  destruct ((second dt =? 0) && (microsecond dt =? 0) && (minute dt mod 15 =? 0)) eqn:Hb.
  - left. apply aligned_bool. assumption.
  - right. intros H. apply aligned_bool in H. congruence.
Qed.

(** What the function returns, by the microsecond count: the input when
    it is aligned, the next multiple of a quarter hour otherwise. *)
Lemma round_up_timestamp dt r :
  Time.valid dt -> round_up_to_quarter_hour dt = Ok r ->
  Time.valid r /\ aligned r /\
  timestamp r = ((timestamp dt + quarter - 1) / quarter) * quarter.
Proof.
  intros Hv Hr. destruct (aligned_dec dt) as [Ha|Hna].
  - rewrite (round_up_aligned dt Ha) in Hr. injection Hr as <-.
    split; [assumption|]. split; [assumption|].
    apply aligned_timestamp in Ha; [|assumption].
    unfold quarter in *. change us_per_second with 1000000 in *.
    Z.div_mod_to_equations. lia.
  - assert (Hroom : has_next_quarter dt).
    { unfold has_next_quarter.
      destruct (Z_lt_dec (ordinal dt) MAXORDINAL) as [?|Ho]; [auto|].
      destruct (Z_lt_dec (hour dt) 23) as [?|Hh]; [auto|].
      destruct (Z_lt_dec (minute dt) 45) as [?|Hm]; [auto|].
      exfalso. rewrite round_up_overflow in Hr; try assumption; try discriminate.
      - unfold Time.valid in Hv. lia.
      - unfold Time.valid in Hv. lia.
      - lia. }
    destruct (round_up_unaligned dt Hv Hna Hroom) as (r' & Hr' & Hvr & Hts).
    rewrite Hr in Hr'. injection Hr' as <-.
    split; [assumption|]. split.
    + apply aligned_timestamp; [assumption|]. rewrite Hts. apply quarter_next_aligned.
    + rewrite Hts. rewrite aligned_timestamp in Hna by assumption.
      unfold quarter in *. change us_per_second with 1000000 in *.
      Z.div_mod_to_equations. lia.
Qed.

(** X1: [round_up_to_quarter_hour] is idempotent: what it returns on a
    valid timestamp is returned unchanged when rounded again. *)
Theorem round_up_to_quarter_hour_idempotent dt r :
  Time.valid dt -> round_up_to_quarter_hour dt = Ok r ->
  round_up_to_quarter_hour r = Ok r.
Proof.
  intros Hv Hr. destruct (round_up_timestamp dt r Hv Hr) as (_ & Ha & _).
  apply round_up_aligned. assumption.
Qed.

Lemma round_up_to_quarter_hour_idempotent_witness :
  round_up_to_quarter_hour (on_day 14 0) = Ok (on_day 14 0).
Proof.
  apply (round_up_to_quarter_hour_idempotent (on_day 13 52) (on_day 14 0)).
  - unfold on_day. unfold_time. lia.
  - reflexivity.
Defined.

(** X2: the result of [round_up_to_quarter_hour] on a valid timestamp is
    never earlier than the input and less than fifteen minutes later. *)
Theorem round_up_to_quarter_hour_within_a_quarter dt r :
  Time.valid dt -> round_up_to_quarter_hour dt = Ok r ->
  timestamp dt <= timestamp r < timestamp dt + quarter.
Proof.
  intros Hv Hr. destruct (round_up_timestamp dt r Hv Hr) as (_ & _ & Hts).
  rewrite Hts. unfold quarter. change us_per_second with 1000000.
  Z.div_mod_to_equations. lia.
Qed.

Lemma round_up_to_quarter_hour_within_a_quarter_witness :
  timestamp (on_day 13 52) <= timestamp (on_day 14 0)
  < timestamp (on_day 13 52) + quarter.
Proof.
  apply (round_up_to_quarter_hour_within_a_quarter (on_day 13 52) (on_day 14 0)).
  - unfold on_day. unfold_time. lia.
  - reflexivity.
Defined.

(** X3: [round_up_to_quarter_hour] is monotone: of two valid timestamps
    the later one is not rounded to an earlier quarter hour. *)
Theorem round_up_to_quarter_hour_monotone dt1 dt2 r1 r2 :
  Time.valid dt1 -> Time.valid dt2 ->
  round_up_to_quarter_hour dt1 = Ok r1 -> round_up_to_quarter_hour dt2 = Ok r2 ->
  Time.le dt1 dt2 = true -> Time.le r1 r2 = true.
Proof.
  intros Hv1 Hv2 Hr1 Hr2 Hle.
  destruct (round_up_timestamp dt1 r1 Hv1 Hr1) as (Hvr1 & _ & Hts1).
  destruct (round_up_timestamp dt2 r2 Hv2 Hr2) as (Hvr2 & _ & Hts2).
  apply le_timestamp in Hle; [|assumption..].
  apply le_timestamp; [assumption..|]. rewrite Hts1, Hts2.
  unfold quarter. change us_per_second with 1000000.
  Z.div_mod_to_equations. nia.
Qed.

Lemma round_up_to_quarter_hour_monotone_witness :
  Time.le (on_day 14 0) (on_day 14 15) = true.
Proof.
  apply (round_up_to_quarter_hour_monotone (on_day 13 52) (on_day 14 7)
           (on_day 14 0) (on_day 14 15)).
  - unfold on_day. unfold_time. lia.
  - unfold on_day. unfold_time. lia.
  - reflexivity.
  - reflexivity.
  - reflexivity.
Defined.

(** *** [is_x_minutes_in_future] *)

Lemma parse_HMS_error s e : parse_HMS s = Err e -> e = ValueError.
Proof.
  unfold parse_HMS.
  destruct (split_colon s) as [|h [|m [|sec [|]]]]; try (intros [= <-]; reflexivity).
  destruct (directive_H h), (directive_M m), (directive_S sec);
    try (intros [= <-]; reflexivity).
  destruct (_ <=? 59); [discriminate|]. intros [= <-]. reflexivity.
Qed.

Lemma timedelta_of_us_error us e : timedelta_of_us us = Err e -> e = OverflowError.
Proof.
  unfold timedelta_of_us. destruct (_ && _); [discriminate|]. intros [= <-]. reflexivity.
Qed.

Lemma add_error dt td e : Time.add dt td = Err e -> e = OverflowError.
Proof.
  unfold Time.add. destruct (_ && _); [discriminate|]. intros [= <-]. reflexivity.
Qed.

(** X5: the ways [is_x_minutes_in_future] raises.  When it raises, it is
    [TypeError] and the time is not a string, or [ValueError] and the
    string does not parse as hours, minutes and seconds, or
    [OverflowError] and the string parses but [now] plus the minutes
    cannot be represented. *)
Theorem is_x_minutes_in_future_errors v m now e :
  is_x_minutes_in_future v m now = Err e ->
  (e = TypeError /\ forall s, v <> JStr s) \/
  (e = ValueError /\ exists s, v = JStr s /\ parse_HMS s = Err ValueError) \/
  (e = OverflowError /\ exists s t, v = JStr s /\ parse_HMS s = Ok t /\
     forall limit, (delta ← timedelta_minutes m; Time.add now delta) <> Ok limit).
Proof.
  unfold is_x_minutes_in_future.
  destruct v as [| | |s| |]; simpl;
    try (intros [= <-]; left; split; [reflexivity|intros s; discriminate]).
  destruct (parse_HMS s) as [t|e'] eqn:Ht; cbn [mbind result_bind].
  - destruct (timedelta_minutes m) as [delta|e'] eqn:Hd; cbn [mbind result_bind].
    + destruct (Time.add now delta) as [limit|e'] eqn:Hl; cbn [mbind result_bind];
        [discriminate|].
      intros [= <-]. right. right. pose proof (add_error _ _ _ Hl) as ->.
      split; [reflexivity|].
      exists s, t. split; [reflexivity|]. split; [exact Ht|].
      intros limit. cbn [mbind result_bind]. discriminate.
    + intros [= <-]. right. right. pose proof (timedelta_of_us_error _ _ Hd) as ->.
      split; [reflexivity|]. exists s, t. split; [reflexivity|]. split; [exact Ht|].
      intros limit. cbn [mbind result_bind]. discriminate.
  - intros [= <-]. pose proof (parse_HMS_error _ _ Ht) as ->.
    right. left. split; [reflexivity|]. exists s. split; [reflexivity|exact Ht].
Qed.

Lemma is_x_minutes_in_future_errors_witness :
  (TypeError = TypeError /\ forall s, JNull <> JStr s) \/
  (TypeError = ValueError /\ exists s, JNull = JStr s /\ parse_HMS s = Err ValueError) \/
  (TypeError = OverflowError /\ exists s t, JNull = JStr s /\ parse_HMS s = Ok t /\
     forall limit, (delta ← timedelta_minutes 15; Time.add (on_day 13 40) delta) <> Ok limit).
Proof.
  apply (is_x_minutes_in_future_errors JNull 15 (on_day 13 40) TypeError).
  reflexivity.
Defined.

(** X4: on a valid [now] and a string that parses (its digits may be
    of any script, as in the hour of the example below, whose second
    digit is Devanagari), the answer of [is_x_minutes_in_future] is true
    exactly when the given time of day, taken on the date of [now], is
    strictly later than [now] plus the minutes. *)
Theorem is_x_minutes_in_future_iff s t m now :
  Time.valid now -> parse_HMS s = Ok t ->
  forall b, is_x_minutes_in_future (JStr s) m now = Ok b ->
    (b = true <->
     timestamp now + m * 60 * us_per_second < timestamp (combine (ordinal now) t)).
Proof.
  intros Hv Ht b Hb.
  destruct (is_x_minutes_in_future_strict s m now b Hv Hb) as (t' & Ht' & Hiff).
  rewrite Ht in Ht'. injection Ht' as <-. exact Hiff.
Qed.

Lemma is_x_minutes_in_future_iff_witness :
  parse_HMS "1४:00:00" = Ok (mk_time 14 0 0 0) /\
  is_x_minutes_in_future (JStr "1४:00:00") 15 (on_day 13 45) = Ok false /\
  (false = true <->
   timestamp (on_day 13 45) + 15 * 60 * us_per_second
   < timestamp (combine (ordinal (on_day 13 45)) (mk_time 14 0 0 0))).
Proof.
  split; [reflexivity|]. split; [reflexivity|].
  apply (is_x_minutes_in_future_iff "1४:00:00" (mk_time 14 0 0 0) 15 (on_day 13 45)).
  - unfold on_day. unfold_time. lia.
  - reflexivity.
  - reflexivity.
Defined.

(** X6: the given time is always taken on the date of [now]: when [now]
    plus the minutes reaches the next midnight, [is_x_minutes_in_future]
    never answers true, whatever the time string. *)
Theorem is_x_minutes_in_future_same_day v m now :
  Time.valid now ->
  (ordinal now + 1) * us_per_day <= timestamp now + m * 60 * us_per_second ->
  match is_x_minutes_in_future v m now with
  | Ok b => b = false
  | Err _ => True
  end.
Proof.
  intros Hv Hlate.
  destruct (is_x_minutes_in_future v m now) as [b|e] eqn:Hb; [|exact I].
  destruct v as [| | |s| |]; try discriminate.
  destruct (is_x_minutes_in_future_strict s m now b Hv Hb) as (t & Ht & Hiff).
  destruct b; [|reflexivity]. exfalso.
  assert (Hlt : timestamp now + m * 60 * us_per_second
                < timestamp (combine (ordinal now) t)) by (apply Hiff; reflexivity).
  pose proof (parse_HMS_range _ _ Ht) as (Hh & Hm & Hs & Hu).
  unfold combine in Hlt. unfold_time. lia.
Qed.

Lemma is_x_minutes_in_future_same_day_witness :
  Time.valid (on_day 23 50) /\
  match is_x_minutes_in_future (JStr "00:15:00") 15 (on_day 23 50) with
  | Ok b => b = false
  | Err _ => True
  end.
Proof.
  assert (Hv : Time.valid (on_day 23 50)) by (unfold on_day; unfold_time; lia).
  split; [exact Hv|].
  apply (is_x_minutes_in_future_same_day (JStr "00:15:00") 15 (on_day 23 50) Hv).
  unfold on_day. unfold_time. lia.
Defined.

End MoreTimeFacts.
Import MoreTimeFacts.

(* ===================================================================== *)
(** ** What is written for the hold is read back *)
(* ===================================================================== *)

Module ReadBackFacts.

Lemma digit_char_colon d :
  0 <= d <= 9 -> Ascii.eqb (digit_char d) ":"%char = false.
Proof.
  intros H.
  assert (C : d = 0 \/ d = 1 \/ d = 2 \/ d = 3 \/ d = 4 \/ d = 5 \/ d = 6 \/
              d = 7 \/ d = 8 \/ d = 9) by lia.
  repeat (destruct C as [-> | C]; [reflexivity|]). subst. reflexivity.
Qed.

(** The three directives read back the two digits [strftime] writes. *)
Lemma directives_pad2 :
  forallb (fun n => bool_decide (directive_H (pad2 n) = Some n)) (range 0 24) = true /\
  forallb (fun n => bool_decide (directive_M (pad2 n) = Some n)) (range 0 60) = true /\
  forallb (fun n => bool_decide (directive_S (pad2 n) = Some n)) (range 0 60) = true.
Proof. repeat split; vm_compute; reflexivity. Qed.

Lemma In_range n k : 0 <= n < Z.of_nat k -> In n (range 0 k).
Proof.
  intros H. unfold range. apply in_map_iff. exists (Z.to_nat n).
  split; [lia|]. apply in_seq. lia.
Qed.

Lemma directive_H_pad2 n : 0 <= n < 24 -> directive_H (pad2 n) = Some n.
Proof.
  intros H. destruct directives_pad2 as (HH & _ & _).
  rewrite forallb_forall in HH.
  assert (Hn : In n (range 0 24)) by (apply In_range; lia).
  apply HH in Hn. apply bool_decide_eq_true_1 in Hn. exact Hn.
Qed.

Lemma directive_M_pad2 n : 0 <= n < 60 -> directive_M (pad2 n) = Some n.
Proof.
  intros H. destruct directives_pad2 as (_ & HM & _).
  rewrite forallb_forall in HM.
  assert (Hn : In n (range 0 60)) by (apply In_range; lia).
  apply HM in Hn. apply bool_decide_eq_true_1 in Hn. exact Hn.
Qed.

Lemma directive_S_pad2 n : 0 <= n < 60 -> directive_S (pad2 n) = Some n.
Proof.
  intros H. destruct directives_pad2 as (_ & _ & HS).
  rewrite forallb_forall in HS.
  assert (Hn : In n (range 0 60)) by (apply In_range; lia).
  apply HS in Hn. apply bool_decide_eq_true_1 in Hn. exact Hn.
Qed.

Lemma split_colon_fields c1 c2 c3 c4 c5 c6 :
  Ascii.eqb c1 ":"%char = false -> Ascii.eqb c2 ":"%char = false ->
  Ascii.eqb c3 ":"%char = false -> Ascii.eqb c4 ":"%char = false ->
  Ascii.eqb c5 ":"%char = false -> Ascii.eqb c6 ":"%char = false ->
  split_colon
    (String.append (String c1 (String c2 EmptyString))
       (String ":" (String.append (String c3 (String c4 EmptyString))
                      (String ":" (String c5 (String c6 EmptyString))))))
  = [String c1 (String c2 EmptyString); String c3 (String c4 EmptyString);
     String c5 (String c6 EmptyString)].
Proof.
  intros A1 A2 A3 A4 A5 A6. simpl. rewrite A1, A2, A3, A4, A5, A6. reflexivity.
Qed.

Lemma split_colon_strftime dt :
  Time.valid dt ->
  split_colon (strftime_HMS dt) = [pad2 (hour dt); pad2 (minute dt); pad2 (second dt)].
Proof.
  intros Hv. unfold strftime_HMS, pad2. unfold Time.valid in Hv.
  apply split_colon_fields; apply digit_char_colon; Z.div_mod_to_equations; lia.
Qed.

(** [strptime] reads back what [strftime] wrote. *)
Lemma parse_strftime dt :
  Time.valid dt ->
  parse_HMS (strftime_HMS dt) = Ok (mk_time (hour dt) (minute dt) (second dt) 0).
Proof.
  intros Hv. unfold parse_HMS. rewrite (split_colon_strftime dt Hv).
  unfold Time.valid in Hv.
  rewrite directive_H_pad2, directive_M_pad2, directive_S_pad2 by lia.
  replace (second dt <=? 59) with true by (symmetry; apply Z.leb_le; lia).
  reflexivity.
Qed.

(** X7: the string [strftime("%H:%M:%S")] writes for a valid timestamp
    (what [update_values] stores as [nextPeriodTime]) is read back by
    [is_x_minutes_in_future] as the hour, minute and second of that
    timestamp on the date of [now]; it never fails to parse. *)
Theorem next_period_time_is_read_back t m now :
  Time.valid t ->
  is_x_minutes_in_future (JStr (strftime_HMS t)) m now
  = (delta ← timedelta_minutes m;
     limit ← Time.add now delta;
     Ok (Time.gt (mk_datetime (ordinal now) (hour t) (minute t) (second t) 0) limit)).
Proof.
  intros Hv. unfold is_x_minutes_in_future. cbn [strptime_HMS].
  rewrite (parse_strftime t Hv). reflexivity.
Qed.

Lemma next_period_time_is_read_back_witness :
  Time.valid (mk_datetime 739000 14 0 0 250) /\
  is_x_minutes_in_future (JStr (strftime_HMS (mk_datetime 739000 14 0 0 250))) 15
    (on_day 13 40)
  = (delta ← timedelta_minutes 15;
     limit ← Time.add (on_day 13 40) delta;
     Ok (Time.gt (mk_datetime (ordinal (on_day 13 40)) 14 0 0 0) limit)).
Proof.
  assert (Hv : Time.valid (mk_datetime 739000 14 0 0 250)) by (unfold_time; lia).
  split; [exact Hv|].
  apply (next_period_time_is_read_back (mk_datetime 739000 14 0 0 250) 15 (on_day 13 40) Hv).
Defined.

End ReadBackFacts.
Import ReadBackFacts.

(* ===================================================================== *)
(** ** More on [update_values] *)
(* ===================================================================== *)

Module MoreUpdateFacts.

(** The first half writes the three fields only, and removes nothing. *)
Lemma set_fields_frame temperatures device_units mode setpoint d d1 r :
  set_fields temperatures device_units mode setpoint d = (d1, r) ->
  (forall k, k <> "mode" -> k <> "heatCoolMode" -> k <> setpoint ->
             d1 !! k = d !! k) /\
  (forall k, is_Some (d !! k) -> is_Some (d1 !! k)).
Proof.
  unfold set_fields, St.bind, St.ret, St.pure, load, store, has, St.modify, dict_get.
  cases; intros [= <- <-];
    (split;
     [ intros k K1 K2 K3; rewrite ?lookup_insert_ne by congruence; reflexivity
     | intros k Hk; rewrite ?lookup_insert; repeat case_decide; eauto ]).
Qed.

Lemma hold_keeps now vc d d1 r k :
  hold now vc d = (d1, r) -> is_Some (d !! k) -> is_Some (d1 !! k).
Proof.
  unfold hold, St.bind, St.ret, St.pure, load, store, St.modify, dict_get.
  cases; intros [= <- <-] Hk; rewrite ?lookup_insert; repeat case_decide; eauto.
Qed.

(** When the second half answers with the payload it has set the hold. *)
Lemma hold_true now vc d d1 :
  hold now vc d = (d1, Ok true) ->
  exists t,
    (delta ← timedelta_minutes 15; later ← Time.add now delta;
     round_up_to_quarter_hour later) = Ok t /\
    d1 = <["nextPeriodTime" := JStr (strftime_HMS t)]>
           (<["thermostatSetpointStatus" := JStr "HoldUntil"]> d).
Proof.
  unfold hold, St.bind, St.ret, St.pure, load, store, St.modify, dict_get.
  cases; intros H; try discriminate; injection H as <-; eauto.
Qed.

(** X8: whatever it returns or raises, [update_values] writes no key of
    the dictionary other than [mode], [heatCoolMode], the setpoint field,
    [thermostatSetpointStatus] and [nextPeriodTime], and removes no key. *)
Theorem update_values_frame temperatures device_units mode setpoint now d d' r :
  update_values temperatures device_units mode setpoint now d = (d', r) ->
  (forall k, k <> "mode" -> k <> "heatCoolMode" -> k <> setpoint ->
             k <> "thermostatSetpointStatus" -> k <> "nextPeriodTime" ->
             d' !! k = d !! k) /\
  (forall k, is_Some (d !! k) -> is_Some (d' !! k)).
Proof.
  rewrite update_values_halves. unfold St.bind.
  destruct (set_fields temperatures device_units mode setpoint d) as [d1 [vc|e]] eqn:Hset.
  - intros Hhold. destruct (set_fields_frame _ _ _ _ _ _ _ Hset) as [F1 K1]. split.
    + intros k N1 N2 N3 N4 N5. rewrite <- F1 by assumption.
      eapply hold_frame; eassumption.
    + intros k Hk. eapply hold_keeps; [eassumption|]. auto.
  - intros [= <- <-]. destruct (set_fields_frame _ _ _ _ _ _ _ Hset) as [F1 K1].
    split; [intros; apply F1; assumption|assumption].
Qed.

Lemma update_values_frame_witness :
  (forall k, k <> "mode" -> k <> "heatCoolMode" -> k <> "heatSetpoint" ->
             k <> "thermostatSetpointStatus" -> k <> "nextPeriodTime" ->
             device_values "Heat" 68 "HoldUntil" "14:00:00" !! k
             = device_values "Cool" 60 "NoHold" "00:00:00" !! k) /\
  (forall k, is_Some (device_values "Cool" 60 "NoHold" "00:00:00" !! k) ->
             is_Some (device_values "Heat" 68 "HoldUntil" "14:00:00" !! k)).
Proof.
  apply (update_values_frame (fahrenheit (PyInt 68)) (JStr "Fahrenheit") "Heat"
           "heatSetpoint" (on_day 13 40)
           (device_values "Cool" 60 "NoHold" "00:00:00")
           (device_values "Heat" 68 "HoldUntil" "14:00:00") (Ok true)).
  reflexivity.
Defined.

(** X9: when [update_values] returns the dictionary (with one of the two
    setpoint fields), the dictionary has the requested mode in [mode]
    and in [heatCoolMode] if that key is there, a setpoint that equals
    the preferred temperature (if that is not NaN), the status
    "HoldUntil", and as [nextPeriodTime] the quarter hour that follows
    [now] plus fifteen minutes. *)
Theorem update_values_payload temperatures device_units mode setpoint now d d' :
  is_setpoint_field setpoint ->
  update_values temperatures device_units mode setpoint now d = (d', Ok true) ->
  d' !! "mode" = Some (JStr mode) /\
  (forall hc, d' !! "heatCoolMode" = Some hc -> hc = JStr mode) /\
  (exists target sp,
     preferred temperatures device_units = Ok target /\
     d' !! setpoint = Some sp /\
     (is_nan target = false -> eq_num sp target = true)) /\
  d' !! "thermostatSetpointStatus" = Some (JStr "HoldUntil") /\
  (exists t,
     (delta ← timedelta_minutes 15; later ← Time.add now delta;
      round_up_to_quarter_hour later) = Ok t /\
     d' !! "nextPeriodTime" = Some (JStr (strftime_HMS t))).
Proof.
  intros Hsp. rewrite update_values_halves. unfold St.bind.
  destruct (set_fields temperatures device_units mode setpoint d) as [d1 [vc|e]] eqn:Hset;
    [|discriminate].
  intros Hhold.
  assert (Hne : setpoint <> "mode" /\ setpoint <> "heatCoolMode" /\
                setpoint <> "thermostatSetpointStatus" /\ setpoint <> "nextPeriodTime").
  { destruct Hsp as [-> | ->]; repeat split; discriminate. }
  destruct Hne as (N1 & N2 & N3 & N4).
  destruct (set_fields_Ok _ _ _ _ _ _ _ N1 N2 Hset)
    as (target & Ht & Hm & Hhc & old & Hold & Heq).
  destruct (hold_true _ _ _ _ Hhold) as (t & Htime & ->).
  split; [|split; [|split; [|split]]].
  - rewrite !lookup_insert_ne by discriminate. assumption.
  - intros hc. rewrite !lookup_insert_ne by discriminate. apply Hhc.
  - exists target, old. split; [assumption|].
    rewrite !lookup_insert_ne by congruence. auto.
  - rewrite lookup_insert_ne by discriminate. apply lookup_insert_eq.
  - exists t. split; [assumption|]. apply lookup_insert_eq.
Qed.

Lemma update_values_payload_witness :
  device_values "Heat" 68 "HoldUntil" "14:00:00" !! "mode" = Some (JStr "Heat") /\
  (forall hc, device_values "Heat" 68 "HoldUntil" "14:00:00" !! "heatCoolMode" = Some hc ->
              hc = JStr "Heat") /\
  (exists target sp,
     preferred (fahrenheit (PyInt 68)) (JStr "Fahrenheit") = Ok target /\
     device_values "Heat" 68 "HoldUntil" "14:00:00" !! "heatSetpoint" = Some sp /\
     (is_nan target = false -> eq_num sp target = true)) /\
  device_values "Heat" 68 "HoldUntil" "14:00:00" !! "thermostatSetpointStatus"
    = Some (JStr "HoldUntil") /\
  (exists t,
     (delta ← timedelta_minutes 15; later ← Time.add (on_day 13 40) delta;
      round_up_to_quarter_hour later) = Ok t /\
     device_values "Heat" 68 "HoldUntil" "14:00:00" !! "nextPeriodTime"
       = Some (JStr (strftime_HMS t))).
Proof.
  apply (update_values_payload (fahrenheit (PyInt 68)) (JStr "Fahrenheit") "Heat"
           "heatSetpoint" (on_day 13 40)
           (device_values "Cool" 60 "NoHold" "00:00:00")
           (device_values "Heat" 68 "HoldUntil" "14:00:00")).
  - left. reflexivity.
  - reflexivity.
Defined.

(** X10: on a dictionary without [mode], [update_values] raises
    [KeyError] and leaves the dictionary as it was; a missing setpoint
    field is noticed only after [mode] has been overwritten: [KeyError]
    is raised and the dictionary keeps the new mode. *)
Theorem update_values_missing_key temperatures device_units mode setpoint now d :
  (d !! "mode" = None ->
   update_values temperatures device_units mode setpoint now d = (d, Err KeyError)) /\
  (forall cur,
     d !! "mode" = Some cur -> d !! "heatCoolMode" = None ->
     d !! setpoint = None -> setpoint <> "mode" ->
     update_values temperatures device_units mode setpoint now d
     = (if eq_str cur mode then d else <["mode" := JStr mode]> d, Err KeyError)).
Proof.
  split.
  - intros Hm. unfold update_values. rewrite bind_load, Hm. reflexivity.
  - intros cur Hm Hh Hs Hne. unfold update_values. rewrite bind_load, Hm.
    rewrite bind_if. destruct (eq_str cur mode); cbn [negb].
    + rewrite bind_ret, bind_has.
      rewrite bool_decide_eq_false_2 by (rewrite Hh; intros [? ?]; discriminate).
      rewrite bind_ret, bind_load, Hs. reflexivity.
    + rewrite bind_assoc, bind_store, bind_ret, bind_has.
      rewrite lookup_insert_ne by discriminate.
      rewrite bool_decide_eq_false_2 by (rewrite Hh; intros [? ?]; discriminate).
      rewrite bind_ret, bind_load. rewrite lookup_insert_ne by congruence.
      rewrite Hs. reflexivity.
Qed.

End MoreUpdateFacts.
Import MoreUpdateFacts.

(* ===================================================================== *)
(** ** More on [add_missing_temperature_units] *)
(* ===================================================================== *)

Module MoreUnitFacts.

Lemma fill_setting_filled s s' :
  fill_setting s = Ok s' ->
  is_Some (s' !! "Fahrenheit") /\ is_Some (s' !! "Celsius").
Proof.
  intros H. apply fill_setting_backfilled in H. unfold backfilled in H.
  destruct (s !! "Fahrenheit") as [f|] eqn:Hf, (s !! "Celsius") as [c|] eqn:Hc.
  - subst s'. rewrite Hf, Hc. eauto.
  - destruct H as (r & _ & h & _ & ->).
    rewrite lookup_insert_eq, lookup_insert_ne, Hf by discriminate. eauto.
  - destruct H as (n & _ & ->).
    rewrite lookup_insert_eq, lookup_insert_ne, Hc by discriminate. eauto.
  - contradiction.
Qed.

Lemma fill_setting_idempotent s s' : fill_setting s = Ok s' -> fill_setting s' = Ok s'.
Proof.
  intros H. destruct (fill_setting_filled _ _ H) as (Hf & Hc).
  apply fill_setting_both; assumption.
Qed.

(** The settings come out filled, and no key of [temperatures] is added
    or dropped. *)
Lemma fill_settings_filled t t' :
  fill_settings settings t = Ok t' ->
  (forall setting, In setting settings ->
     exists s', t' !! setting = Some s' /\ fill_setting s' = Ok s') /\
  dom t' = dom t.
Proof.
  unfold settings. simpl. unfold dict_get.
  destruct (t !! "lowest") as [s1|] eqn:H1; simpl; [|discriminate].
  destruct (fill_setting s1) as [s1'|] eqn:F1; simpl; [|discriminate].
  rewrite lookup_insert_ne by discriminate.
  destruct (t !! "preferred") as [s2|] eqn:H2; simpl; [|discriminate].
  destruct (fill_setting s2) as [s2'|] eqn:F2; simpl; [|discriminate].
  rewrite !lookup_insert_ne by discriminate.
  destruct (t !! "highest") as [s3|] eqn:H3; simpl; [|discriminate].
  destruct (fill_setting s3) as [s3'|] eqn:F3; simpl; [|discriminate].
  intros [= <-]. split.
  - intros setting [<-|[<-|[<-|[]]]].
    + exists s1'. rewrite !lookup_insert_ne by discriminate.
      rewrite lookup_insert_eq. eauto using fill_setting_idempotent.
    + exists s2'. rewrite lookup_insert_ne by discriminate.
      rewrite lookup_insert_eq. eauto using fill_setting_idempotent.
    + exists s3'. rewrite lookup_insert_eq. eauto using fill_setting_idempotent.
  - rewrite dom_insert_lookup_L
      by (rewrite !lookup_insert_ne by discriminate; rewrite H3; eauto).
    rewrite dom_insert_lookup_L
      by (rewrite lookup_insert_ne by discriminate; rewrite H2; eauto).
    apply dom_insert_lookup_L. rewrite H1. eauto.
Qed.

Lemma fill_settings_fixed l (t : gmap string (gmap string pynum)) :
  (forall setting, In setting l ->
     exists s, t !! setting = Some s /\ fill_setting s = Ok s) ->
  fill_settings l t = Ok t.
Proof.
  induction l as [|k l IH]; intros H; simpl; [reflexivity|].
  destruct (H k (or_introl eq_refl)) as (s & Hs & Hf).
  unfold dict_get. rewrite Hs. cbn [mbind result_bind]. rewrite Hf.
  cbn [mbind result_bind]. rewrite insert_id by assumption.
  apply IH. intros k' Hk'. apply H. right. assumption.
Qed.

Lemma fill_device_idempotent device device' :
  fill_device device = Ok device' -> fill_device device' = Ok device'.
Proof.
  unfold fill_device.
  destruct (fill_settings _ (temperatures device)) as [t|] eqn:Ht;
    cbn [mbind result_bind]; [|discriminate].
  intros [= <-]. cbn [temperatures].
  rewrite (fill_settings_fixed _ t); [reflexivity|].
  apply (fill_settings_filled _ _ Ht).
Qed.

(** A dictionary walked twice. *)
Lemma mapM_idempotent {A} (g : A -> result A) (l l' : list (string * A)) :
  (forall a b, g a = Ok b -> g b = Ok b) ->
  mapM (fun entry => x ← g (snd entry); Ok (fst entry, x)) l = Ok l' ->
  mapM (fun entry => x ← g (snd entry); Ok (fst entry, x)) l' = Ok l'.
Proof.
  intros Hg. revert l'. induction l as [|[k0 v0] l IH]; intros l'; simpl.
  - intros [= <-]. reflexivity.
  - destruct (g v0) as [v0'|] eqn:Hv; simpl; [|discriminate].
    destruct (mapM _ l) as [r|] eqn:Hm; simpl; [|discriminate].
    intros [= <-]. simpl. rewrite (Hg _ _ Hv). simpl.
    rewrite (IH r eq_refl). reflexivity.
Qed.

Lemma mapM_shape {A} (g : A -> result A) (R : A -> A -> Prop) (l l' : list (string * A)) :
  (forall a b, g a = Ok b -> R a b) ->
  mapM (fun entry => x ← g (snd entry); Ok (fst entry, x)) l = Ok l' ->
  Forall2 (fun e e' => fst e' = fst e /\ R (snd e) (snd e')) l l'.
Proof.
  intros Hg. revert l'. induction l as [|[k0 v0] l IH]; intros l'; simpl.
  - intros [= <-]. constructor.
  - destruct (g v0) as [v0'|] eqn:Hv; simpl; [|discriminate].
    destruct (mapM _ l) as [r|] eqn:Hm; simpl; [|discriminate].
    intros [= <-]. constructor; [simpl; auto|]. apply IH. reflexivity.
Qed.

Lemma mapM_error {A} (g : A -> result A) (l : list (string * A)) e :
  mapM (fun entry => x ← g (snd entry); Ok (fst entry, x)) l = Err e ->
  exists entry, In entry l /\ g (snd entry) = Err e.
Proof.
  induction l as [|[k0 v0] l IH]; simpl; [discriminate|].
  destruct (g v0) as [v0'|e0] eqn:Hv; simpl.
  - destruct (mapM _ l) as [r|e1] eqn:Hm; simpl; [discriminate|].
    intros [= <-]. destruct (IH eq_refl) as (entry & Hin & He). eauto.
  - intros [= <-]. exists (k0, v0). auto.
Qed.

(** X11: [add_missing_temperature_units] is idempotent: a configuration
    it has returned is returned unchanged when normalised again. *)
Theorem add_missing_temperature_units_idempotent cfg cfg' :
  add_missing_temperature_units cfg = Ok cfg' ->
  add_missing_temperature_units cfg' = Ok cfg'.
Proof.
  unfold add_missing_temperature_units.
  destruct (mapM _ (location_prefs cfg)) as [prefs|] eqn:Hm;
    cbn [mbind result_bind]; [|discriminate].
  intros [= <-]. cbn [location_prefs redirect_port client_id client_secret credentials_fpath].
  assert (Hloc : forall a b, fill_location a = Ok b -> fill_location b = Ok b).
  { intros a b. unfold fill_location. apply mapM_idempotent.
    apply fill_device_idempotent. }
  rewrite (mapM_idempotent fill_location _ _ Hloc Hm). reflexivity.
Qed.

Lemma add_missing_temperature_units_idempotent_witness :
  add_missing_temperature_units example_config_filled = Ok example_config_filled.
Proof.
  apply (add_missing_temperature_units_idempotent example_config example_config_filled).
  reflexivity.
Defined.

(** X12: [add_missing_temperature_units] keeps the port, the client id
    and secret and the credential path, and adds, drops or reorders no
    location, no device and no key of [temperatures]. *)
Theorem add_missing_temperature_units_keeps_shape cfg cfg' :
  add_missing_temperature_units cfg = Ok cfg' ->
  redirect_port cfg' = redirect_port cfg /\
  client_id cfg' = client_id cfg /\
  client_secret cfg' = client_secret cfg /\
  credentials_fpath cfg' = credentials_fpath cfg /\
  same_shape cfg cfg'.
Proof.
  unfold add_missing_temperature_units.
  destruct (mapM _ (location_prefs cfg)) as [prefs|] eqn:Hm;
    cbn [mbind result_bind]; [|discriminate].
  intros [= <-]. do 4 (split; [reflexivity|]).
  unfold same_shape. cbn [location_prefs].
  refine (mapM_shape fill_location
            (fun l l' => Forall2 (fun dev dev' =>
                           fst dev' = fst dev /\
                           dom (temperatures (snd dev')) = dom (temperatures (snd dev)))
                         l l') _ _ _ Hm).
  intros a b. unfold fill_location.
  apply (mapM_shape fill_device
           (fun d d' => dom (temperatures d') = dom (temperatures d))).
  intros device device'. unfold fill_device.
  destruct (fill_settings _ (temperatures device)) as [t|] eqn:Ht;
    cbn [mbind result_bind]; [|discriminate].
  intros [= <-]. cbn [temperatures]. apply (fill_settings_filled _ _ Ht).
Qed.

Lemma add_missing_temperature_units_keeps_shape_witness :
  redirect_port example_config_filled = redirect_port example_config /\
  client_id example_config_filled = client_id example_config /\
  client_secret example_config_filled = client_secret example_config /\
  credentials_fpath example_config_filled = credentials_fpath example_config /\
  same_shape example_config example_config_filled.
Proof.
  apply (add_missing_temperature_units_keeps_shape example_config example_config_filled).
  reflexivity.
Defined.

(** *** The exceptions of the arithmetic *)

Lemma float_of_int_error z e : float_of_int z = Err e -> e = OverflowError.
Proof.
  unfold float_of_int. destruct (binary_normalize _ _ _ _ _); try discriminate.
  intros [= <-]. reflexivity.
Qed.

Lemma to_float_error n e : to_float n = Err e -> e = OverflowError.
Proof. destruct n; simpl; [apply float_of_int_error|discriminate]. Qed.

Lemma py_arith_error fz ff a b e : py_arith fz ff a b = Err e -> e = OverflowError.
Proof.
  unfold py_arith.
  destruct a as [x|x], b as [y|y]; cbn [to_float mbind result_bind];
    try discriminate.
  - destruct (float_of_int x) eqn:H; cbn [mbind result_bind]; [discriminate|].
    intros [= <-]. eapply float_of_int_error; eassumption.
  - destruct (float_of_int y) eqn:H; cbn [mbind result_bind]; [discriminate|].
    intros [= <-]. eapply float_of_int_error; eassumption.
Qed.

Lemma py_truediv_error a (d : Z) e :
  d <> 0 -> py_truediv a (PyInt d) = Err e -> e = OverflowError.
Proof.
  intros Hd. unfold py_truediv. cbn [is_zero].
  destruct (Z.eqb_spec d 0); [contradiction|].
  destruct a as [x|x].
  - destruct (SFdiv _ _ _ _); try discriminate. intros [= <-]. reflexivity.
  - cbn [to_float mbind result_bind].
    destruct (float_of_int d) eqn:H; cbn [mbind result_bind]; [discriminate|].
    intros [= <-]. eapply float_of_int_error; eassumption.
Qed.

Lemma py_round_error x e : py_round x = Err e -> e = ValueError \/ e = OverflowError.
Proof.
  destruct x as [z|[s|s| |s m ex]]; simpl; try discriminate; intros [= <-]; auto.
Qed.

Lemma fahrenheit_of_error c e :
  fahrenheit_of c = Err e -> e = ValueError \/ e = OverflowError.
Proof.
  unfold fahrenheit_of.
  destruct (py_mul c (PyInt 9)) as [x|] eqn:H1; cbn [mbind result_bind];
    [|intros [= <-]; right; eapply py_arith_error; eassumption].
  destruct (py_truediv x (PyInt 5)) as [y|] eqn:H2; cbn [mbind result_bind];
    [|intros [= <-]; right; eapply (py_truediv_error _ 5); [lia|eassumption]].
  destruct (py_add y (PyInt 32)) as [z|] eqn:H3; cbn [mbind result_bind];
    [|intros [= <-]; right; eapply py_arith_error; eassumption].
  destruct (py_round z) as [r|] eqn:H4; cbn [mbind result_bind]; [discriminate|].
  intros [= <-]. eapply py_round_error; eassumption.
Qed.

Lemma celsius_of_error f e :
  celsius_of f = Err e -> e = ValueError \/ e = OverflowError.
Proof.
  unfold celsius_of.
  destruct (py_sub f (PyInt 32)) as [x|] eqn:H1; cbn [mbind result_bind];
    [|intros [= <-]; right; eapply py_arith_error; eassumption].
  destruct (py_mul x (PyInt 5)) as [y|] eqn:H2; cbn [mbind result_bind];
    [|intros [= <-]; right; eapply py_arith_error; eassumption].
  destruct (py_truediv y (PyInt 9)) as [z|] eqn:H3; cbn [mbind result_bind];
    [|intros [= <-]; right; eapply (py_truediv_error _ 9); [lia|eassumption]].
  destruct (py_mul (PyInt 2) z) as [d|] eqn:H4; cbn [mbind result_bind];
    [|intros [= <-]; right; eapply py_arith_error; eassumption].
  destruct (py_round d) as [r|] eqn:H5; cbn [mbind result_bind];
    [|intros [= <-]; eapply py_round_error; eassumption].
  intros H. right. eapply (py_truediv_error _ 2); [lia|eassumption].
Qed.

Lemma fill_setting_error s e :
  has_unit s -> fill_setting s = Err e -> e = ValueError \/ e = OverflowError.
Proof.
  intros Hu.
  destruct (s !! "Fahrenheit") as [f|] eqn:Hf, (s !! "Celsius") as [c|] eqn:Hc.
  - rewrite fill_setting_both by eauto. discriminate.
  - rewrite (fill_setting_fahrenheit _ _ Hf Hc).
    destruct (celsius_of f) eqn:H; cbn [mbind result_bind]; [discriminate|].
    intros [= <-]. eapply celsius_of_error; eassumption.
  - rewrite (fill_setting_celsius _ _ Hc Hf).
    destruct (fahrenheit_of c) eqn:H; cbn [mbind result_bind]; [discriminate|].
    intros [= <-]. eapply fahrenheit_of_error; eassumption.
  - destruct Hu as [[? ?]|[? ?]]; congruence.
Qed.

Lemma fill_device_error device e :
  device_ok device -> fill_device device = Err e ->
  e = ValueError \/ e = OverflowError.
Proof.
  intros Hok. unfold fill_device.
  destruct (fill_settings _ (temperatures device)) as [t|e'] eqn:Ht;
    cbn [mbind result_bind]; [discriminate|].
  intros [= <-]. revert Ht. simpl. unfold dict_get.
  destruct (Hok "lowest") as (s1 & H1 & U1); [unfold settings; simpl; auto|].
  destruct (Hok "preferred") as (s2 & H2 & U2); [unfold settings; simpl; auto|].
  destruct (Hok "highest") as (s3 & H3 & U3); [unfold settings; simpl; auto 10|].
  rewrite H1. cbn [mbind result_bind].
  destruct (fill_setting s1) as [s1'|] eqn:F1; cbn [mbind result_bind];
    [|intros [= <-]; eapply fill_setting_error; [|eassumption]; assumption].
  rewrite lookup_insert_ne, H2 by discriminate. cbn [mbind result_bind].
  destruct (fill_setting s2) as [s2'|] eqn:F2; cbn [mbind result_bind];
    [|intros [= <-]; eapply fill_setting_error; [|eassumption]; assumption].
  rewrite !lookup_insert_ne, H3 by discriminate. cbn [mbind result_bind].
  destruct (fill_setting s3) as [s3'|] eqn:F3; cbn [mbind result_bind];
    [discriminate|].
  intros [= <-]. eapply fill_setting_error; [|eassumption]; assumption.
Qed.

(** X13: on a configuration in which every device has the three settings,
    each in at least one unit (what [load_config] asserts), a failure of
    [add_missing_temperature_units] is a [ValueError] or an
    [OverflowError] of the arithmetic, never a [KeyError]. *)
Theorem add_missing_temperature_units_errors cfg e :
  config_ok cfg ->
  add_missing_temperature_units cfg = Err e ->
  e = ValueError \/ e = OverflowError.
Proof.
  intros Hok. unfold add_missing_temperature_units.
  destruct (mapM _ (location_prefs cfg)) as [prefs|e'] eqn:Hm;
    cbn [mbind result_bind]; [discriminate|].
  intros [= <-].
  destruct (mapM_error fill_location _ _ Hm) as (loc & Hloc & Hfl).
  unfold fill_location in Hfl.
  destruct (mapM_error fill_device _ _ Hfl) as (dev & Hdev & Hfd).
  unfold config_ok in Hok. rewrite List.Forall_forall in Hok.
  specialize (Hok loc Hloc). rewrite List.Forall_forall in Hok.
  eapply fill_device_error; [|eassumption]. apply Hok. assumption.
Qed.

Lemma add_missing_temperature_units_errors_witness :
  config_ok nan_config /\
  add_missing_temperature_units nan_config = Err ValueError /\
  (ValueError = ValueError \/ ValueError = OverflowError).
Proof.
  assert (Hok : config_ok nan_config).
  { repeat constructor. intros setting [<-|[<-|[<-|[]]]]; eexists;
      (split; [reflexivity|]); right; eexists; reflexivity. }
  split; [exact Hok|]. split; [reflexivity|].
  apply (add_missing_temperature_units_errors nan_config ValueError Hok).
  reflexivity.
Defined.

End MoreUnitFacts.
Import MoreUnitFacts.

(* ===================================================================== *)
(** ** More on the redirect listener *)
(* ===================================================================== *)

Module MoreHandlerFacts.

(** X16: a request to the redirect handler only adds: at most one call to
    the token endpoint, at most one token in the queue, at most one
    answer to the browser, and a token only together with the answer 200.
    A token that has been delivered to the waiting caller stays the one
    delivered, whatever requests follow. *)
Theorem do_GET_only_adds w client_id client_secret redirect_uri token_url
    auth_state query_params s :
  exists calls tokens answers,
    fst (do_GET w client_id client_secret redirect_uri token_url auth_state
           query_params s)
    = mk_server (log s ++ calls) (token_queue s ++ tokens) (sent s ++ answers) /\
    (length calls <= 1 /\ length tokens <= 1 /\ length answers <= 1)%nat /\
    (tokens <> [] -> exists text, answers = [(200, text)]) /\
    (forall token, delivered s = Some token ->
       delivered (fst (do_GET w client_id client_secret redirect_uri token_url
                         auth_state query_params s)) = Some token).
Proof.
  assert (Hshape : forall calls tokens answers,
            (length calls <= 1 /\ length tokens <= 1 /\ length answers <= 1)%nat ->
            (tokens <> [] -> exists text, answers = [(200, text)]) ->
            forall s', s' = mk_server (log s ++ calls) (token_queue s ++ tokens)
                              (sent s ++ answers) ->
            exists calls tokens answers,
              s' = mk_server (log s ++ calls) (token_queue s ++ tokens)
                     (sent s ++ answers) /\
              (length calls <= 1 /\ length tokens <= 1 /\ length answers <= 1)%nat /\
              (tokens <> [] -> exists text, answers = [(200, text)]) /\
              (forall token, delivered s = Some token -> delivered s' = Some token)).
  { intros calls tokens answers Hlen Htok s' ->. exists calls, tokens, answers.
    do 3 (split; [assumption || reflexivity|]).
    intros token. unfold delivered. cbn [token_queue].
    destruct (token_queue s); [discriminate|]. simpl. auto. }
  unfold do_GET, St.bind, St.pure, St.ret, post, send, put, send_response, St.modify.
  cases; cbn [fst log token_queue sent].
  all: first
    [ apply (Hshape [] [] []); [simpl; lia|congruence|];
      rewrite ?app_nil_r; destruct s; reflexivity
    | eapply (Hshape [_] [_] [_]); [simpl; lia|eauto|reflexivity]
    | eapply (Hshape [_] [] [_]); [simpl; lia|congruence|];
      rewrite ?app_nil_r; reflexivity
    | eapply (Hshape [_] [] []); [simpl; lia|congruence|];
      rewrite ?app_nil_r; reflexivity
    | eapply (Hshape [] [] [_]); [simpl; lia|congruence|];
      rewrite ?app_nil_r; reflexivity ].
Qed.

End MoreHandlerFacts.
Import MoreHandlerFacts.

(* ===================================================================== *)
(** ** More on [main] and the endpoint functions *)
(* ===================================================================== *)

Module MoreMainFacts.

Lemma for_each_calm {S A} (P : A -> Prop) (body : A -> St.stateful S flow) items s :
  (forall x s', P x -> body x s' = (s', Ok Next)) ->
  Forall P items -> for_each body items s = (s, Ok Next).
Proof.
  intros Hbody. induction 1 as [|x items Hx _ IH]; simpl; [reflexivity|].
  unfold St.bind. rewrite (Hbody x s Hx). exact IH.
Qed.

Lemma new_values_within_range now device prefs :
  within_range prefs device -> new_values now device prefs = Ok None.
Proof.
  intros (values & units & indoor & lowest & highest & Hv & Hu & Hi & Hl & Hh & Hlt & Hgt).
  unfold new_values. rewrite Hv, Hu, Hi. cbn [mbind result_bind].
  rewrite Hl. cbn [mbind result_bind]. rewrite Hlt. cbn [mbind result_bind].
  rewrite Hh. cbn [mbind result_bind]. rewrite Hgt. reflexivity.
Qed.

Lemma process_device_calm w cfg creds loc_id loc_prefs device h :
  calm_device loc_prefs device ->
  process_device w cfg creds loc_id loc_prefs device h = (h, Ok Next).
Proof.
  intros (dev_id & Hid & [Hnone | (prefs & Hsome & Hin)]); unfold process_device;
    rewrite bind_pure, Hid, bind_pure.
  - rewrite Hnone. reflexivity.
  - rewrite Hsome. unfold St.bind at 1, St.get. rewrite bind_pure.
    rewrite (new_values_within_range _ _ _ Hin). reflexivity.
Qed.

Lemma process_location_calm w cfg creds location h :
  calm_location w cfg location ->
  process_location w cfg creds location h = (h, Ok Next).
Proof.
  intros (id & Hid & [Hnone | (loc_prefs & devices & Hsome & Hdevs & Hcalm)]);
    unfold process_location; rewrite bind_pure, Hid.
  - rewrite Hnone. reflexivity.
  - rewrite Hsome, bind_pure, Hdevs.
    apply (for_each_calm (calm_device loc_prefs)); [|assumption].
    intros device h' Hd. apply process_device_calm. assumption.
Qed.

(** X14: when the fetch succeeds at once and every listed location is
    not configured or has only devices that are not configured or whose
    indoor temperature is within range, [main] sends nothing but that
    one fetch and returns 0. *)
Theorem main_only_fetches w cfg0 cfg creds h0 response locations :
  add_missing_temperature_units cfg0 = Ok cfg ->
  api w h0 (fetch_request cfg creds) = Response 200 (Ok response) ->
  iter response = Ok locations ->
  Forall (calm_location w cfg) locations ->
  main w cfg0 creds h0
  = (h0 ++ [Called (fetch_request cfg creds) (Response 200 (Ok response))], Ok 0).
Proof.
  intros Hcfg Hapi Hiter Hcalm. unfold main. rewrite Hcfg.
  unfold fetch, get_locs_and_devs, get_locations_and_devices.
  unfold St.bind at 1. rewrite success_and_json_eq.
  unfold fetch_request in Hapi. rewrite Hapi. cbn [fst snd negb Z.eqb Pos.eqb].
  unfold St.ret. unfold try_body. rewrite bind_pure, Hiter.
  rewrite (for_each_calm (calm_location w cfg)); [reflexivity| |assumption].
  intros location h' Hl. apply process_location_calm. assumption.
Qed.

Lemma main_only_fetches_witness :
  main settled_world two_devices stale []
  = ([] ++ [Called (fetch_request two_devices stale)
              (Response 200
                 (Ok (JList [warm_home; JObj {[ "locationID" := JNum (PyInt 77) ]}])))],
     Ok 0).
Proof.
  apply (main_only_fetches settled_world two_devices two_devices stale []
           (JList [warm_home; JObj {[ "locationID" := JNum (PyInt 77) ]}])
           [warm_home; JObj {[ "locationID" := JNum (PyInt 77) ]}]).
  - reflexivity.
  - reflexivity.
  - reflexivity.
  - repeat constructor.
    + exists (JNum (PyInt 1234)). split; [reflexivity|]. right.
      exists [("LCC-1", comfort); ("LCC-2", comfort)],
             [warm_device "LCC-1"; warm_device "LCC-9"].
      split; [reflexivity|]. split; [reflexivity|].
      repeat constructor.
      * exists (JStr "LCC-1"). split; [reflexivity|]. right.
        exists comfort. split; [reflexivity|].
        exists (JObj (device_values "Heat" 68 "NoHold" "00:00:00")),
               (JStr "Fahrenheit"), (JNum (PyInt 70)), (PyInt 66), (PyInt 75).
        repeat split; reflexivity.
      * exists (JStr "LCC-9"). split; [reflexivity|]. left. reflexivity.
    + exists (JNum (PyInt 77)). split; [reflexivity|]. left. reflexivity.
Defined.

(** X15: each of [refresh_access_token], [get_locations_and_devices] and
    [post_device_settings] sends its request exactly once; it returns the
    parsed body with a flag that is true exactly for status 200; and it
    raises when the body cannot be parsed, also on an error status, or
    when the HTTP client raises. *)
Theorem endpoint_outcome w f rq h :
  endpoint w f rq ->
  fst (f h) = h ++ [Called rq (api w h rq)] /\
  (forall st body,
     api w h rq = Response st (Ok body) ->
     snd (f h) = Ok (bool_decide (st = 200), body)) /\
  (forall st e, api w h rq = Response st (Err e) -> snd (f h) = Err e) /\
  (forall e, api w h rq = Raised e -> snd (f h) = Err e).
Proof.
  intros Hf.
  assert (Heq : f h = success_and_json w rq h) by (destruct Hf; reflexivity).
  rewrite Heq, success_and_json_eq. cbn [fst snd].
  split; [reflexivity|]. split; [|split].
  - intros st body ->. f_equal. f_equal.
    destruct (Z.eqb_spec st 200).
    + rewrite bool_decide_eq_true_2 by assumption. reflexivity.
    + rewrite bool_decide_eq_false_2 by assumption. reflexivity.
  - intros st e ->. reflexivity.
  - intros e ->. reflexivity.
Qed.

Lemma endpoint_outcome_witness :
  fst (get_locations_and_devices expired "id" "old-access" [])
  = [] ++ [Called (GetLocations "id" "old-access")
             (api expired [] (GetLocations "id" "old-access"))] /\
  (forall st body,
     api expired [] (GetLocations "id" "old-access") = Response st (Ok body) ->
     snd (get_locations_and_devices expired "id" "old-access" [])
     = Ok (bool_decide (st = 200), body)) /\
  (forall st e,
     api expired [] (GetLocations "id" "old-access") = Response st (Err e) ->
     snd (get_locations_and_devices expired "id" "old-access" []) = Err e) /\
  (forall e,
     api expired [] (GetLocations "id" "old-access") = Raised e ->
     snd (get_locations_and_devices expired "id" "old-access" []) = Err e).
Proof.
  apply (endpoint_outcome expired
           (get_locations_and_devices expired "id" "old-access")
           (GetLocations "id" "old-access") []).
  constructor.
Defined.

End MoreMainFacts.
Import MoreMainFacts.

(* ===================================================================== *)
(** ** The credential file *)
(* ===================================================================== *)

Module CredentialFileFacts.
Import CredentialFile.

Lemma assert_in_dict k (c : gmap string json) message :
  assert_in k (JObj c) message =
  if bool_decide (is_Some (c !! k)) then Returns tt else Fails (AssertionError message).
Proof. reflexivity. Qed.

(** X17: when [load_credentials] returns with the check on, the files
    are untouched, the result is the document of the file, the three
    names are found in it, and if it is a dictionary it has the three
    keys. *)
Theorem load_credentials_checked fpath files files' creds :
  load_credentials fpath true files = (files', Returns creds) ->
  files' = files /\ files !! fpath = Some creds /\
  contains creds "access_token" = Returns true /\
  contains creds "refresh_token" = Returns true /\
  contains creds "expiration_time" = Returns true /\
  (forall c, creds = JObj c ->
     is_Some (c !! "access_token") /\ is_Some (c !! "refresh_token") /\
     is_Some (c !! "expiration_time")).
Proof.
  unfold load_credentials. destruct (files !! fpath) as [doc|]; [|discriminate].
  unfold assert_in.
  destruct (contains doc "access_token") as [[|]|] eqn:H1;
    cbn [mbind outcome_bind]; try discriminate.
  destruct (contains doc "refresh_token") as [[|]|] eqn:H2;
    cbn [mbind outcome_bind]; try discriminate.
  destruct (contains doc "expiration_time") as [[|]|] eqn:H3;
    cbn [mbind outcome_bind]; try discriminate.
  intros [= <- <-]. do 5 (split; [reflexivity || assumption|]).
  intros c ->. simpl in H1, H2, H3.
  injection H1 as H1. injection H2 as H2. injection H3 as H3.
  apply bool_decide_eq_true_1 in H1, H2, H3. auto.
Qed.

Lemma load_credentials_dict fpath check files (c : gmap string json) :
  files !! fpath = Some (JObj c) ->
  (check = true ->
   is_Some (c !! "access_token") /\ is_Some (c !! "refresh_token") /\
   is_Some (c !! "expiration_time")) ->
  load_credentials fpath check files = (files, Returns (JObj c)).
Proof.
  intros Hf Hk. unfold load_credentials. rewrite Hf.
  destruct check; [|reflexivity].
  destruct (Hk eq_refl) as (H1 & H2 & H3).
  rewrite !assert_in_dict.
  rewrite !bool_decide_eq_true_2 by assumption. reflexivity.
Qed.

Lemma set_if_given_dict k x (c : gmap string json) :
  set_if_given k x (JObj c) = Returns (JObj (assign k x c)).
Proof. destruct x; reflexivity. Qed.

(** On a document that is not a dictionary an assignment raises
    [TypeError], and an argument that is [None] leaves it alone. *)
Lemma set_if_given_other k x doc :
  (forall c, doc <> JObj c) ->
  set_if_given k x doc = Returns doc \/ set_if_given k x doc = Fails (Raises TypeError).
Proof.
  intros Hd. destruct doc; try (destruct x; auto; fail).
  destruct (Hd m eq_refl).
Qed.

(** When the three assignments fail, nothing is written. *)
Lemma assignments_fail fpath (files files' : gmap string json) doc a r e check f :
  match (creds ← set_if_given "access_token" a doc;
         creds ← set_if_given "refresh_token" r creds;
         set_if_given "expiration_time" e creds) with
  | Fails f => (files, Fails f)
  | Returns creds => (<[fpath := creds]> files, Returns tt)
  end = (files', Fails f) ->
  files' = files /\ f <> FileNotFoundError fpath /\
  (forall c : gmap string json, doc = JObj c ->
     check = true /\ exists message, f = AssertionError message).
Proof.
  assert (Hd : (exists c, doc = JObj c) \/ (forall c, doc <> JObj c)).
  { destruct doc; eauto; right; intros c; discriminate. }
  destruct Hd as [[c ->]|Hd].
  - rewrite set_if_given_dict. cbn [mbind outcome_bind].
    rewrite set_if_given_dict. cbn [mbind outcome_bind].
    rewrite set_if_given_dict. discriminate.
  - assert (Hf : forall f0, (files, Fails (A := unit) f0) = (files', Fails f) ->
                   f0 = Raises TypeError ->
                   files' = files /\ f <> FileNotFoundError fpath /\
                   (forall c : gmap string json, doc = JObj c ->
                      check = true /\ exists message, f = AssertionError message)).
    { intros f0 [= <- <-] ->. split; [reflexivity|]. split; [discriminate|].
      intros c Hc. destruct (Hd c Hc). }
    destruct (set_if_given_other "access_token" a doc Hd) as [-> | ->];
      cbn [mbind outcome_bind]; [|intros H; eapply Hf; [exact H|reflexivity]].
    destruct (set_if_given_other "refresh_token" r doc Hd) as [-> | ->];
      cbn [mbind outcome_bind]; [|intros H; eapply Hf; [exact H|reflexivity]].
    destruct (set_if_given_other "expiration_time" e doc Hd) as [-> | ->];
      [discriminate|intros H; eapply Hf; [exact H|reflexivity]].
Qed.

(** X19: when [update_credentials] fails, the files are as they were;
    the failure is [FileNotFoundError] exactly when the file does not
    exist, and on a file that holds a dictionary it can only be a failed
    assertion of the check. *)
Theorem update_credentials_failure fpath check files files' f
    access_token refresh_token expiration_time :
  update_credentials fpath access_token refresh_token expiration_time check files
  = (files', Fails f) ->
  files' = files /\
  (files !! fpath = None <-> f = FileNotFoundError fpath) /\
  (forall c, files !! fpath = Some (JObj c) ->
     check = true /\ exists message, f = AssertionError message).
Proof.
  unfold update_credentials, load_credentials.
  destruct (files !! fpath) as [doc|] eqn:Hdoc.
  - intros H.
    assert (Hsame : files' = files /\ f <> FileNotFoundError fpath /\
                    (forall c, doc = JObj c ->
                       check = true /\ exists message, f = AssertionError message)).
    { revert H. destruct check.
      - unfold assert_in.
        destruct (contains doc "access_token") as [[|]|x1] eqn:H1;
          cbn [mbind outcome_bind].
        2: { intros [= <- <-]. split; [reflexivity|]. split; [discriminate|]. eauto. }
        2: { intros [= <- <-]. split; [reflexivity|].
             destruct doc; try discriminate; injection H1 as <-;
               (split; [discriminate|]); intros c; discriminate. }
        destruct (contains doc "refresh_token") as [[|]|x2] eqn:H2;
          cbn [mbind outcome_bind].
        2: { intros [= <- <-]. split; [reflexivity|]. split; [discriminate|]. eauto. }
        2: { intros [= <- <-]. split; [reflexivity|].
             destruct doc; try discriminate; injection H2 as <-;
               (split; [discriminate|]); intros c; discriminate. }
        destruct (contains doc "expiration_time") as [[|]|x3] eqn:H3;
          cbn [mbind outcome_bind].
        2: { intros [= <- <-]. split; [reflexivity|]. split; [discriminate|]. eauto. }
        2: { intros [= <- <-]. split; [reflexivity|].
             destruct doc; try discriminate; injection H3 as <-;
               (split; [discriminate|]); intros c; discriminate. }
        apply assignments_fail.
      - apply assignments_fail. }
    destruct Hsame as (H1 & H2 & H3). split; [assumption|]. split.
    + split; [discriminate|]. intros ->. contradiction.
    + intros c [= ->]. apply (H3 c). reflexivity.
  - intros [= <- <-]. split; [reflexivity|]. split; [tauto|]. discriminate.
Qed.

Lemma update_credentials_dict fpath check files (c : gmap string json) a r e :
  files !! fpath = Some (JObj c) ->
  update_credentials fpath a r e check files
  = match load_credentials fpath check files with
    | (_, Returns _) =>
        (<[fpath := JObj (assign "expiration_time" e
                            (assign "refresh_token" r (assign "access_token" a c)))]>
           files, Returns tt)
    | (_, Fails f) => (files, Fails f)
    end.
Proof.
  intros Hf. unfold update_credentials.
  assert (Hload : forall files' doc,
            load_credentials fpath check files = (files', Returns doc) ->
            files' = files /\ doc = JObj c).
  { unfold load_credentials. rewrite Hf. intros files' doc.
    destruct check; [|intros [= <- <-]; auto].
    destruct (_ ← assert_in "access_token" (JObj c) _; _) eqn:H; [|discriminate].
    intros [= <- <-]. split; [reflexivity|]. revert H.
    rewrite !assert_in_dict.
    destruct (bool_decide (is_Some (c !! "access_token")));
      cbn [mbind outcome_bind]; [|discriminate].
    destruct (bool_decide (is_Some (c !! "refresh_token")));
      cbn [mbind outcome_bind]; [|discriminate].
    destruct (bool_decide (is_Some (c !! "expiration_time")));
      cbn [mbind outcome_bind]; [|discriminate].
    congruence. }
  destruct (load_credentials fpath check files) as [files' [doc|f]] eqn:Hl.
  - destruct (Hload files' doc eq_refl) as [E1 E2]. subst files' doc.
    rewrite !set_if_given_dict. cbn [mbind outcome_bind].
    rewrite !set_if_given_dict. cbn [mbind outcome_bind].
    rewrite !set_if_given_dict. reflexivity.
  - unfold load_credentials in Hl. rewrite Hf in Hl. injection Hl as <- _. reflexivity.
Qed.

Lemma lookup_assign k x (c : gmap string json) k' :
  assign k x c !! k' = if decide (k = k') then updated_field x (c !! k') else c !! k'.
Proof.
  destruct x; cbn [assign updated_field]; rewrite ?lookup_insert; try reflexivity.
  case_decide; reflexivity.
Qed.

Lemma updated_field_twice x1 x2 old :
  updated_field x2 (updated_field x1 old) = updated_field (later x2 x1) old.
Proof. destruct x2; reflexivity. Qed.

Lemma assign_keeps k x (c : gmap string json) k' :
  is_Some (c !! k') -> is_Some (assign k x c !! k').
Proof.
  destruct x; cbn [assign]; auto; rewrite lookup_insert; case_decide; eauto.
Qed.

(** X18: on a credential file that holds a dictionary (with the three
    keys when the check is on), [update_credentials] succeeds, and
    [load_credentials] then returns a dictionary in which each field
    whose argument is not [None] has the value of the argument, and
    every other key, the fields whose argument is [None] among them, has
    the value it had. *)
Theorem update_credentials_then_load fpath check files (c : gmap string json)
    access_token refresh_token expiration_time :
  files !! fpath = Some (JObj c) ->
  (check = true ->
   is_Some (c !! "access_token") /\ is_Some (c !! "refresh_token") /\
   is_Some (c !! "expiration_time")) ->
  exists c',
    update_credentials fpath access_token refresh_token expiration_time check files
    = (<[fpath := JObj c']> files, Returns tt) /\
    load_credentials fpath check (<[fpath := JObj c']> files)
    = (<[fpath := JObj c']> files, Returns (JObj c')) /\
    c' !! "access_token" = updated_field access_token (c !! "access_token") /\
    c' !! "refresh_token" = updated_field refresh_token (c !! "refresh_token") /\
    c' !! "expiration_time" = updated_field expiration_time (c !! "expiration_time") /\
    (forall k, k <> "access_token" -> k <> "refresh_token" -> k <> "expiration_time" ->
               c' !! k = c !! k).
Proof.
  intros Hf Hk.
  exists (assign "expiration_time" expiration_time
            (assign "refresh_token" refresh_token
               (assign "access_token" access_token c))).
  split; [|split].
  - rewrite (update_credentials_dict _ _ _ _ _ _ _ Hf).
    rewrite (load_credentials_dict _ _ _ _ Hf Hk). reflexivity.
  - apply load_credentials_dict; [apply lookup_insert_eq|].
    intros Hc. destruct (Hk Hc) as (H1 & H2 & H3).
    repeat split; repeat apply assign_keeps; assumption.
  - split; [|split; [|split]].
    + rewrite !lookup_assign. repeat case_decide; try congruence; discriminate.
    + rewrite !lookup_assign. repeat case_decide; try congruence; discriminate.
    + rewrite !lookup_assign. repeat case_decide; try congruence; discriminate.
    + intros k K1 K2 K3. rewrite !lookup_assign.
      repeat case_decide; congruence.
Qed.

(** X20: two successive calls of [update_credentials] on a file that
    holds a dictionary do what one call does that is given, for each
    field, the second argument unless it is [None] and else the first. *)
Theorem update_credentials_twice fpath check files (c : gmap string json)
    a1 r1 e1 a2 r2 e2 files1 :
  files !! fpath = Some (JObj c) ->
  update_credentials fpath a1 r1 e1 check files = (files1, Returns tt) ->
  update_credentials fpath a2 r2 e2 check files1
  = update_credentials fpath (later a2 a1) (later r2 r1) (later e2 e1) check files.
Proof.
  intros Hf. rewrite !(update_credentials_dict _ _ _ _ _ _ _ Hf).
  destruct (load_credentials fpath check files) as [files' [doc|f]] eqn:Hl;
    [|discriminate].
  intros [= <-].
  rewrite (update_credentials_dict _ _ _ _ _ _ _ (lookup_insert_eq _ _ _)).
  rewrite load_credentials_dict with (c := assign "expiration_time" e1
             (assign "refresh_token" r1 (assign "access_token" a1 c))).
  - rewrite insert_insert_eq. f_equal. f_equal. f_equal.
    apply map_eq. intros k. rewrite !lookup_assign.
    repeat case_decide; subst; try discriminate;
      rewrite ?updated_field_twice; reflexivity.
  - apply lookup_insert_eq.
  - intros ->. unfold load_credentials in Hl. rewrite Hf in Hl.
    injection Hl as _ Hl. revert Hl. rewrite !assert_in_dict.
    destruct (bool_decide (is_Some (c !! "access_token"))) eqn:H1;
      cbn [mbind outcome_bind]; [|discriminate].
    destruct (bool_decide (is_Some (c !! "refresh_token"))) eqn:H2;
      cbn [mbind outcome_bind]; [|discriminate].
    destruct (bool_decide (is_Some (c !! "expiration_time"))) eqn:H3;
      cbn [mbind outcome_bind]; [|discriminate].
    intros _. apply bool_decide_eq_true_1 in H1, H2, H3.
    repeat split; repeat apply assign_keeps; assumption.
Qed.

Lemma load_credentials_checked_witness :
  load_credentials "creds.json" true fresh_files
  = (fresh_files, Returns empty_credentials) /\
  fresh_files !! "creds.json" = Some empty_credentials /\
  contains empty_credentials "refresh_token" = Returns true.
Proof.
  assert (H : load_credentials "creds.json" true fresh_files
              = (fresh_files, Returns empty_credentials)) by reflexivity.
  split; [exact H|].
  destruct (load_credentials_checked "creds.json" fresh_files fresh_files
              empty_credentials H) as (_ & Hf & _ & Hr & _).
  split; assumption.
Defined.

Lemma update_credentials_then_load_witness :
  exists c',
    update_credentials "creds.json" (JStr "new-access") JNull JNull true fresh_files
    = (<["creds.json" := JObj c']> fresh_files, Returns tt) /\
    load_credentials "creds.json" true (<["creds.json" := JObj c']> fresh_files)
    = (<["creds.json" := JObj c']> fresh_files, Returns (JObj c')) /\
    c' !! "access_token"
    = updated_field (JStr "new-access") (empty_fields !! "access_token") /\
    c' !! "refresh_token" = updated_field JNull (empty_fields !! "refresh_token") /\
    c' !! "expiration_time" = updated_field JNull (empty_fields !! "expiration_time") /\
    (forall k, k <> "access_token" -> k <> "refresh_token" -> k <> "expiration_time" ->
               c' !! k = empty_fields !! k).
Proof.
  apply (update_credentials_then_load "creds.json" true fresh_files empty_fields
           (JStr "new-access") JNull JNull).
  - reflexivity.
  - intros _. repeat split; eexists; reflexivity.
Defined.

Lemma update_credentials_failure_witness :
  update_credentials "creds.json" (JStr "new-access") JNull JNull true ∅
  = (∅, Fails (FileNotFoundError "creds.json")) /\
  ((∅ : gmap string json) !! "creds.json" = None
   <-> FileNotFoundError "creds.json" = FileNotFoundError "creds.json").
Proof.
  assert (H : update_credentials "creds.json" (JStr "new-access") JNull JNull true ∅
              = (∅, Fails (FileNotFoundError "creds.json"))) by reflexivity.
  split; [exact H|].
  destruct (update_credentials_failure "creds.json" true ∅ ∅
              (FileNotFoundError "creds.json") (JStr "new-access") JNull JNull H)
    as (_ & Hiff & _).
  exact Hiff.
Defined.

Lemma update_credentials_twice_witness :
  update_credentials "creds.json" JNull (JStr "newer-refresh") JNull true
    (<["creds.json" := JObj (<["refresh_token" := JStr "new-refresh"]>
                               (<["access_token" := JStr "new-access"]> empty_fields))]>
       fresh_files)
  = update_credentials "creds.json"
      (later JNull (JStr "new-access"))
      (later (JStr "newer-refresh") (JStr "new-refresh"))
      (later JNull JNull) true fresh_files.
Proof.
  apply (update_credentials_twice "creds.json" true fresh_files empty_fields
           (JStr "new-access") (JStr "new-refresh") JNull
           JNull (JStr "newer-refresh") JNull).
  - reflexivity.
  - reflexivity.
Defined.

End CredentialFileFacts.
Import CredentialFileFacts.

(* ===================================================================== *)
(** ** The configuration file *)
(* ===================================================================== *)

Module ConfigFileFacts.
Import CredentialFile ConfigFile.

Lemma for_all_In {A} (body : A -> outcome unit) items x :
  for_all body items = Returns tt -> In x items -> body x = Returns tt.
Proof.
  induction items as [|y items IH]; simpl; [contradiction|].
  destruct (body y) as [[]|f] eqn:Hy; cbn [mbind outcome_bind]; [|discriminate].
  intros H [<-|Hin]; auto.
Qed.

Lemma iter_dict_In (m : gmap string json) k v items :
  m !! k = Some v -> iter (JObj m) = Ok items -> In (JStr k) items.
Proof.
  intros Hk [= <-]. apply list_elem_of_In.
  apply list_elem_of_fmap. exists k. split; [reflexivity|].
  apply list_elem_of_fmap. exists (k, v). split; [reflexivity|].
  apply elem_of_map_to_list. assumption.
Qed.

Lemma assert_that_Returns cond message :
  assert_that cond message = Returns tt -> cond = true.
Proof. destruct cond; [reflexivity|discriminate]. Qed.

Lemma check_unit_Returns w dev_id device setting name s :
  setting_of device setting = Returns s ->
  check_unit w dev_id device setting name = Returns tt ->
  contains s name = Returns true ->
  exists x, getitem s name = Ok x /\ is_number x = true.
Proof.
  intros Hs. unfold check_unit. rewrite Hs. cbn [mbind outcome_bind].
  intros H Hc. rewrite Hc in H. cbn [mbind outcome_bind] in H.
  destruct (getitem s name) as [x|e]; cbn [lift mbind outcome_bind] in H; [|discriminate].
  exists x. split; [reflexivity|]. eapply assert_that_Returns; eassumption.
Qed.

Lemma check_setting_Returns w dev_id device setting :
  check_setting w dev_id device setting = Returns tt ->
  setting_checked device setting.
Proof.
  unfold check_setting, setting_checked, setting_of.
  destruct (getitem device "temperatures") as [temps|e] eqn:Ht;
    cbn [lift mbind outcome_bind result_bind]; [|discriminate].
  destruct (contains temps setting) as [[|]|f] eqn:Hfound;
    cbn [assert_that mbind outcome_bind]; try discriminate.
  destruct (getitem temps setting) as [s|e] eqn:Hs;
    cbn [lift mbind outcome_bind]; [|discriminate].
  intros H. exists temps, s. do 3 (split; [reflexivity || assumption|]).
  assert (Hset : setting_of device setting = Returns s).
  { unfold setting_of. rewrite Ht. cbn [mbind result_bind]. rewrite Hs. reflexivity. }
  destruct (contains s "Fahrenheit") as [fahrenheit|f] eqn:Hf;
    cbn [mbind outcome_bind] in H; [|discriminate].
  assert (Heither : contains s "Fahrenheit" = Returns true \/
                    contains s "Celsius" = Returns true).
  { rewrite Hf. destruct fahrenheit; [left; reflexivity|right].
    cbn [mbind outcome_bind] in H.
    destruct (contains s "Celsius") as [[|]|f] eqn:Hc;
      cbn [assert_that mbind outcome_bind] in H; try discriminate. reflexivity. }
  rewrite <- Hf. split; [assumption|].
  assert (Hunits : check_unit w dev_id device setting "Fahrenheit" = Returns tt /\
                   check_unit w dev_id device setting "Celsius" = Returns tt).
  { destruct (if fahrenheit then Returns true else contains s "Celsius") as [[|]|f];
      cbn [assert_that mbind outcome_bind] in H; try discriminate.
    destruct (check_unit w dev_id device setting "Fahrenheit") as [[]|f];
      cbn [mbind outcome_bind] in H; [|discriminate]. auto. }
  destruct Hunits as [HF HC].
  intros name [-> | ->] Hc; eapply check_unit_Returns; eassumption.
Qed.

Lemma check_device_Returns w loc dev_id device :
  subscript loc dev_id = Returns device ->
  check_device w loc dev_id = Returns tt ->
  contains device "temperatures" = Returns true /\
  forall setting, In setting settings -> setting_checked device setting.
Proof.
  intros Hd. unfold check_device. rewrite Hd. cbn [mbind outcome_bind].
  destruct (contains device "temperatures") as [[|]|f];
    cbn [assert_that mbind outcome_bind]; try discriminate.
  intros H. split; [reflexivity|]. intros setting Hin.
  eapply check_setting_Returns. eapply for_all_In; eassumption.
Qed.

(** X21: when [load_config] returns with the check on, the files are
    untouched, the result is the document of the file, the five names
    are found in it, and in a document made of dictionaries every device
    of every location has [temperatures] with the three settings, each
    with Fahrenheit or Celsius, every unit that is there being a
    number. *)
Theorem load_config_checked w fpath files files' config :
  load_config w fpath true files = (files', Returns config) ->
  files' = files /\ files !! fpath = Some config /\
  contains config "redirect_port" = Returns true /\
  contains config "client_id" = Returns true /\
  contains config "client_secret" = Returns true /\
  contains config "credentials_fpath" = Returns true /\
  contains config "location_prefs" = Returns true /\
  (forall (c prefs devices : gmap string json) loc_id dev_id device,
     config = JObj c ->
     c !! "location_prefs" = Some (JObj prefs) ->
     prefs !! loc_id = Some (JObj devices) ->
     devices !! dev_id = Some device ->
     contains device "temperatures" = Returns true /\
     forall setting, In setting settings -> setting_checked device setting).
Proof.
  unfold load_config. destruct (files !! fpath) as [doc|]; [|discriminate].
  destruct (check_config w doc) as [[]|f] eqn:Hcheck;
    cbn [mbind outcome_bind]; [|discriminate].
  intros [= <- <-]. do 2 (split; [reflexivity|]).
  revert Hcheck. unfold check_config, assert_in.
  destruct (contains doc "redirect_port") as [[|]|f1];
    cbn [mbind outcome_bind]; try discriminate.
  destruct (contains doc "client_id") as [[|]|f2];
    cbn [mbind outcome_bind]; try discriminate.
  destruct (contains doc "client_secret") as [[|]|f3];
    cbn [mbind outcome_bind]; try discriminate.
  destruct (contains doc "credentials_fpath") as [[|]|f4];
    cbn [mbind outcome_bind]; try discriminate.
  destruct (contains doc "location_prefs") as [[|]|f5];
    cbn [mbind outcome_bind]; try discriminate.
  intros Hloops. do 5 (split; [reflexivity|]).
  intros c prefs devices loc_id dev_id device -> Hprefs Hloc Hdev.
  revert Hloops. cbn [getitem]. unfold dict_get. rewrite Hprefs.
  cbn [lift mbind outcome_bind].
  destruct (iter (JObj prefs)) as [locations|e] eqn:Hlocs;
    cbn [lift mbind outcome_bind]; [|discriminate].
  intros Hall.
  pose proof (for_all_In _ _ (JStr loc_id) Hall (iter_dict_In _ _ _ _ Hloc Hlocs)) as Hl.
  revert Hl. unfold check_location. cbn [getitem]. unfold dict_get. rewrite Hprefs.
  cbn [lift mbind outcome_bind subscript dict_get_json]. unfold dict_get. rewrite Hloc.
  cbn [lift mbind outcome_bind].
  destruct (iter (JObj devices)) as [devs|e] eqn:Hdevs;
    cbn [lift mbind outcome_bind]; [|discriminate].
  intros Hall'.
  pose proof (for_all_In _ _ (JStr dev_id) Hall' (iter_dict_In _ _ _ _ Hdev Hdevs)) as Hd.
  eapply check_device_Returns; [|exact Hd].
  cbn [subscript dict_get_json]. unfold dict_get. rewrite Hdev. reflexivity.
Qed.

(** X22: the file [create_empty_credentials] writes passes the check of
    [load_credentials], and the file [create_empty_config] writes passes
    the check of [load_config], whatever the path and the other files. *)
Theorem create_empty_then_load w fpath files :
  load_credentials fpath true (fst (create_empty_credentials fpath files))
  = (<[fpath := empty_credentials]> files, Returns empty_credentials) /\
  load_config w fpath true (fst (create_empty_config fpath files))
  = (<[fpath := empty_config]> files, Returns empty_config).
Proof.
  unfold load_credentials, create_empty_credentials, load_config, create_empty_config.
  cbn [fst]. rewrite !lookup_insert_eq. split; reflexivity.
Qed.

Lemma load_config_checked_witness :
  load_config granting "config.json" true config_files
  = (config_files, Returns (JObj config_fields)) /\
  contains device_document "temperatures" = Returns true /\
  (forall setting, In setting settings -> setting_checked device_document setting).
Proof.
  assert (H : load_config granting "config.json" true config_files
              = (config_files, Returns (JObj config_fields))) by reflexivity.
  split; [exact H|].
  destruct (load_config_checked granting "config.json" config_files config_files
              (JObj config_fields) H) as (_ & _ & _ & _ & _ & _ & _ & Hdev).
  apply (Hdev config_fields location_documents {[ "LCC-1" := device_document ]}
           "1234" "LCC-1" device_document); reflexivity.
Defined.

End ConfigFileFacts.
Import ConfigFileFacts.
